(** * huek250 hydrogeology attributes: a shallow embedding of
      [huek250/src/extract_functions.py]

    The Python module clips a polygon base map (HUEK250) to catchment
    polygons and reports, per catchment, the areal percentage of every
    class of six categorical attributes.

    Layout of this development:
    - [Float]: IEEE-754 binary64 numbers (Python's [float], numpy's
      [float64]) through the executable specification of the Standard
      Library ([SpecFloat]), with the handful of numpy operations the
      program calls ([nansum], [row_sum], [rint], [round]), and what
      rounding to two decimals means ([rounded_to_2_decimals]);
    - strings, exceptions, the geometry interface (the part of
      shapely/geopandas that the program only calls), the two kinds of
      frames ([GeoDataFrame], [DataFrame]) and the pandas operations on
      their values;
    - the tables of output columns and base-map labels of the six
      extractors;
    - the object store and the state-and-exception monad [M] in which
      the Python functions are written: Python variables hold references
      into the store, [inplace=True] operations and [df[col] = ...]
      overwrite the referenced object;
    - the functions of the module, in source order and under their
      source names;
    - a value-level description of what each function computes;
    - two small concrete geometries (regions of a grid, stretches of a
      line) and example inputs;
    - the properties: rules for calls, the proof that the monadic code
      computes the value-level description and leaves the objects of
      its caller alone, and the properties of the module;
    - further properties of the module: its failures on missing
      columns, missing coordinate references and empty inputs, what a
      row of the table depends on, and which cells can reach the table;
    - the entry point [huek250/src/run.py] and its three ways to end. *)

From Stdlib Require Import ZArith String Ascii List Bool Lia.
From Stdlib Require Import SpecFloat.
From stdpp Require Import gmap strings list pretty.

Local Open Scope string_scope.
Local Open Scope list_scope.

(** ** Double-precision numbers *)

Module Float.

Definition prec : Z := 53.
Definition emax : Z := 1024.

Definition float : Type := spec_float.

Definition add : float → float → float := SFadd prec emax.
Definition sub : float → float → float := SFsub prec emax.
Definition mul : float → float → float := SFmul prec emax.
Definition div : float → float → float := SFdiv prec emax.
Definition abs : float → float := SFabs.
Definition eqb : float → float → bool := SFeqb.
Definition ltb : float → float → bool := SFltb.
Definition leb : float → float → bool := SFleb.

(** The double nearest to [m * 2^e], and the double of an integer. *)
Definition of_bits (m e : Z) : float := binary_normalize prec emax m e false.
Definition of_Z (z : Z) : float := of_bits z 0.

Definition zero : float := S754_zero false.
Definition nan : float := S754_nan.
Definition one : float := of_Z 1.
Definition hundred : float := of_Z 100.

Definition is_nan (x : float) : bool :=
  match x with S754_nan => true | _ => false end.

Definition is_zero (x : float) : bool :=
  match x with S754_zero _ => true | _ => false end.

(** [numpy.isfinite] *)
Definition is_finite (x : float) : bool :=
  match x with
  | S754_zero _ | S754_finite _ _ _ => true
  | S754_infinity _ | S754_nan => false
  end.

(** The sign bit. *)
Definition signbit (x : float) : bool :=
  match x with
  | S754_zero s | S754_infinity s | S754_finite s _ _ => s
  | S754_nan => false
  end.

(** [Series.sum()] and [DataFrame.sum(axis=1)] with pandas' default
    [skipna=True, min_count=0] put [0.0] in the place of every NaN cell
    ([np.putmask(values, mask, 0)]) and hand the array to numpy's
    [add.reduce], which starts from [0.0] and whose order of addition
    depends on the layout of the array. *)
Definition fillna (x : float) : float := if is_nan x then zero else x.

(** A reduction that steps through memory with a stride (the cells of
    one row, in an array that holds a frame of two rows or more column
    after column): one cell after the other is added to the result. *)
Definition sum_sequential (l : list float) : float := fold_left add l zero.

(** A reduction over contiguous memory (a [Series]; the cells of one
    row, in an array that holds a frame row after row or a frame of a
    single row) is numpy's pairwise summation. Fewer than 8
    numbers are added one after the other. Up to 128 numbers are added
    into 8 accumulators, number [i] into accumulator [i mod 8], as long
    as a full block of 8 is left; the accumulators are added in pairs,
    and the numbers after the last full block are added to that one
    after the other. More than 128 numbers are cut in two near the
    middle, at a multiple of 8, and the sums of the parts are added. *)
Fixpoint unrolled (r l : list float) : list float * list float :=
  match l with
  | a0 :: a1 :: a2 :: a3 :: a4 :: a5 :: a6 :: a7 :: l' =>
      unrolled (zip_with add r [a0; a1; a2; a3; a4; a5; a6; a7]) l'
  | _ => (r, l)
  end.

Definition accumulated8 (r : list float) : float :=
  match r with
  | [r0; r1; r2; r3; r4; r5; r6; r7] =>
      add (add (add r0 r1) (add r2 r3)) (add (add r4 r5) (add r6 r7))
  | _ => fold_left add r zero
  end.

Definition sum_block (l : list float) : float :=
  let (r, rest) := unrolled (firstn 8 l) (skipn 8 l) in
  fold_left add rest (accumulated8 r).

(** [depth] bounds the number of times the array is cut in two; a list
    is never cut more often than it has elements. *)
Fixpoint pairwise (depth : nat) (l : list float) : float :=
  let n := length l in
  if (n <? 8)%nat then fold_left add l zero
  else if (n <=? 128)%nat then sum_block l
  else
    match depth with
    | O => sum_block l
    | S depth' =>
        let n2 := (n / 2 - (n / 2) mod 8)%nat in
        add (pairwise depth' (firstn n2 l)) (pairwise depth' (skipn n2 l))
    end.

Definition pairwise_sum (l : list float) : float := pairwise (length l) l.

(** [Series.sum()], and [DataFrame.sum(axis=1)] for a row whose cells
    lie next to each other. *)
Definition nansum (l : list float) : float :=
  add zero (pairwise_sum (map fillna l)).

(** [DataFrame.sum(axis=1)] for one row of a frame; [contiguous] tells
    whether the cells of a row lie next to each other in the array
    that numpy reduces. *)
Definition row_sum (contiguous : bool) (cells : list float) : float :=
  if contiguous then nansum cells else sum_sequential (map fillna cells).

(** [numpy.rint]: the nearest integer, ties to even, sign kept. *)
Definition rint (x : float) : float :=
  match x with
  | S754_finite s m e =>
      if (0 <=? e)%Z then x
      else
        let d := (2 ^ (- e))%Z in
        let q := (Z.pos m / d)%Z in
        let r := (Z.pos m mod d)%Z in
        let q' :=
          match (2 * r ?= d)%Z with
          | Lt => q
          | Gt => (q + 1)%Z
          | Eq => if Z.even q then q else (q + 1)%Z
          end in
        binary_normalize prec emax (if s then (- q')%Z else q') 0 s
  | _ => x
  end.

(** [numpy.round(x, decimals)] for [decimals > 0], which is what
    [DataFrame.round] applies to every float cell:
    [rint(x * 10**decimals) / 10**decimals]. *)
Definition round (decimals : nat) (x : float) : float :=
  let f := of_Z (10 ^ Z.of_nat decimals) in
  div (rint (mul x f)) f.

End Float.

Abbreviation float := Float.float.

(** ** Rounding, as a specification

    [k] is the integer nearest to the fraction [n / d] (for [d > 0]): it
    lies no further than one half from the fraction, and it is even
    when the fraction lies half-way between two integers. *)
Definition nearest_integer (n d k : Z) : Prop :=
  (2 * Z.abs (n - k * d) ≤ d)%Z ∧
  ((2 * Z.abs (n - k * d) = d)%Z → Z.even k = true).

(** The double of the integer [z], where zero takes the sign
    [negative]. *)
Definition integer (negative : bool) (z : Z) : float :=
  binary_normalize Float.prec Float.emax (if negative then (- z)%Z else z) 0 negative.

(** [y] is [x] rounded to two decimals: the hundredth part of the
    integer nearest to the hundredfold of [x]. The hundredfold is the
    double [x * 100.0], of magnitude [m * 2^e]. With [e < 0] this is
    the fraction [m / 2^(-e)]; with [0 <= e] it is an integer already
    and is kept, as are a zero, an infinity and NaN. *)
Definition rounded_to_2_decimals (x y : float) : Prop :=
  match Float.mul x Float.hundred with
  | S754_finite s m e =>
      if (0 <=? e)%Z then y = Float.div (S754_finite s m e) Float.hundred
      else ∃ k, nearest_integer (Z.pos m) (2 ^ (- e)) k ∧
                y = Float.div (integer s k) Float.hundred
  | p => y = Float.div p Float.hundred
  end.

(** ** Strings *)

(** [s.startswith(p)] *)
Definition startswith (s p : string) : bool := String.prefix p s.

(** [sub in s] *)
Fixpoint contains (sub s : string) : bool :=
  String.prefix sub s ||
  match s with
  | EmptyString => false
  | String _ s' => contains sub s'
  end.

Definition mem_string (x : string) (l : list string) : bool :=
  existsb (String.eqb x) l.

(** ** Exceptions *)

Inductive exn : Type :=
  | AssertionError
  | KeyError
  | IndexError
  | ValueError
  | TypeError
  | UnalignedIndex.

Definition result (A : Type) : Type := exn + A.

Definition ok {A} (a : A) : result A := inr a.
Definition raise {A} (e : exn) : result A := inl e.

Definition rbind {A B} (r : result A) (f : A → result B) : result B :=
  match r with
  | inl e => inl e
  | inr a => f a
  end.

Definition of_option {A} (e : exn) (o : option A) : result A :=
  match o with
  | Some a => ok a
  | None => raise e
  end.

(** ** Geometry

    The program never looks inside a geometry: it hands geometries to
    geopandas and reads areas back. The operations it relies on are
    collected in an interface, with the one fact about them that the
    properties below use: the geometries that an intersection returns
    have an area that is not negative. *)

Class Geometry (G : Type) : Type := {
  (** [geom.area] *)
  area : G → float;
  (** the spatial predicate behind [sindex.query(..., "intersects")] *)
  intersects : G → G → bool;
  (** [geom.intersection(other)] *)
  intersection : G → G → G;
  (** [GeoSeries.union_all()] *)
  union_all : list G → G;
  (** the coordinate transformation behind [to_crs] *)
  transform : string → string → G → G;
  (** the text of a geometry, which stands for the geometry where one
      is used as an index label *)
  label : G → string;
  area_not_negative : ∀ a b : G, Float.signbit (area (intersection a b)) = false
}.

(** ** Frames *)

(** A row of a [GeoDataFrame]: the attribute cells, in the order of the
    frame's columns ([None] for a null cell), and the geometry. *)
Record GeoRow (G : Type) : Type := {
  cells : list (option string);
  geometry : G
}.
Arguments cells {G} _.
Arguments geometry {G} _.
Arguments Build_GeoRow {G} _ _.

Record GeoDataFrame (G : Type) : Type := {
  crs : option string;
  (** the label of the geometry column *)
  geometry_name : string;
  (** the labels of the other columns *)
  attributes : list string;
  rows : list (GeoRow G)
}.
Arguments crs {G} _.
Arguments geometry_name {G} _.
Arguments attributes {G} _.
Arguments rows {G} _.
Arguments Build_GeoDataFrame {G} _ _ _ _.

(** A [DataFrame] of float columns, column-major as pandas keeps it: the
    index labels and, per column, its name and one cell per index
    label. *)
Record DataFrame : Type := {
  index : list (option string);
  data : list (string * list float)
}.

Definition columns (d : DataFrame) : list string := map fst (data d).

Definition empty_frame : DataFrame := {| index := []; data := [] |}.

(** *** pandas: operations on [DataFrame] values *)

(** [df[col]] *)
Definition getitem (d : DataFrame) (col : string) : option (list float) :=
  snd <$> List.find (λ c, String.eqb (fst c) col) (data d).

(** [df[col] = vals]: an existing column is overwritten in place, a new
    one is appended on the right. *)
Definition setitem (d : DataFrame) (col : string) (vals : list float) : DataFrame :=
  if mem_string col (columns d) then
    {| index := index d;
       data := map (λ c, if String.eqb (fst c) col then (col, vals) else c) (data d) |}
  else
    {| index := index d; data := data d ++ [(col, vals)] |}.

(** [df[col] = x] with a scalar [x], which pandas broadcasts over the
    index. *)
Definition setitem_scalar (d : DataFrame) (col : string) (x : float) : DataFrame :=
  setitem d col (repeat x (length (index d))).

(** [df[[c1, c2, ...]]]: the listed columns, in the listed order. *)
Definition select (d : DataFrame) (cols : list string) : result DataFrame :=
  if forallb (λ c, mem_string c (columns d)) cols then
    ok {| index := index d;
          data := flat_map (λ c, List.filter (λ x, String.eqb (fst x) c) (data d)) cols |}
  else raise KeyError.

(** [df.drop(cols, axis=1)] *)
Definition drop (d : DataFrame) (cols : list string) : result DataFrame :=
  if forallb (λ c, mem_string c (columns d)) cols then
    ok {| index := index d;
          data := List.filter (λ x, negb (mem_string (fst x) cols)) (data d) |}
  else raise KeyError.

(** The cells of row [i], left to right. *)
Definition row_cells (d : DataFrame) (i : nat) : list float :=
  map (λ c, nth i (snd c) Float.nan) (data d).

Definition positions (d : DataFrame) : list nat := seq 0 (length (index d)).

(** pandas keeps the cells of a frame column after column, and
    [df.sum(axis=1)] hands numpy that array to be reduced along the
    columns. The cells of a row lie next to each other in it when the
    frame has a single row. They also do when a cell of the frame is
    NaN: pandas then reduces a copy of the array ([values.copy()] in
    [nanops], the NaN cells of which it overwrites with [0.0]), and
    numpy lays a copy out row after row. *)
Definition contiguous_rows (d : DataFrame) : bool :=
  Nat.eqb (length (index d)) 1 ||
  existsb (λ c, existsb Float.is_nan (snd c)) (data d).

(** [df.sum(axis=1)]: one sum per row. *)
Definition sum_axis1 (d : DataFrame) : list float :=
  map (λ i, Float.row_sum (contiguous_rows d) (row_cells d i)) (positions d).

(** [df.values.flatten().tolist()]: the cells in row-major order. *)
Definition values_flatten (d : DataFrame) : list float :=
  flat_map (row_cells d) (positions d).

(** [series.iloc[0]] *)
Definition iloc0 {A} (l : list A) : result A := of_option IndexError (head l).

(** [pd.concat(frames, axis=1)] for frames that carry the same index:
    the columns side by side. pandas would align frames whose indexes
    differ; the program only concatenates frames built from one and the
    same catchment row, so that alignment is not modelled: the case is
    set apart as [UnalignedIndex] and is never reached. *)
Definition concat_axis1 (ds : list DataFrame) : result DataFrame :=
  match ds with
  | [] => raise ValueError
  | d :: ds' =>
      if forallb (λ d', bool_decide (index d' = index d)) ds' then
        ok {| index := index d; data := flat_map data ds |}
      else raise UnalignedIndex
  end.

Definition column_or_nan (d : DataFrame) (col : string) : list float :=
  default (repeat Float.nan (length (index d))) (getitem d col).

(** [pd.concat([a, b], axis=0)]: the rows of [b] under the rows of [a];
    the columns are those of [a] followed by the new ones of [b], and a
    frame that lacks a column contributes NaN cells to it. *)
Definition concat_axis0 (a b : DataFrame) : DataFrame :=
  let cols :=
    columns a ++ List.filter (λ c, negb (mem_string c (columns a))) (columns b) in
  {| index := index a ++ index b;
     data := map (λ c, (c, column_or_nan a c ++ column_or_nan b c)) cols |}.

(** [df.round(decimals)] *)
Definition round_frame (decimals : nat) (d : DataFrame) : DataFrame :=
  {| index := index d;
     data := map (λ c, (fst c, map (Float.round decimals) (snd c))) (data d) |}.

(** [set(values)] on a list of floats that [tolist()] has just created:
    two cells fall together when they compare equal with [==], so every
    NaN stays an element of its own. *)
Definition py_set (l : list float) : list float :=
  fold_left (λ acc x, if existsb (Float.eqb x) acc then acc else acc ++ [x]) l [].

(** [numpy.testing.assert_almost_equal(actual, desired, decimal)] on
    scalars: infinities and NaN must match exactly, finite numbers must
    satisfy [abs(desired - actual) < float64(1.5 * 10.0**(-decimal))]. *)
Definition tolerance (decimal : nat) : float :=
  Float.mul (Float.of_bits 3 (-1))
            (Float.div Float.one (Float.of_Z (10 ^ Z.of_nat decimal))).

Definition assert_almost_equal (actual desired : float) (decimal : nat) : result unit :=
  if negb (Float.is_finite desired && Float.is_finite actual) then
    if Float.is_nan desired || Float.is_nan actual then
      if Float.is_nan desired && Float.is_nan actual then ok tt
      else raise AssertionError
    else
      if Float.eqb desired actual then ok tt else raise AssertionError
  else
    if Float.leb (tolerance decimal) (Float.abs (Float.sub desired actual))
    then raise AssertionError
    else ok tt.

(** *** geopandas: operations on [GeoDataFrame] values *)

Fixpoint index_of (x : string) (l : list string) : option nat :=
  match l with
  | [] => None
  | y :: l' => if String.eqb x y then Some 0 else S <$> index_of x l'
  end.

(** How often a label occurs in a list of labels. *)
Definition occurrences (name : string) (l : list string) : nat :=
  length (List.filter (String.eqb name) l).

Section GeoFrames.
Context {G : Type} `{Geometry G}.

(** The column labels of a frame. The operations below resolve a label
    that occurs more than once to its first column; the properties
    that depend on the difference assume that the label occurs once. *)
Definition column_labels (g : GeoDataFrame G) : list string :=
  attributes g ++ [geometry_name g].

(** [gdf[name]]: the cells of an attribute column, or the geometries
    of the geometry column, each standing as its text. A label that
    two columns carry selects the first of them; geopandas returns a
    frame of both, which the program cannot use. *)
Definition gdf_getitem (g : GeoDataFrame G) (name : string)
  : result (list (option string)) :=
  match index_of name (attributes g) with
  | Some i => ok (map (λ r, mjoin (nth_error (cells r) i)) (rows g))
  | None =>
      if String.eqb name (geometry_name g)
      then ok (map (λ r, Some (label (geometry r))) (rows g))
      else raise KeyError
  end.

(** The cell of row [r] in the column [name]. *)
Definition gdf_cell (g : GeoDataFrame G) (r : GeoRow G) (name : string)
  : option string :=
  match index_of name (attributes g) with
  | Some i => mjoin (nth_error (cells r) i)
  | None =>
      if String.eqb name (geometry_name g) then Some (label (geometry r)) else None
  end.

(** [gdf[gdf[name] == label]]: the rows whose cell in the column
    [name] is the string [label]. No geometry compares equal to a
    string, so the geometry column selects no row. *)
Definition where_eq (g : GeoDataFrame G) (name label : string)
  : result (GeoDataFrame G) :=
  match index_of name (attributes g) with
  | Some i =>
      ok {| crs := crs g; geometry_name := geometry_name g;
            attributes := attributes g;
            rows := List.filter
                      (λ r, match mjoin (nth_error (cells r) i) with
                            | Some v => String.eqb v label
                            | None => false
                            end) (rows g) |}
  | None =>
      if String.eqb name (geometry_name g)
      then ok {| crs := crs g; geometry_name := geometry_name g;
                 attributes := attributes g; rows := [] |}
      else raise KeyError
  end.

(** [gdf.area.sum()] *)
Definition area_sum (g : GeoDataFrame G) : float :=
  Float.nansum (map (λ r, area (geometry r)) (rows g)).

(** [gdf.clip(mask)] with a frame as mask: the rows whose geometry
    intersects the union of the mask's geometries, each cut down to
    that union. The rows are kept in the order of [gdf]. *)
Definition clip (gdf mask : GeoDataFrame G) : GeoDataFrame G :=
  let m := union_all (map geometry (rows mask)) in
  {| crs := crs gdf; geometry_name := geometry_name gdf;
     attributes := attributes gdf;
     rows := map (λ r, {| cells := cells r; geometry := intersection (geometry r) m |})
                 (List.filter (λ r, intersects (geometry r) m) (rows gdf)) |}.

(** [gdf.to_crs(target)]: a reprojected copy; a frame without a
    coordinate reference cannot be transformed. *)
Definition to_crs (g : GeoDataFrame G) (target : option string)
  : result (GeoDataFrame G) :=
  match crs g, target with
  | Some src, Some dst =>
      if String.eqb src dst then ok g
      else
        ok {| crs := Some dst; geometry_name := geometry_name g;
              attributes := attributes g;
              rows := map (λ r, {| cells := cells r;
                                   geometry := transform src dst (geometry r) |})
                          (rows g) |}
  | _, _ => raise ValueError
  end.

(** [gpd.GeoDataFrame([row], geometry="geometry", crs=c)] for a row
    that [iterrows()] produced from [parent]. The row carries the
    labels of the columns of [parent], and the call needs the
    geometry among them under the label [geometry]: the frame is built
    as it is for a catchment set whose geometry column has that label,
    which every set read by [gpd.read_file] has. For another label the
    call raises [ValueError]; the properties that exclude a
    [ValueError] assume the label. *)
Definition frame_of_row (parent : GeoDataFrame G) (r : GeoRow G) (c : option string)
  : GeoDataFrame G :=
  {| crs := c; geometry_name := geometry_name parent;
     attributes := attributes parent; rows := [r] |}.

End GeoFrames.

(** ** Output columns and base-map labels, per attribute field *)

Definition kf_categories : list (string * string) :=
  [ ("kf_very_high_perc", "sehr hoch (>1E-2)");
    ("kf_high_perc", "hoch (>1E-3 - 1E-2)");
    ("kf_medium_perc", "mittel (>1E-4 - 1E-3)");
    ("kf_moderate_perc", "mäßig (>1E-5 - 1E-4)");
    ("kf_low_perc", "gering (>1E-7 - 1E-5)");
    ("kf_very_low_perc", "sehr gering (>1E-9 - 1E-7)");
    ("kf_extremely_low_perc", "äußerst gering (<1E-9)");
    ("kf_very_high_to_high_perc", "sehr hoch bis hoch (>1E-3)");
    ("kf_medium_to_moderate_perc", "mittel bis mäßig (>1E-5 - 1E-3)");
    ("kf_low_to_extremely_low_perc", "gering bis äußerst gering (<1E-5)");
    ("kf_highly_variable_perc", "stark variabel");
    ("kf_moderate_to_low_perc", "mäßig bis gering (>1E-6 - 1E-4)");
    ("kf_waterbody_perc", "Gewässer");
    ("kf_no_data_perc", "keine Angaben") ].

Definition ch_categories : list (string * string) :=
  [ ("aquitard_perc", "Grundwasser-Geringleiter");
    ("aquifer_perc", "Grundwasser-Leiter");
    ("aquifer_aquitard_mixed_perc", "Grundwasser-Leiter/Geringleiter");
    ("aquifer_waterbody_perc", "Gewässer");
    ("aquifer_no_data_perc", "keine Angaben") ].

Definition ha_categories : list (string * string) :=
  [ ("cavity_fissure_perc", "Kluft");
    ("cavity_pores_perc", "Poren");
    ("cavity_fissure_karst_perc", "Kluft/Karst");
    ("cavity_fissure_pores_perc", "Kluft/Poren");
    ("cavity_waterbody_perc", "Gewässer");
    ("cavity_no_data_perc", "keine Angaben") ].

Definition vf_categories : list (string * string) :=
  [ ("consolidation_solid_rock_perc", "Festgestein");
    ("consolidation_unconsolidated_rock_perc", "Lockergestein");
    ("consolidation_waterbody_perc", "Gewässer");
    ("consolidation_no_data_perc", "keine Angaben") ].

Definition ga_categories : list (string * string) :=
  [ ("rocktype_sediment_perc", "Sediment");
    ("rocktype_metamorphite_perc", "Metamorphit");
    ("rocktype_magmatite_perc", "Magmatit");
    ("rocktype_waterbody_perc", "Gewässer");
    ("rocktype_no_data_perc", "keine Angaben") ].

Definition gc_categories : list (string * string) :=
  [ ("geochemical_rocktype_silicate_perc", "silikatisch");
    ("geochemical_rocktype_silicate_carbonatic_perc", "silikatisch/karbonatisch");
    ("geochemical_rocktype_carbonatic_perc", "karbonatisch");
    ("geochemical_rocktype_sulfatic_perc", "sulfatisch");
    ("geochemical_rocktype_silicate_organic_components_perc",
     "silikatisch mit organischen Anteilen");
    ("geochemical_rocktype_anthropogenically_modified_through_filling_perc",
     "durch Auffüllung anthropogen verändert");
    ("geochemical_rocktype_sulfatic_halitic_perc", "sulfatisch/halitisch");
    ("geochemical_rocktype_halitic_perc", "halitisch");
    ("geochemical_rocktype_waterbody_perc", "Gewässer");
    ("geochemical_rocktype_no_data_perc", "keine Angaben") ].

(** The kinds of permeability classes, read off a line of
    [kf_categories]: the two sentinels by their output column, a range
    class by a label that joins two classes with "bis" (a column named
    [..._to_..._perc]), a base class by a label with a single interval
    of conductivities, and "stark variabel", which has no interval. *)
Inductive kf_class : Type :=
  | BaseClass
  | RangeClass
  | VariableClass
  | WaterbodyClass
  | NoDataClass.

#[global] Instance kf_class_eq_dec : EqDecision kf_class.
Proof. solve_decision. Defined.

Definition kf_class_of (c : string * string) : kf_class :=
  if contains "waterbody" (fst c) then WaterbodyClass
  else if contains "no_data" (fst c) then NoDataClass
  else if contains " bis " (snd c) then RangeClass
  else if contains "(" (snd c) then BaseClass
  else VariableClass.

Definition kf_count (k : kf_class) : nat :=
  length (List.filter (λ c, bool_decide (kf_class_of c = k)) kf_categories).

(** An attribute field of the base map, with the table of its output
    columns and the prefix its extractor passes to the check. *)
Record extractor : Type := {
  field : string;
  categories : list (string * string);
  prefix : string
}.

Definition kf : extractor :=
  {| field := "kf_bez"; categories := kf_categories; prefix := "kf" |}.
Definition ch : extractor :=
  {| field := "LChar_bez"; categories := ch_categories; prefix := "aqui" |}.
Definition ha : extractor :=
  {| field := "HA_bez"; categories := ha_categories; prefix := "cavity" |}.
Definition vf : extractor :=
  {| field := "VF_bez"; categories := vf_categories; prefix := "consolidation" |}.
Definition ga : extractor :=
  {| field := "GA_bez"; categories := ga_categories; prefix := "rocktype" |}.
Definition gc : extractor :=
  {| field := "GC_bez"; categories := gc_categories; prefix := "geochemical_rocktype" |}.

Definition extractors : list extractor := [kf; ch; ha; vf; ga; gc].

(** ** Reading a result row *)

(** The first row of a frame, as named cells. *)
Definition first_row (d : DataFrame) : list (string * float) :=
  map (λ c, (fst c, nth 0 (snd c) Float.nan)) (data d).

(** [df[[col for col in df.columns if col.startswith(category)]]] *)
Definition prefix_frame (d : DataFrame) (category : string) : DataFrame :=
  {| index := index d;
     data := flat_map (λ n, List.filter (λ x, String.eqb (fst x) n) (data d))
                      (List.filter (λ n, startswith n category) (columns d)) |}.

(** The sum over the cells of a row whose column name starts with
    [category], as [df[[...]].sum(axis=1)] adds them up; the columns
    are found by name, as [df[[...]]] does, and [contiguous] tells
    whether the cells of a row of that frame lie next to each other. *)
Definition prefix_sum (contiguous : bool) (row : list (string * float))
    (category : string) : float :=
  Float.row_sum contiguous
    (map snd
       (flat_map (λ n, List.filter (λ x, String.eqb (fst x) n) row)
                 (List.filter (λ n, startswith n category) (map fst row)))).

(** The cells of the columns whose name contains [key]. *)
Definition cells_named (key : string) (d : DataFrame) : list float :=
  flat_map snd (List.filter (λ c, contains key (fst c)) (data d)).

(** All cells of a list compare equal ([==]) to the first one. *)
Definition agree (l : list float) : bool :=
  match l with
  | [] => false
  | w :: ws => forallb (λ x, Float.eqb x w) ws
  end.

(** The columns of a merged row: the category columns of the six
    fields in the order kf, ch, ha, vf, ga, gc without their waterbody
    and no-data columns, then the two shared columns. *)
Definition merged_columns : list string :=
  List.filter (λ n, negb (contains "waterbody" n || contains "no_data" n))
              (flat_map (λ x, map fst (categories x)) extractors)
  ++ ["waterbody_perc"; "no_data_perc"].

(** A frame of one row with the columns of an extractor. *)
Definition single_row (i : option string) (x : extractor)
    (v : string * string → float) : DataFrame :=
  {| index := [i]; data := map (λ c, (fst c, [v c])) (categories x) |}.

(** The merged row that the loop builds from the six rows of one
    catchment when their waterbody cells agree and their no-data cells
    agree: the remaining category columns, then the shared cells. *)
Definition merged_row (rows6 : list DataFrame) : DataFrame :=
  {| index := match rows6 with d :: _ => index d | [] => [] end;
     data :=
       List.filter (λ c, negb (contains "waterbody" (fst c) || contains "no_data" (fst c)))
                   (flat_map data rows6)
       ++ [ ("waterbody_perc", take 1 (flat_map (cells_named "waterbody") rows6));
            ("no_data_perc", take 1 (flat_map (cells_named "no_data") rows6)) ] |}.

(** [abs(100 - s)] *)
Definition deviation (s : float) : float :=
  Float.abs (Float.sub Float.hundred s).

(** What [assert_almost_equal(s, 100, decimal=1)] accepts: a finite
    [s] with [abs(100 - s) >= 1.5 * 10.0**(-1)] false. *)
Definition almost_100 (s : float) : bool :=
  Float.is_finite s && negb (Float.leb (tolerance 1) (deviation s)).

(** The values that a sum of cells takes when none of the cells is
    finite: [0.0] (no cell counted), an infinity or NaN. *)
Definition degenerate (x : float) : bool :=
  match x with
  | S754_zero false | S754_infinity _ | S754_nan => true
  | _ => false
  end.

(** The double [0.1]. *)
Definition tenth : float := Float.div Float.one (Float.of_Z 10).

(** The frame that the column assignments of an extractor build. *)
Definition percent_columns (n : nat) (cats : list (string * string)) (xs : list float)
  : list (string * list float) :=
  zip_with (λ c x, (fst c, repeat x n)) cats xs.

(** A table of output columns is well formed when no column name occurs
    twice and every name starts with the prefix handed to the check. *)
Definition table_ok (x : extractor) : bool :=
  bool_decide (NoDup (map fst (categories x))) &&
  forallb (λ n, startswith n (prefix x)) (map fst (categories x)).

(** No label of the base map stands for two columns. *)
Definition labels_ok (x : extractor) : bool :=
  bool_decide (NoDup (map snd (categories x))).

(** ** The object store and the monad of the program

    A Python variable holds a reference; the frames live in a store.
    A call either returns a value or raises, and in both cases leaves a
    store behind. *)

Abbreviation loc := positive.

Inductive object (G : Type) : Type :=
  | OGeo (g : GeoDataFrame G)
  | OFrame (d : DataFrame).
Arguments OGeo {G} _.
Arguments OFrame {G} _.

Section Program.
Context {G : Type} `{Geometry G}.

Abbreviation store := (gmap loc (object G)).

Definition M (A : Type) : Type := store → result A * store.

#[global] Instance M_ret : MRet M := λ A a σ, (ok a, σ).

#[global] Instance M_bind : MBind M := λ A B f m σ,
  match m σ with
  | (inr a, σ') => f a σ'
  | (inl e, σ') => (inl e, σ')
  end.

(** A pure computation that may raise. *)
Definition lift {A} (r : result A) : M A := λ σ, (r, σ).

(** [assert b] *)
Definition assert (b : bool) : M unit :=
  lift (if b then ok tt else raise AssertionError).

(** A new object, at a reference that is not in use. *)
Definition alloc (o : object G) : M loc := λ σ,
  let l := fresh (dom σ) in (ok l, <[l := o]> σ).

Definition load_geo (l : loc) : M (GeoDataFrame G) := λ σ,
  match σ !! l with
  | Some (OGeo g) => (ok g, σ)
  | _ => (raise TypeError, σ)
  end.

Definition load_frame (l : loc) : M DataFrame := λ σ,
  match σ !! l with
  | Some (OFrame d) => (ok d, σ)
  | _ => (raise TypeError, σ)
  end.

(** Overwrite the object behind a reference: what an [inplace=True]
    operation or an item assignment does to its receiver. *)
Definition overwrite (l : loc) (d : DataFrame) : M unit := λ σ,
  (ok tt, <[l := OFrame d]> σ).

Definition update_frame (l : loc) (f : DataFrame → result DataFrame) : M unit :=
  d ← load_frame l; d' ← lift (f d); overwrite l d'.

Fixpoint for_each {A S : Type} (l : list A) (body : S → A → M S) (s : S) : M S :=
  match l with
  | [] => mret s
  | a :: l' => s' ← body s a; for_each l' body s'
  end.

(** *** The library calls of the program, on references *)

(** [pd.DataFrame()] *)
Definition DataFrame_new : M loc := alloc (OFrame empty_frame).

(** [gdf.clip(mask)]: a new frame, the receiver is copied. *)
Definition gdf_clip (gdf mask : loc) : M loc :=
  g ← load_geo gdf; m ← load_geo mask; alloc (OGeo (clip g m)).

(** [df["gauge_id"] = catchment[id_field_name]] followed by
    [df.set_index("gauge_id", inplace=True)], on the frame that
    [pd.DataFrame()] has just created: the frame takes the cells of the
    identifier column as its index and keeps no column. *)
Definition set_gauge_index (df catchment : loc) (id_field_name : string) : M unit :=
  c ← load_geo catchment;
  ids ← lift (gdf_getitem c id_field_name);
  update_frame df (λ d, ok {| index := ids; data := [] |}).

(** [(clipped[clipped[field] == label].area.sum() / clipped.area.sum()) * 100] *)
Definition area_percentage (clipped : loc) (field label : string) : M float :=
  g ← load_geo clipped;
  part ← lift (where_eq g field label);
  mret (Float.mul (Float.div (area_sum part) (area_sum g)) Float.hundred).

(** [df[col] = x] *)
Definition df_setitem (df : loc) (col : string) (x : float) : M unit :=
  update_frame df (λ d, ok (setitem_scalar d col x)).

(** [pd.concat(frames, axis=1)] *)
Definition pd_concat_axis1 (frames : list loc) : M loc :=
  ds ← for_each frames (λ acc l, d ← load_frame l; mret (acc ++ [d])) [];
  d ← lift (concat_axis1 ds);
  alloc (OFrame d).

(** [pd.concat([a, b], axis=0)] *)
Definition pd_concat_axis0 (a b : loc) : M loc :=
  da ← load_frame a; db ← load_frame b; alloc (OFrame (concat_axis0 da db)).

(** [gdf.to_crs(other.crs)] *)
Definition gdf_to_crs (gdf other : loc) : M loc :=
  g ← load_geo gdf; o ← load_geo other;
  g' ← lift (to_crs g (crs o));
  alloc (OGeo g').

(** [df.round(decimals)] *)
Definition df_round (df : loc) (decimals : nat) : M loc :=
  d ← load_frame df; alloc (OFrame (round_frame decimals d)).

(** ** The functions of [extract_functions.py] *)

(** [check_extracted_values(df, category)] *)
Definition check_extracted_values (df : loc) (category : string) : M unit :=
  d ← load_frame df;
  sub ← lift (select d (List.filter (λ col, startswith col category) (columns d)));
  sum_category ← lift (iloc0 (sum_axis1 sub));
  lift (assert_almost_equal sum_category Float.hundred 1).

(** The six extractors are one function body written out six times, with
    a different attribute field, a different table of output columns and
    labels, and a different prefix handed to the check. *)
Definition extract_from_huek (field : string) (categories : list (string * string))
    (prefix : string) (huek catchment : loc) (id_field_name : string) : M loc :=
  clipped ← gdf_clip huek catchment;
  df ← DataFrame_new;
  set_gauge_index df catchment id_field_name;;
  for_each categories
    (λ _ c, x ← area_percentage clipped field (snd c); df_setitem df (fst c) x) tt;;
  check_extracted_values df prefix;;
  mret df.

Definition extract (x : extractor) : loc → loc → string → M loc :=
  extract_from_huek (field x) (categories x) (prefix x).

Definition extract_kf_from_huek : loc → loc → string → M loc := extract kf.
Definition extract_ch_from_huek : loc → loc → string → M loc := extract ch.
Definition extract_ha_from_huek : loc → loc → string → M loc := extract ha.
Definition extract_vf_from_huek : loc → loc → string → M loc := extract vf.
Definition extract_ga_from_huek : loc → loc → string → M loc := extract ga.
Definition extract_gc_from_huek : loc → loc → string → M loc := extract gc.

(** The two reconciliation blocks of the loop, for [key = "waterbody"]
    and for [key = "no_data"]:
    [cols = [col for col in df.columns if key in col]],
    [assert len(set(df[cols].values.flatten().tolist())) == 1],
    [df[key + "_perc"] = df[cols[0]]] and
    [df.drop(cols, axis=1, inplace=True)]. *)
Definition collapse (df : loc) (key target : string) : M unit :=
  d ← load_frame df;
  let cols := List.filter (contains key) (columns d) in
  sub ← lift (select d cols);
  assert (Nat.eqb (length (py_set (values_flatten sub))) 1);;
  c0 ← lift (iloc0 cols);
  d ← load_frame df;
  shared ← lift (of_option KeyError (getitem d c0));
  update_frame df (λ d, ok (setitem d target shared));;
  update_frame df (λ d, drop d cols).

(** The body of the loop over the catchments: [row] is the row that
    [iterrows()] yields, [df_all] the table accumulated so far; the
    result is the reference that [df_all] is rebound to. *)
Definition loop_body (huek catchments : loc) (id_field_name : string)
    (df_all : loc) (row : GeoRow G) : M loc :=
  h ← load_geo huek;
  parent ← load_geo catchments;
  catchment ← alloc (OGeo (frame_of_row parent row (crs h)));
  df_ch ← extract_ch_from_huek huek catchment id_field_name;
  df_kf ← extract_kf_from_huek huek catchment id_field_name;
  df_ha ← extract_ha_from_huek huek catchment id_field_name;
  df_ga ← extract_ga_from_huek huek catchment id_field_name;
  df_vf ← extract_vf_from_huek huek catchment id_field_name;
  df_gc ← extract_gc_from_huek huek catchment id_field_name;
  df ← pd_concat_axis1 [df_kf; df_ch; df_ha; df_vf; df_ga; df_gc];
  collapse df "waterbody" "waterbody_perc";;
  collapse df "no_data" "no_data_perc";;
  pd_concat_axis0 df_all df.

(** [extract_hydrogeology_attributes_huek(huek, catchments, id_field_name)] *)
Definition extract_hydrogeology_attributes_huek
    (huek catchments : loc) (id_field_name : string) : M loc :=
  catchments ← gdf_to_crs catchments huek;
  df_all ← DataFrame_new;
  c ← load_geo catchments;
  df_all ← for_each (rows c) (loop_body huek catchments id_field_name) df_all;
  df_round df_all 2.

(** ** What the functions compute, on frame values

    The functions below describe the result of each Python function as
    a function of the frames behind its arguments. They are proved
    against the monadic code in the next section. *)

(** One percentage cell. *)
Definition percentage (clipped : GeoDataFrame G) (field label : string) : result float :=
  rbind (where_eq clipped field label) (λ part,
  ok (Float.mul (Float.div (area_sum part) (area_sum clipped)) Float.hundred)).

(** The same cell as a total function: NaN where the field is missing. *)
Definition share (clipped : GeoDataFrame G) (field label : string) : float :=
  match percentage clipped field label with
  | inr x => x
  | inl _ => Float.nan
  end.

(** The column assignments of an extractor, one after the other. *)
Fixpoint filled (clipped : GeoDataFrame G) (field : string)
    (cats : list (string * string)) (d : DataFrame) : result DataFrame :=
  match cats with
  | [] => ok d
  | c :: cats' =>
      rbind (percentage clipped field (snd c)) (λ x,
      filled clipped field cats' (setitem_scalar d (fst c) x))
  end.

(** The number that [check_extracted_values] compares with 100. *)
Definition sum_category (d : DataFrame) (category : string) : result float :=
  rbind (select d (List.filter (λ col, startswith col category) (columns d))) (λ sub,
  iloc0 (sum_axis1 sub)).

Definition checked (d : DataFrame) (category : string) : result unit :=
  rbind (sum_category d category) (λ s, assert_almost_equal s Float.hundred 1).

(** The frame an extractor returns, or the exception it raises. *)
Definition extracted (x : extractor) (huek catchment : GeoDataFrame G)
    (id_field_name : string) : result DataFrame :=
  rbind (gdf_getitem catchment id_field_name) (λ ids,
  rbind (filled (clip huek catchment) (field x) (categories x)
                {| index := ids; data := [] |}) (λ d,
  rbind (checked d (prefix x)) (λ _, ok d))).

(** One reconciliation block of the loop. *)
Definition collapsed (d : DataFrame) (key target : string) : result DataFrame :=
  let cols := List.filter (contains key) (columns d) in
  rbind (select d cols) (λ sub,
  rbind (if Nat.eqb (length (py_set (values_flatten sub))) 1
         then ok tt else raise AssertionError) (λ _,
  rbind (iloc0 cols) (λ c0,
  rbind (of_option KeyError (getitem d c0)) (λ shared,
  drop (setitem d target shared) cols)))).

(** The merged row of one catchment. The extractors run in the order of
    the source (ch, kf, ha, ga, vf, gc), their frames are concatenated
    in the order kf, ch, ha, vf, ga, gc. *)
Definition merged (huek catchment : GeoDataFrame G) (id_field_name : string)
  : result DataFrame :=
  rbind (extracted ch huek catchment id_field_name) (λ d_ch,
  rbind (extracted kf huek catchment id_field_name) (λ d_kf,
  rbind (extracted ha huek catchment id_field_name) (λ d_ha,
  rbind (extracted ga huek catchment id_field_name) (λ d_ga,
  rbind (extracted vf huek catchment id_field_name) (λ d_vf,
  rbind (extracted gc huek catchment id_field_name) (λ d_gc,
  rbind (concat_axis1 [d_kf; d_ch; d_ha; d_vf; d_ga; d_gc]) (λ d,
  rbind (collapsed d "waterbody" "waterbody_perc") (λ d,
  collapsed d "no_data" "no_data_perc")))))))).

(** The single-row frame the loop builds for a row of the reprojected
    catchments. *)
Definition catchment_of (huek catchments : GeoDataFrame G) (r : GeoRow G)
  : GeoDataFrame G :=
  frame_of_row catchments r (crs huek).

(** The table accumulated over a list of catchment rows. *)
Fixpoint accumulated (huek catchments : GeoDataFrame G) (id_field_name : string)
    (rs : list (GeoRow G)) (df_all : DataFrame) : result DataFrame :=
  match rs with
  | [] => ok df_all
  | r :: rs' =>
      rbind (merged huek (catchment_of huek catchments r) id_field_name) (λ d,
      accumulated huek catchments id_field_name rs' (concat_axis0 df_all d))
  end.

(** The output table. *)
Definition table (huek catchments : GeoDataFrame G) (id_field_name : string)
  : result DataFrame :=
  rbind (to_crs catchments (crs huek)) (λ cs,
  rbind (accumulated huek cs id_field_name (rows cs) empty_frame) (λ t,
  ok (round_frame 2 t))).

(** ** Reasoning about calls

    [wp m σ Q]: running [m] in the store [σ] ends, with a value or an
    exception, in an outcome and a store that satisfy [Q]. *)

Definition wp {A} (m : M A) (σ : store) (Q : result A → store → Prop) : Prop :=
  Q (m σ).1 (m σ).2.

(** A call that builds a frame: the store only grows, and the call
    returns a reference that was not in use to the frame [d], or raises
    [e], according to the value-level result. *)
Definition returns (m : M loc) (σ : store) (r : result DataFrame) : Prop :=
  wp m σ (λ out σ',
    σ ⊆ σ' ∧
    match r, out with
    | inr d, inr l => σ !! l = None ∧ σ' !! l = Some (OFrame d)
    | inl e, inl e' => e = e'
    | _, _ => False
    end).

End Program.

(** ** Numbers: what rounding can return *)

Lemma shr_1_nonneg (mrs : shr_record) : (0 ≤ shr_m mrs)%Z → (0 ≤ shr_m (shr_1 mrs))%Z.
Proof. destruct mrs as [[|[p|p|]|p] r s]; simpl; lia. Qed.

Lemma iter_pos_shr_1_nonneg (p : positive) :
  ∀ mrs, (0 ≤ shr_m mrs)%Z → (0 ≤ shr_m (SpecFloat.iter_pos shr_1 p mrs))%Z.
Proof.
  induction p as [p IH|p IH|]; intros mrs Hm; simpl.
  - by apply IH, IH, shr_1_nonneg.
  - by apply IH, IH.
  - by apply shr_1_nonneg.
Qed.

Lemma shr_fexp_nonneg (m e : Z) (l : location) :
  (0 ≤ m)%Z → (0 ≤ shr_m (fst (shr_fexp Float.prec Float.emax m e l)))%Z.
Proof.
  intros Hm. unfold shr_fexp, shr.
  assert (0 ≤ shr_m (shr_record_of_loc m l))%Z as Hrec
    by (destruct l as [|[]]; exact Hm).
  destruct (_ - e)%Z; simpl; [done| |done]. by apply iter_pos_shr_1_nonneg.
Qed.

Lemma round_nearest_even_nonneg (m : Z) (l : location) :
  (0 ≤ m)%Z → (0 ≤ round_nearest_even m l)%Z.
Proof.
  intros Hm. destruct l as [|[]]; simpl; try lia. destruct (Z.even m); lia.
Qed.

(** Rounding a non-negative mantissa never yields NaN. *)
Lemma binary_round_aux_not_nan (s : bool) (m e : Z) (l : location) :
  (0 ≤ m)%Z → Float.is_nan (binary_round_aux Float.prec Float.emax s m e l) = false.
Proof.
  intros Hm. unfold binary_round_aux.
  pose proof (shr_fexp_nonneg m e l Hm) as H1.
  destruct (shr_fexp Float.prec Float.emax m e l) as [mrs' e']. simpl in H1.
  pose proof (shr_fexp_nonneg _ e' loc_Exact
                (round_nearest_even_nonneg _ (loc_of_shr_record mrs') H1)) as H2.
  destruct (shr_fexp _ _ (round_nearest_even _ _) e' loc_Exact) as [mrs'' e''].
  simpl in H2. destruct (shr_m mrs'') as [|p|p]; [done| |lia].
  by destruct (_ <=? _)%Z.
Qed.

Lemma binary_normalize_not_nan (m e : Z) (b : bool) :
  Float.is_nan (binary_normalize Float.prec Float.emax m e b) = false.
Proof.
  unfold binary_normalize, binary_round.
  destruct m as [|p|p]; [done| |];
    destruct (shl_align _ _ _) as [mz ez]; by apply binary_round_aux_not_nan.
Qed.

(** Rounding a non-negative mantissa keeps the sign it is given. *)
Lemma binary_round_aux_signbit (s : bool) (m e : Z) (l : location) :
  (0 ≤ m)%Z → Float.signbit (binary_round_aux Float.prec Float.emax s m e l) = s.
Proof.
  intros Hm. unfold binary_round_aux.
  pose proof (shr_fexp_nonneg m e l Hm) as H1.
  destruct (shr_fexp Float.prec Float.emax m e l) as [mrs' e']. simpl in H1.
  pose proof (shr_fexp_nonneg _ e' loc_Exact
                (round_nearest_even_nonneg _ (loc_of_shr_record mrs') H1)) as H2.
  destruct (shr_fexp _ _ (round_nearest_even _ _) e' loc_Exact) as [mrs'' e''].
  simpl in H2. destruct (shr_m mrs'') as [|p|p]; [done| |lia].
  by destruct (_ <=? _)%Z.
Qed.

Lemma of_Z_signbit (z : Z) : (0 ≤ z)%Z → Float.signbit (Float.of_Z z) = false.
Proof.
  intros Hz. unfold Float.of_Z, Float.of_bits, binary_normalize, binary_round.
  destruct z as [|p|p]; [done| |lia].
  destruct (shl_align _ _ _) as [mz ez]. by apply binary_round_aux_signbit.
Qed.

(** ** A concrete geometry: regions of a grid

    For examples, a geometry is the list of unit cells of a grid that
    it covers, the area is the number of cells, and reprojection leaves
    the cells where they are. *)

#[global] Instance grid_geometry : Geometry (list N) := {|
  area g := Float.of_Z (Z.of_nat (length g));
  intersects a b := existsb (λ x, existsb (N.eqb x) b) a;
  intersection a b := List.filter (λ x, existsb (N.eqb x) b) a;
  union_all gs :=
    fold_left (λ acc g, acc ++ List.filter (λ x, negb (existsb (N.eqb x) acc)) g) gs [];
  transform _ _ g := g;
  label g := "CELLS (" +:+ foldr (λ n s, pretty n +:+ " " +:+ s) ")" g;
  area_not_negative a b := of_Z_signbit _ (Zle_0_nat _)
|}.

(** The cells [start, start + 1, ..., start + len - 1]. *)
Definition span (start len : nat) : list N := map N.of_nat (seq start len).

Definition huek_attributes : list string :=
  ["kf_bez"; "LChar_bez"; "HA_bez"; "VF_bez"; "GA_bez"; "GC_bez"].

(** A base-map polygon: its six labels and the cells it covers. *)
Definition polygon (kf ch ha vf ga gc : string) (g : list N) : GeoRow (list N) :=
  {| cells := map Some [kf; ch; ha; vf; ga; gc]; geometry := g |}.

Definition gauge (id : string) (g : list N) : GeoRow (list N) :=
  {| cells := [Some id]; geometry := g |}.

Definition gauges (rs : list (GeoRow (list N))) : GeoDataFrame (list N) :=
  {| crs := Some "EPSG:4326"; geometry_name := "geometry";
     attributes := ["gauge_id"]; rows := rs |}.

Definition base_map (rs : list (GeoRow (list N))) : GeoDataFrame (list N) :=
  {| crs := Some "EPSG:25832"; geometry_name := "geometry";
     attributes := huek_attributes; rows := rs |}.

(** The store of a caller that holds a base map at reference 1 and a
    catchment set at reference 2. *)
Definition caller (h c : GeoDataFrame (list N)) : gmap loc (object (list N)) :=
  <[1%positive := OGeo h]> (<[2%positive := OGeo c]> ∅).

(** The end-to-end scenario: polygon A, 60% of the catchment, very
    high permeability; polygon B, 40%, waterbody. *)
Definition scenario_map : GeoDataFrame (list N) :=
  base_map
    [ polygon "sehr hoch (>1E-2)" "Grundwasser-Leiter" "Poren" "Lockergestein"
              "Sediment" "silikatisch" (span 0 6);
      polygon "Gewässer" "Gewässer" "Gewässer" "Gewässer" "Gewässer" "Gewässer"
              (span 6 4) ].

Definition scenario_gauges : GeoDataFrame (list N) :=
  gauges [gauge "DE1" (span 0 10)].

(** A catchment inside polygon A, and one that the base map does not
    cover at all. *)
Definition contained_gauges : GeoDataFrame (list N) :=
  gauges [gauge "DE2" (span 1 4)].

Definition uncovered_gauges : GeoDataFrame (list N) :=
  gauges [gauge "DE1" (span 0 10); gauge "DE9" (span 50 5)].

Definition nowhere_gauges : GeoDataFrame (list N) :=
  gauges [gauge "DE9" (span 50 5)].

(** A catchment set in the coordinate reference of the base map; on the
    grid, reprojection moves no cell. *)
Definition reprojected (c : GeoDataFrame (list N)) : GeoDataFrame (list N) :=
  {| crs := Some "EPSG:25832"; geometry_name := geometry_name c;
     attributes := attributes c; rows := rows c |}.

(** The store in the middle of the loop: the caller's objects, the
    reprojected catchments at reference 3 and the table accumulated so
    far, here empty, at reference 4. *)
Definition loop_store (h c : GeoDataFrame (list N)) : gmap loc (object (list N)) :=
  <[4%positive := OFrame empty_frame]>
    (<[3%positive := OGeo (reprojected c)]> (caller h c)).

(** The row of an extractor, where it returns one. *)
Definition row_of (x : extractor) (h c : GeoDataFrame (list N)) (id : string)
  : DataFrame :=
  match extracted x h c id with
  | inr d => d
  | inl _ => empty_frame
  end.

(** A base map and two catchments on which rounding shows: one third
    of the first catchment has a very high permeability and two thirds
    are waterbody; the second catchment is half and half. *)
Definition thirds_map : GeoDataFrame (list N) :=
  base_map
    [ polygon "sehr hoch (>1E-2)" "Grundwasser-Leiter" "Poren" "Lockergestein"
              "Sediment" "silikatisch" (span 0 1);
      polygon "Gewässer" "Gewässer" "Gewässer" "Gewässer" "Gewässer" "Gewässer"
              (span 1 2) ].

Definition thirds_gauges : GeoDataFrame (list N) :=
  gauges [gauge "DE1" (span 0 3); gauge "DE2" (span 0 2)].

(** Two catchments, as in the second end-to-end scenario. *)
Definition two_gauges : GeoDataFrame (list N) :=
  gauges [gauge "DE1" (span 0 10); gauge "DE2" (span 3 3)].

(** A base map on which one polygon in 800 cells carries a label that
    is not in the vocabulary of any field. *)
Definition unlabelled_map : GeoDataFrame (list N) :=
  base_map
    [ polygon "Gewässer" "Gewässer" "Gewässer" "Gewässer" "Gewässer" "Gewässer"
              (span 0 799);
      polygon "unbekannt" "unbekannt" "unbekannt" "unbekannt" "unbekannt"
              "unbekannt" (span 799 1) ].

Definition unlabelled_gauges : GeoDataFrame (list N) :=
  gauges [gauge "DE1" (span 0 800)].

(** The permeability row of that catchment: 799 cells in 800 are
    waterbody, which is 99.875 percent. *)
Definition unlabelled_kf_row : DataFrame :=
  {| index := [Some "DE1"];
     data := map (λ c, (fst c, [if String.eqb (snd c) "Gewässer"
                                then Float.of_bits 799 (-3) else Float.zero]))
                 kf_categories |}.

(** A frame of two rows whose first row sums to 100 over the [kf]
    columns and whose second row does not. *)
Definition two_rows : DataFrame :=
  {| index := [Some "DE1"; Some "DE2"];
     data := [ ("kf_high_perc", [Float.of_Z 60; Float.of_Z 1]);
               ("kf_low_perc", [Float.of_Z 40; Float.of_Z 2]);
               ("other", [Float.of_Z 7; Float.of_Z 7]) ] |}.

(** ** A second concrete geometry: stretches of a line

    A geometry is a closed stretch of a line, its area is its length.
    Two stretches that share an end point intersect, in a point, which
    has no length: the way two neighbouring polygons meet in their
    common boundary. *)

Record stretch : Type := { low : Z; high : Z }.

#[global] Instance line_geometry : Geometry stretch := {|
  area g := Float.of_Z (Z.max 0 (high g - low g));
  intersects a b := (Z.max (low a) (low b) <=? Z.min (high a) (high b))%Z;
  intersection a b :=
    {| low := Z.max (low a) (low b); high := Z.min (high a) (high b) |};
  union_all gs :=
    match gs with
    | [] => {| low := 0; high := -1 |}
    | g :: gs' =>
        fold_left (λ acc g', {| low := Z.min (low acc) (low g');
                                high := Z.max (high acc) (high g') |}) gs' g
    end;
  transform _ _ g := g;
  label g := "LINESTRING (" +:+ pretty (low g) +:+ " 0, " +:+ pretty (high g) +:+ " 0)";
  area_not_negative a b := of_Z_signbit _ (Z.le_max_l _ _)
|}.

(** A base map of two stretches that meet in the point 10, and a
    catchment within the first that reaches up to that point. *)
Definition touching_map : GeoDataFrame stretch :=
  {| crs := Some "EPSG:25832"; geometry_name := "geometry";
     attributes := huek_attributes;
     rows :=
       [ {| cells := map Some ["sehr hoch (>1E-2)"; "Grundwasser-Leiter"; "Poren";
                               "Lockergestein"; "Sediment"; "silikatisch"];
            geometry := {| low := 0; high := 10 |} |};
         {| cells := map Some ["Gewässer"; "Gewässer"; "Gewässer"; "Gewässer";
                               "Gewässer"; "Gewässer"];
            geometry := {| low := 10; high := 20 |} |} ] |}.

Definition touching_gauges : GeoDataFrame stretch :=
  {| crs := Some "EPSG:25832"; geometry_name := "geometry";
     attributes := ["gauge_id"];
     rows := [ {| cells := [Some "DE3"]; geometry := {| low := 2; high := 10 |} |} ] |}.

Definition touching_caller : gmap loc (object stretch) :=
  <[1%positive := OGeo touching_map]> (<[2%positive := OGeo touching_gauges]> ∅).

(** Eight cells that add up to 100 in pairs and to 0 one after the
    other: [1 + 99] is lost next to [2^60]. *)
Definition cancelling_cells : list float :=
  [ Float.of_Z 1; Float.of_Z 99; Float.zero; Float.zero;
    Float.of_bits 1 60; Float.of_Z (- 2 ^ 60); Float.zero; Float.zero ].

(** A frame of one row that holds these cells in eight [kf] columns,
    and a frame of two rows with the same first row. *)
Definition one_row_of_eight : DataFrame :=
  {| index := [Some "DE1"];
     data := zip_with (λ n x, (n, [x])) (take 8 (map fst kf_categories))
                      cancelling_cells |}.

Definition two_rows_of_eight : DataFrame :=
  {| index := [Some "DE1"; Some "DE2"];
     data := zip_with (λ n x, (n, [x; Float.zero])) (take 8 (map fst kf_categories))
                      cancelling_cells |}.

(** A frame with the first row of [two_rows] and another second row. *)
Definition two_rows_other : DataFrame :=
  {| index := [Some "DE1"; Some "DE7"];
     data := [ ("kf_high_perc", [Float.of_Z 60; Float.of_Z 1000]);
               ("kf_low_perc", [Float.of_Z 40; Float.of_Z (-5)]);
               ("other", [Float.of_Z 7; Float.zero]) ] |}.

(** * Properties *)

(** ** Numbers *)

Lemma div_eucl_mul_l (a b : Z) : (0 < b)%Z → Z.div_eucl (b * a) b = (a, 0%Z).
Proof.
  intros Hb. pose proof (Z.div_eucl_eq (b * a) b ltac:(lia)) as Heq.
  pose proof (Z.mod_pos_bound (b * a) b Hb) as Hbound.
  unfold Z.modulo in Hbound.
  destruct (Z.div_eucl (b * a) b) as [q r].
  assert (q = a) by nia. subst. f_equal. lia.
Qed.

(** A finite non-zero double divided by itself is exactly [1.0]. *)
Lemma div_self (s : bool) (m : positive) (e : Z) :
  Float.div (S754_finite s m e) (S754_finite s m e) = Float.one.
Proof.
  unfold Float.div, SFdiv, SFdiv_core_binary.
  rewrite Z.sub_diag, Z.sub_diag.
  change (Z.min (fexp Float.prec Float.emax 0) 0) with (-53)%Z.
  change (0 - -53)%Z with 53%Z. cbv beta iota zeta.
  rewrite Z.shiftl_mul_pow2 by lia.
  replace (IntDef.Z.div_eucl (Z.pos m * 2 ^ 53) (Z.pos m)) with ((2 ^ 53)%Z, 0%Z)
    by (symmetry; apply div_eucl_mul_l; lia).
  rewrite xorb_nilpotent.
  unfold new_location. destruct (Z.even (Z.pos m)); reflexivity.
Qed.

Lemma assert_almost_equal_hundred (s : float) :
  assert_almost_equal s Float.hundred 1 =
  if almost_100 s then ok tt else raise AssertionError.
Proof.
  unfold assert_almost_equal, almost_100, deviation.
  destruct s as [[]|[]| |]; try reflexivity;
    simpl; destruct (Float.leb _ _); reflexivity.
Qed.

(** ** Numbers: sums

    The sums of the program are taken in the order that numpy picks.
    What they have in common is collected in a relation: [summed l s]
    when [s] is the result of adding the numbers of [l], each once, in
    some order and some grouping, possibly from [0.0]. *)

Inductive summed : list float → float → Prop :=
  | summed_nil : summed [] Float.zero
  | summed_one x : summed [x] x
  | summed_add l1 l2 s1 s2 :
      summed l1 s1 → summed l2 s2 → summed (l1 ++ l2) (Float.add s1 s2)
  | summed_perm l l' s : l ≡ₚ l' → summed l s → summed l' s.

Lemma summed_fold (l : list float) :
  ∀ l0 acc, summed l0 acc → summed (l0 ++ l) (fold_left Float.add l acc).
Proof.
  induction l as [|x l IH]; intros l0 acc Hacc; simpl.
  - by rewrite app_nil_r.
  - replace (l0 ++ x :: l) with ((l0 ++ [x]) ++ l) by by rewrite <- app_assoc.
    apply IH. apply summed_add; [done|constructor].
Qed.

Lemma summed_sequential (l : list float) : summed l (Float.sum_sequential l).
Proof. apply (summed_fold l [] Float.zero). constructor. Qed.

Lemma summed_zip (ls : list (list float)) (r c : list float) :
  Forall2 summed ls r → length c = length r →
  Forall2 summed (zip_with (λ l x, l ++ [x]) ls c) (zip_with Float.add r c) ∧
  concat (zip_with (λ l x, l ++ [x]) ls c) ≡ₚ concat ls ++ c.
Proof.
  intros Hall. revert c. induction Hall as [|l s ls r Hs _ IH]; intros [|x c] Hlen;
    simpl in *; try done.
  injection Hlen as Hlen. destruct (IH c Hlen) as [Hsum Hperm]. split.
  - constructor; [|done]. apply summed_add; [done|constructor].
  - rewrite Hperm. rewrite <- !app_assoc. f_equiv. simpl.
    by rewrite Permutation_middle.
Qed.

Lemma summed_unrolled (l : list float) :
  ∀ (ls : list (list float)) (r : list float),
  Forall2 summed ls r → length r = 8 →
  ∃ ls', Forall2 summed ls' (fst (Float.unrolled r l)) ∧
         length (fst (Float.unrolled r l)) = 8 ∧
         concat ls' ++ snd (Float.unrolled r l) ≡ₚ concat ls ++ l.
Proof.
  induction l as [l IH] using (induction_ltof1 _ (@length float)).
  intros ls r Hall Hlen. unfold ltof in IH.
  destruct l as [|a0 [|a1 [|a2 [|a3 [|a4 [|a5 [|a6 [|a7 l']]]]]]]];
    try (exists ls; by simpl).
  cbn [Float.unrolled].
  destruct (summed_zip ls r [a0; a1; a2; a3; a4; a5; a6; a7] Hall) as [Hsum Hperm];
    [by rewrite Hlen|].
  destruct (IH l' ltac:(simpl; lia) _ _ Hsum) as (ls' & Hall' & Hlen' & Hperm').
  { rewrite length_zip_with. simpl. lia. }
  exists ls'. split; [done|]. split; [done|].
  rewrite Hperm', Hperm. by rewrite <- app_assoc.
Qed.

Lemma summed_accumulated8 (ls : list (list float)) (r : list float) :
  Forall2 summed ls r → length r = 8 → summed (concat ls) (Float.accumulated8 r).
Proof.
  intros Hall Hlen.
  destruct Hall as [|l0 r0 ? ? H0 Hall]; [done|].
  destruct Hall as [|l1 r1 ? ? H1 Hall]; [done|].
  destruct Hall as [|l2 r2 ? ? H2 Hall]; [done|].
  destruct Hall as [|l3 r3 ? ? H3 Hall]; [done|].
  destruct Hall as [|l4 r4 ? ? H4 Hall]; [done|].
  destruct Hall as [|l5 r5 ? ? H5 Hall]; [done|].
  destruct Hall as [|l6 r6 ? ? H6 Hall]; [done|].
  destruct Hall as [|l7 r7 ? ? H7 Hall]; [done|].
  destruct Hall; [|done]. simpl. rewrite app_nil_r.
  apply (summed_perm (((l0 ++ l1) ++ (l2 ++ l3)) ++ ((l4 ++ l5) ++ (l6 ++ l7)))).
  - by rewrite <- !app_assoc.
  - repeat apply summed_add; done.
Qed.

Lemma summed_block (l : list float) : (8 ≤ length l)%nat → summed l (Float.sum_block l).
Proof.
  intros Hlen. unfold Float.sum_block.
  destruct (summed_unrolled (skipn 8 l) (map (λ x, [x]) (firstn 8 l)) (firstn 8 l))
    as (ls' & Hall & Hlen' & Hperm).
  { apply Forall2_fmap_l, Forall_Forall2_diag, Forall_forall. intros x _. constructor. }
  { rewrite length_firstn. lia. }
  destruct (Float.unrolled (firstn 8 l) (skipn 8 l)) as [r rest]. simpl in *.
  apply (summed_perm (concat ls' ++ rest)).
  - rewrite Hperm. rewrite <- (firstn_skipn 8 l) at 3. f_equiv.
    clear. induction (firstn 8 l) as [|x xs IH]; [done|]. simpl. by rewrite IH.
  - apply summed_fold. by apply summed_accumulated8.
Qed.

Lemma summed_pairwise (depth : nat) : ∀ l, summed l (Float.pairwise depth l).
Proof.
  induction depth as [|depth IH]; intros l; cbn [Float.pairwise].
  - destruct (length l <? 8)%nat eqn:H8; [apply summed_sequential|].
    apply Nat.ltb_ge in H8. destruct (length l <=? 128)%nat; by apply summed_block.
  - destruct (length l <? 8)%nat eqn:H8; [apply summed_sequential|].
    apply Nat.ltb_ge in H8. destruct (length l <=? 128)%nat; [by apply summed_block|].
    rewrite <- (firstn_skipn (length l / 2 - (length l / 2) mod 8)%nat l) at 1.
    by apply summed_add.
Qed.

Lemma summed_nansum (l : list float) : summed (map Float.fillna l) (Float.nansum l).
Proof.
  unfold Float.nansum, Float.pairwise_sum.
  apply (summed_add [] _); [constructor|apply summed_pairwise].
Qed.

Lemma summed_row_sum (rows : bool) (l : list float) :
  summed (map Float.fillna l) (Float.row_sum rows l).
Proof.
  unfold Float.row_sum. destruct rows;
    [apply summed_nansum|apply summed_sequential].
Qed.

(** The depth given to [pairwise] is enough: a deeper bound changes
    nothing. *)
Lemma pairwise_depth (depth : nat) :
  ∀ depth' l, (length l ≤ depth)%nat → (length l ≤ depth')%nat →
              Float.pairwise depth l = Float.pairwise depth' l.
Proof.
  induction depth as [|depth IH]; intros depth' l Hd Hd'.
  - destruct l; [|simpl in Hd; lia]. by destruct depth'.
  - destruct depth' as [|depth']; [destruct l; [done|simpl in Hd'; lia]|].
    cbn [Float.pairwise]. destruct (length l <? 8)%nat eqn:H8; [done|].
    destruct (length l <=? 128)%nat eqn:H128; [done|].
    apply Nat.ltb_ge in H8. apply Nat.leb_gt in H128.
    assert (0 < length l / 2 - (length l / 2) mod 8 < length l)%nat as Hcut.
    { pose proof (Nat.mod_upper_bound (length l / 2) 8 ltac:(lia)).
      pose proof (Nat.div_lt (length l) 2 ltac:(lia) ltac:(lia)).
      assert (64 ≤ length l / 2)%nat by (apply Nat.div_le_lower_bound; lia). lia. }
    rewrite (IH depth' (firstn _ l)), (IH depth' (skipn _ l)); [done|..];
      rewrite ?length_firstn, ?length_skipn; lia.
Qed.

(** *** What every order of addition preserves *)

(** A property of [0.0] that addition preserves holds of the sum. *)
Lemma summed_closed (P : float → Prop) (l : list float) (s : float) :
  P Float.zero → (∀ x y, P x → P y → P (Float.add x y)) →
  summed l s → Forall P l → P s.
Proof.
  intros Hzero Hadd Hsum. induction Hsum as [|x|l1 l2 s1 s2 _ IH1 _ IH2|l l' s Hperm _ IH];
    intros Hall.
  - done.
  - by apply Forall_cons in Hall as [? _].
  - apply Forall_app in Hall as [? ?]. apply Hadd; auto.
  - apply IH. by rewrite Hperm.
Qed.

(** A property that a sum takes over from either term is taken over
    from any one number. *)
Lemma summed_absorbing (Q : float → Prop) (l : list float) (s : float) :
  (∀ x y, Q x → Q (Float.add x y)) → (∀ x y, Q y → Q (Float.add x y)) →
  summed l s → ∀ x, x ∈ l → Q x → Q s.
Proof.
  intros Hl Hr Hsum. induction Hsum as [|y|l1 l2 s1 s2 _ IH1 _ IH2|l l' s Hperm _ IH];
    intros x Hx HQ.
  - by apply elem_of_nil in Hx.
  - apply list_elem_of_singleton in Hx. by subst.
  - apply elem_of_app in Hx as [Hx|Hx]; [apply Hl|apply Hr]; eauto.
  - apply (IH x); [by rewrite Hperm|done].
Qed.

Lemma fillna_not_nan (x : float) : Float.is_nan (Float.fillna x) = false.
Proof. by destruct x. Qed.

Lemma fillna_id (x : float) : Float.is_nan x = false → Float.fillna x = x.
Proof. by destruct x. Qed.

Lemma map_fillna_id (l : list float) :
  Forall (λ x, Float.is_nan x = false) l → map Float.fillna l = l.
Proof.
  induction 1 as [|x l Hx _ IH]; [done|]. simpl. by rewrite fillna_id, IH.
Qed.

(** A sum of cells that are zero or NaN is zero. *)
Lemma row_sum_zeros (rows : bool) (l : list float) :
  Forall (λ x, Float.is_zero x = true ∨ Float.is_nan x = true) l →
  Float.is_zero (Float.row_sum rows l) = true.
Proof.
  intros Hall.
  apply (summed_closed (λ x, Float.is_zero x = true) (map Float.fillna l));
    [done| |apply summed_row_sum|].
  - intros [sx| | |] [sy| | |]; try done. by destruct sx, sy.
  - apply Forall_map. eapply Forall_impl; [exact Hall|].
    intros [s| | |] [Hx|Hx]; done.
Qed.

Lemma add_not_finite_l (x y : float) :
  Float.is_finite x = false → Float.is_finite (Float.add x y) = false.
Proof.
  intros Hx.
  destruct x as [sx|sx| |sx mx ex], y as [sy|sy| |sy my ey]; try done;
    by destruct sx, sy.
Qed.

Lemma add_not_finite_r (x y : float) :
  Float.is_finite y = false → Float.is_finite (Float.add x y) = false.
Proof.
  intros Hy.
  destruct x as [sx|sx| |sx mx ex], y as [sy|sy| |sy my ey]; try done;
    by destruct sx, sy.
Qed.

(** A sum that is a number has only numbers as terms, NaN cells
    apart. *)
Lemma row_sum_finite_terms (rows : bool) (l : list float) :
  Float.is_finite (Float.row_sum rows l) = true →
  Forall (λ x, Float.is_finite x = true ∨ Float.is_nan x = true) l.
Proof.
  intros Hsum. apply Forall_forall. intros x Hx.
  destruct (Float.is_finite x) eqn:Hfin; [by left|].
  destruct (Float.is_nan x) eqn:Hnan; [by right|]. exfalso.
  assert (Float.is_finite (Float.row_sum rows l) = false) as Hno; [|congruence].
  apply (summed_absorbing (λ y, Float.is_finite y = false) (map Float.fillna l) _
           add_not_finite_l add_not_finite_r (summed_row_sum rows l) x).
  - apply list_elem_of_fmap. exists x. by rewrite fillna_id.
  - done.
Qed.

Lemma nansum_row_sum (l : list float) : Float.nansum l = Float.row_sum true l.
Proof. reflexivity. Qed.

(** Numbers that are not negative: [+0.0], the positive doubles and
    [+inf]. *)
Definition not_negative (x : float) : Prop :=
  Float.signbit x = false ∧ Float.is_nan x = false.

Lemma binary_normalize_not_negative (m e : Z) :
  (0 ≤ m)%Z → not_negative (binary_normalize Float.prec Float.emax m e false).
Proof.
  intros Hm. split; [|apply binary_normalize_not_nan].
  unfold binary_normalize, binary_round. destruct m as [|p|p]; [done| |lia].
  destruct (shl_align _ _ _) as [mz ez]. by apply binary_round_aux_signbit.
Qed.

Lemma add_not_negative (x y : float) :
  not_negative x → not_negative y → not_negative (Float.add x y).
Proof.
  intros [Hsx Hnx] [Hsy Hny].
  destruct x as [sx|sx| |sx mx ex], y as [sy|sy| |sy my ey]; simpl in *; subst;
    try done.
  apply binary_normalize_not_negative. simpl. lia.
Qed.

(** A sum of numbers that are not negative, NaN cells apart, is not
    negative: it is never NaN. *)
Lemma row_sum_not_negative (rows : bool) (l : list float) :
  Forall (λ x, Float.signbit x = false) l → not_negative (Float.row_sum rows l).
Proof.
  intros Hall.
  apply (summed_closed not_negative (map Float.fillna l)); [done| |apply summed_row_sum|].
  - apply add_not_negative.
  - apply Forall_map. eapply Forall_impl; [exact Hall|].
    intros [s| | |] Hs; done.
Qed.

(** The sum of one number and zeros is that number, in every order. *)
Definition weight (x : float) : nat := if Float.is_zero x then 0 else 1.

Lemma weight_perm (l l' : list float) :
  l ≡ₚ l' → list_sum (map weight l) = list_sum (map weight l').
Proof. induction 1; simpl; lia. Qed.

Lemma summed_single (a : float) (l : list float) (s : float) :
  Float.is_finite a = true → Float.is_zero a = false →
  summed l s → Forall (λ x, x = Float.zero ∨ x = a) l →
  (list_sum (map weight l) ≤ 1)%nat →
  (list_sum (map weight l) = 0%nat ∧ s = Float.zero) ∨
  (list_sum (map weight l) = 1%nat ∧ s = a).
Proof.
  intros Hfin Hnz Hsum.
  induction Hsum as [|x|l1 l2 s1 s2 _ IH1 _ IH2|l l' s Hperm _ IH]; intros Hall Hone.
  - by left.
  - apply Forall_cons in Hall as [[->| ->] _]; [by left|right].
    simpl. unfold weight. by rewrite Hnz.
  - apply Forall_app in Hall as [Hall1 Hall2].
    rewrite map_app, list_sum_app in *.
    destruct (IH1 Hall1 ltac:(lia)) as [[Hw1 ->]|[Hw1 ->]],
             (IH2 Hall2 ltac:(lia)) as [[Hw2 ->]|[Hw2 ->]]; try lia.
    + left. split; [lia|done].
    + right. split; [lia|]. by destruct a.
    + right. split; [lia|]. by destruct a as [[]| | |].
  - rewrite <- (weight_perm l l' Hperm) in *. apply IH; [|done].
    by rewrite Hperm.
Qed.

Lemma row_sum_single (a : float) (rows : bool) (l : list float) :
  Float.is_finite a = true → Float.is_zero a = false →
  Forall (λ x, x = Float.zero ∨ x = a) l →
  (list_sum (map weight l) ≤ 1)%nat →
  Float.row_sum rows l = if Nat.eqb (list_sum (map weight l)) 0 then Float.zero else a.
Proof.
  intros Hfin Hnz Hall Hone.
  assert (map Float.fillna l = l) as Hfill.
  { apply map_fillna_id. eapply Forall_impl; [exact Hall|].
    intros x [->| ->]; [done|]. by destruct a. }
  pose proof (summed_row_sum rows l) as Hsum. rewrite Hfill in Hsum.
  destruct (summed_single a l _ Hfin Hnz Hsum Hall Hone) as [[-> ->]|[-> ->]]; done.
Qed.

(** ** Frames *)

Lemma mem_string_elem_of (x : string) (l : list string) :
  mem_string x l = true ↔ x ∈ l.
Proof.
  unfold mem_string. rewrite existsb_exists, list_elem_of_In. split.
  - intros (y & Hy & Heq). apply String.eqb_eq in Heq. by subst.
  - intros Hx. exists x. split; [done|]. apply String.eqb_refl.
Qed.

Lemma mem_string_false (x : string) (l : list string) :
  mem_string x l = false ↔ x ∉ l.
Proof.
  rewrite <- mem_string_elem_of. by destruct (mem_string x l).
Qed.

Lemma select_filter_columns (d : DataFrame) (p : string → bool) :
  select d (List.filter p (columns d)) =
  ok {| index := index d;
        data := flat_map (λ c, List.filter (λ x, String.eqb (fst x) c) (data d))
                         (List.filter p (columns d)) |}.
Proof.
  unfold select.
  replace (forallb _ _) with true; [done|]. symmetry.
  apply forallb_forall. intros c Hc. apply filter_In in Hc as [Hc _].
  by apply mem_string_elem_of, list_elem_of_In.
Qed.

Lemma first_row_columns (d : DataFrame) : map fst (first_row d) = columns d.
Proof. unfold first_row, columns. rewrite map_map. by apply map_ext. Qed.

Lemma row_cells_select (d : DataFrame) (names : list string) :
  map (λ c : string * list float, nth 0 (snd c) Float.nan)
      (flat_map (λ n, List.filter (λ x, String.eqb (fst x) n) (data d)) names) =
  map snd
      (flat_map (λ n, List.filter (λ x, String.eqb (fst x) n) (first_row d)) names).
Proof.
  induction names as [|n names IH]; [done|]. simpl.
  rewrite !map_app, IH. f_equal.
  unfold first_row. rewrite filter_map_swap, map_map. simpl. done.
Qed.

Lemma sum_category_first_row (d : DataFrame) (category : string) :
  index d ≠ [] →
  sum_category d category =
  ok (prefix_sum (contiguous_rows (prefix_frame d category)) (first_row d) category).
Proof.
  intros Hrows. unfold sum_category. rewrite select_filter_columns. simpl.
  fold (prefix_frame d category).
  unfold sum_axis1, positions, prefix_sum.
  change (index (prefix_frame d category)) with (index d).
  destruct (index d) as [|i idx]; [done|]. simpl. unfold ok. f_equal.
  unfold row_cells. simpl. rewrite first_row_columns.
  by rewrite row_cells_select.
Qed.

Lemma checked_first_row (d : DataFrame) (category : string) :
  index d ≠ [] →
  checked d category =
  if almost_100 (prefix_sum (contiguous_rows (prefix_frame d category))
                            (first_row d) category)
  then ok tt else raise AssertionError.
Proof.
  intros Hrows. unfold checked. rewrite sum_category_first_row by done.
  simpl. apply assert_almost_equal_hundred.
Qed.

Lemma checked_no_rows (d : DataFrame) (category : string) :
  index d = [] → checked d category = raise IndexError.
Proof.
  intros Hrows. unfold checked, sum_category. rewrite select_filter_columns.
  simpl. unfold sum_axis1, positions. simpl. by rewrite Hrows.
Qed.

Lemma filter_startswith_all (p : string → bool) (l : list string) :
  forallb p l = true → List.filter p l = l.
Proof.
  induction l as [|a l IH]; simpl; [done|].
  intros [Ha Hl]%andb_prop. rewrite Ha. f_equal. by apply IH.
Qed.

Lemma filter_none {A} (f : A → bool) (l : list A) :
  (∀ x, x ∈ l → f x = false) → List.filter f l = [].
Proof.
  induction l as [|a l IH]; simpl; intros Hf; [done|].
  rewrite Hf by (by left). apply IH. intros x Hx. apply Hf. by right.
Qed.

Lemma filter_name_unique {A} (row : list (string * A)) (a : string * A) :
  NoDup (map fst row) → a ∈ row →
  List.filter (λ x, String.eqb (fst x) (fst a)) row = [a].
Proof.
  induction row as [|b row IH]; simpl; intros Hnd Ha.
  - by apply elem_of_nil in Ha.
  - apply NoDup_cons in Hnd as [Hb Hnd].
    apply elem_of_cons in Ha as [->|Ha].
    + rewrite String.eqb_refl. f_equal.
      apply filter_none. intros c Hc.
      apply not_true_iff_false. intros Heq%String.eqb_eq.
      apply Hb. rewrite <- Heq. apply list_elem_of_fmap. by exists c.
    + destruct (String.eqb (fst b) (fst a)) eqn:Heq.
      * apply String.eqb_eq in Heq. exfalso. apply Hb. rewrite Heq.
        apply list_elem_of_fmap. by exists a.
      * by apply IH.
Qed.

Lemma select_by_name_sub {A} (row l : list (string * A)) :
  NoDup (map fst row) → l ⊆ row →
  flat_map (λ n, List.filter (λ x, String.eqb (fst x) n) row) (map fst l) = l.
Proof.
  intros Hnd. induction l as [|a l IH]; simpl; intros Hsub; [done|].
  rewrite filter_name_unique; [|done|apply Hsub; by left]. simpl. f_equal.
  apply IH. intros y Hy. apply Hsub. by right.
Qed.

Lemma prefix_sum_all (rows : bool) (row : list (string * float)) (category : string) :
  NoDup (map fst row) →
  forallb (λ n, startswith n category) (map fst row) = true →
  prefix_sum rows row category = Float.row_sum rows (map snd row).
Proof.
  intros Hnd Hall. unfold prefix_sum.
  by rewrite filter_startswith_all, select_by_name_sub.
Qed.

Lemma prefix_frame_all (d : DataFrame) (category : string) :
  NoDup (columns d) →
  forallb (λ n, startswith n category) (columns d) = true →
  prefix_frame d category = d.
Proof.
  intros Hnd Hall. unfold prefix_frame. rewrite filter_startswith_all by done.
  unfold columns. rewrite select_by_name_sub; [by destruct d|done|done].
Qed.

Lemma columns_percent_columns (n : nat) (cats : list (string * string))
    (xs : list float) :
  length cats = length xs → map fst (percent_columns n cats xs) = map fst cats.
Proof.
  revert xs. induction cats as [|c cats IH]; intros [|x xs]; simpl; try done.
  intros [= Hlen]. f_equal. by apply IH.
Qed.

(** What a merged row of six single-row frames looks like. *)
Lemma merged_row_shape (i : option string)
    (v_kf v_ch v_ha v_vf v_ga v_gc : string * string → float) :
  let rows6 := [single_row i kf v_kf; single_row i ch v_ch; single_row i ha v_ha;
                single_row i vf v_vf; single_row i ga v_ga; single_row i gc v_gc] in
  let m := merged_row rows6 in
  index m = [i] ∧
  columns m = merged_columns ∧
  List.filter (contains "waterbody") (columns m) = ["waterbody_perc"] ∧
  List.filter (contains "no_data") (columns m) = ["no_data_perc"] ∧
  getitem m "waterbody_perc" = Some (take 1 (flat_map (cells_named "waterbody") rows6)) ∧
  getitem m "no_data_perc" = Some (take 1 (flat_map (cells_named "no_data") rows6)).
Proof.
  intros rows6 m.
  split; [reflexivity|]. split; [vm_compute; reflexivity|].
  split; [vm_compute; reflexivity|]. split; [vm_compute; reflexivity|].
  split; vm_compute; reflexivity.
Qed.

Lemma add_degenerate (x y : float) :
  degenerate x = true → degenerate y = true → degenerate (Float.add x y) = true.
Proof. destruct x as [[]|[]| |]; destruct y as [[]|[]| |]; done. Qed.

(** A row without a finite cell does not sum to 100, in whatever order
    the cells are added. *)
Lemma row_sum_not_finite (rows : bool) (xs : list float) :
  Forall (λ x, Float.is_finite x = false) xs →
  almost_100 (Float.row_sum rows xs) = false.
Proof.
  intros Hall.
  assert (degenerate (Float.row_sum rows xs) = true) as Hdeg.
  { apply (summed_closed (λ x, degenerate x = true) (map Float.fillna xs));
      [done|apply add_degenerate|apply summed_row_sum|].
    apply Forall_map. eapply Forall_impl; [exact Hall|].
    by intros [|[]| |]. }
  by destruct (Float.row_sum rows xs) as [[]|[]| |].
Qed.

Lemma percent_of_nothing_not_finite (a t : float) :
  Float.is_zero t = true →
  Float.is_finite (Float.mul (Float.div a t) Float.hundred) = false.
Proof. destruct t as [[]| | |]; destruct a as [[]|[]| |[]]; done. Qed.

Lemma snd_zip_with_names {A} (cats : list (string * A)) (xs : list float) :
  length cats = length xs → map snd (zip_with (λ c x, (fst c, x)) cats xs) = xs.
Proof.
  revert xs. induction cats as [|c cats IH]; intros [|x xs]; simpl; try done.
  intros [= Hlen]. f_equal. by apply IH.
Qed.

Lemma py_set_grows (l : list float) :
  ∀ acc : list float, (2 ≤ length acc)%nat →
  (2 ≤ length (fold_left (λ acc x, if existsb (Float.eqb x) acc then acc
                                   else acc ++ [x]) l acc))%nat.
Proof.
  induction l as [|x l IH]; simpl; intros acc Hacc; [done|].
  apply IH. destruct (existsb _ acc); [done|]. rewrite length_app. lia.
Qed.

Lemma py_set_agree (l : list float) :
  Nat.eqb (length (py_set l)) 1 = agree l.
Proof.
  destruct l as [|w ws]; [done|]. unfold py_set. simpl.
  induction ws as [|x ws IH]; simpl; [done|].
  destruct (Float.eqb x w); simpl; [done|].
  pose proof (py_set_grows ws [w; x] ltac:(simpl; lia)) as Hlen.
  apply Nat.eqb_neq. lia.
Qed.

Lemma filter_columns (d : DataFrame) (p : string → bool) :
  List.filter p (columns d) = map fst (List.filter (λ c, p (fst c)) (data d)).
Proof. unfold columns. apply filter_map_swap. Qed.

Lemma select_filter_columns_nodup (d : DataFrame) (p : string → bool) :
  NoDup (columns d) →
  select d (List.filter p (columns d)) =
  ok {| index := index d; data := List.filter (λ c, p (fst c)) (data d) |}.
Proof.
  intros Hnd. rewrite select_filter_columns. do 2 f_equal.
  rewrite filter_columns. apply select_by_name_sub; [done|].
  intros c Hc. apply list_elem_of_In in Hc. apply filter_In in Hc as [Hc _].
  by apply list_elem_of_In.
Qed.

Lemma getitem_nodup (d : DataFrame) (c : string * list float) :
  NoDup (columns d) → c ∈ data d → getitem d (fst c) = Some (snd c).
Proof.
  unfold getitem, columns. induction (data d) as [|b l IH]; simpl; intros Hnd Hc.
  - by apply elem_of_nil in Hc.
  - apply NoDup_cons in Hnd as [Hb Hnd].
    apply elem_of_cons in Hc as [->|Hc]; [by rewrite String.eqb_refl|].
    destruct (String.eqb (fst b) (fst c)) eqn:Heq; [|by apply IH].
    apply String.eqb_eq in Heq. exfalso. apply Hb. rewrite Heq.
    apply list_elem_of_fmap. by exists c.
Qed.

Lemma getitem_app_new (idx : list (option string)) (l : list (string * list float))
    (n : string) (v : list float) :
  n ∉ map fst l → getitem {| index := idx; data := l ++ [(n, v)] |} n = Some v.
Proof.
  unfold getitem. simpl. induction l as [|b l IH]; simpl; intros Hn.
  - by rewrite String.eqb_refl.
  - destruct (String.eqb (fst b) n) eqn:Heq.
    + apply String.eqb_eq in Heq. exfalso. apply Hn. rewrite Heq. by left.
    + apply IH. intros Hin. apply Hn. by right.
Qed.

Lemma drop_setitem_new (d : DataFrame) (target : string) (v : list float)
    (cols : list string) (p : string → bool) :
  target ∉ columns d →
  (∀ n, n ∈ cols ↔ n ∈ columns d ∧ p n = true) →
  drop (setitem d target v) cols =
  ok {| index := index d;
        data := List.filter (λ c, negb (p (fst c))) (data d) ++ [(target, v)] |}.
Proof.
  intros Htarget Hcols. unfold drop, setitem.
  replace (mem_string target (columns d)) with false
    by (symmetry; by apply mem_string_false).
  unfold columns. simpl. rewrite map_app.
  replace (forallb _ cols) with true.
  2:{ symmetry. apply forallb_forall. intros n Hn.
      apply mem_string_elem_of, elem_of_app. left.
      apply list_elem_of_In in Hn. by apply Hcols in Hn as [Hn _]. }
  unfold ok. do 2 f_equal. rewrite List.filter_app. simpl.
  replace (mem_string target cols) with false.
  2:{ symmetry. apply mem_string_false. intros Hin.
      by apply Hcols in Hin as [Hin _]. }
  simpl. f_equal. apply filter_ext_in. intros c Hc. f_equal.
  apply eq_true_iff_eq. rewrite mem_string_elem_of, Hcols.
  split; [by intros []|]. intros Hkey. split; [|done].
  apply list_elem_of_fmap. exists c. split; [done|]. by apply list_elem_of_In.
Qed.

(** One reconciliation block on a frame of one row whose column names
    are distinct and do not include the target. *)
Lemma collapsed_one_row (d : DataFrame) (key target : string) :
  NoDup (columns d) → target ∉ columns d → length (index d) = 1 →
  collapsed d key target =
  let sel := List.filter (λ c, contains key (fst c)) (data d) in
  if agree (map (λ c, nth 0 (snd c) Float.nan) sel) then
    match sel with
    | c0 :: _ =>
        ok {| index := index d;
              data := List.filter (λ c, negb (contains key (fst c))) (data d)
                      ++ [(target, snd c0)] |}
    | [] => raise IndexError
    end
  else raise AssertionError.
Proof.
  intros Hnd Htarget Hone. unfold collapsed.
  rewrite select_filter_columns_nodup by done. simpl.
  unfold values_flatten, positions. simpl. rewrite Hone. simpl.
  rewrite app_nil_r. unfold row_cells. simpl. rewrite py_set_agree.
  destruct (agree _); simpl; [|done].
  rewrite filter_columns.
  destruct (List.filter _ (data d)) as [|c0 sel] eqn:Hsel; simpl; [done|].
  assert (c0 ∈ data d) as Hc0.
  { apply list_elem_of_In. eapply (proj1 (filter_In _ c0 (data d))).
    rewrite Hsel. by left. }
  rewrite getitem_nodup by done. cbn [rbind of_option ok].
  apply drop_setitem_new; [done|].
  intros n. change (fst c0 :: map fst sel) with (map fst (c0 :: sel)).
  rewrite <- Hsel, <- filter_columns, !list_elem_of_In, filter_In.
  done.
Qed.

(** Evaluate the column selections of a goal; the cells stay symbolic. *)
Ltac evaluate_lists :=
  repeat match goal with
  | |- context [@List.filter (string * list float) ?p ?l] =>
      let t := eval vm_compute in (@List.filter (string * list float) p l) in
      progress replace (@List.filter (string * list float) p l) with t
        by (vm_compute; reflexivity)
  end;
  cbn [map nth snd fst].

Lemma NoDup_strings (l : list string) : bool_decide (NoDup l) = true → NoDup l.
Proof. apply bool_decide_eq_true. Qed.

(** The reconciliation of six single-row frames laid out as the
    extractors build them. *)
Lemma merged_rows_collapse (i : option string)
    (v_kf v_ch v_ha v_vf v_ga v_gc : string * string → float) :
  let rows6 := [single_row i kf v_kf; single_row i ch v_ch; single_row i ha v_ha;
                single_row i vf v_vf; single_row i ga v_ga; single_row i gc v_gc] in
  rbind (concat_axis1 rows6) (λ d,
  rbind (collapsed d "waterbody" "waterbody_perc") (λ d,
  collapsed d "no_data" "no_data_perc")) =
  if agree (flat_map (cells_named "waterbody") rows6) then
    if agree (flat_map (cells_named "no_data") rows6) then ok (merged_row rows6)
    else raise AssertionError
  else raise AssertionError.
Proof.
  intros rows6. unfold concat_axis1, rows6, single_row. cbn [forallb index].
  rewrite !bool_decide_eq_true_2 by reflexivity. cbn [andb rbind ok].
  rewrite collapsed_one_row;
    [|apply NoDup_strings; vm_compute; reflexivity
     |apply mem_string_false; vm_compute; reflexivity
     |reflexivity].
  cbv zeta. evaluate_lists.
  replace (flat_map (cells_named "waterbody") _)
    with [v_kf ("kf_waterbody_perc", "Gewässer");
          v_ch ("aquifer_waterbody_perc", "Gewässer");
          v_ha ("cavity_waterbody_perc", "Gewässer");
          v_vf ("consolidation_waterbody_perc", "Gewässer");
          v_ga ("rocktype_waterbody_perc", "Gewässer");
          v_gc ("geochemical_rocktype_waterbody_perc", "Gewässer")]
    by (vm_compute; reflexivity).
  destruct (agree _); [|reflexivity]. cbn [rbind ok snd index].
  rewrite collapsed_one_row;
    [|apply NoDup_strings; vm_compute; reflexivity
     |apply mem_string_false; vm_compute; reflexivity
     |reflexivity].
  cbv zeta. evaluate_lists.
  replace (flat_map (cells_named "no_data") _)
    with [v_kf ("kf_no_data_perc", "keine Angaben");
          v_ch ("aquifer_no_data_perc", "keine Angaben");
          v_ha ("cavity_no_data_perc", "keine Angaben");
          v_vf ("consolidation_no_data_perc", "keine Angaben");
          v_ga ("rocktype_no_data_perc", "keine Angaben");
          v_gc ("geochemical_rocktype_no_data_perc", "keine Angaben")]
    by (vm_compute; reflexivity).
  destruct (agree _); [|reflexivity].
  vm_compute. reflexivity.
Qed.

(** ** Concatenating rows *)

Lemma getitem_elem_of (d : DataFrame) (n : string) :
  n ∉ columns d → getitem d n = None.
Proof.
  unfold getitem, columns. induction (data d) as [|b l IH]; simpl; intros Hn;
    [done|].
  destruct (String.eqb (fst b) n) eqn:Heq.
  - apply String.eqb_eq in Heq. exfalso. apply Hn. rewrite Heq. by left.
  - apply IH. intros Hin. apply Hn. by right.
Qed.

Lemma getitem_map_names (idx : list (option string)) (f : string → list float)
    (names : list string) (n : string) :
  getitem {| index := idx; data := map (λ c, (c, f c)) names |} n =
  if mem_string n names then Some (f n) else None.
Proof.
  unfold getitem. simpl. induction names as [|c names IH]; simpl; [done|].
  rewrite String.eqb_sym. destruct (String.eqb n c) eqn:Heq; simpl.
  - apply String.eqb_eq in Heq. by subst.
  - exact IH.
Qed.

Lemma column_or_nan_concat_axis0 (a b : DataFrame) (n : string) :
  column_or_nan (concat_axis0 a b) n = column_or_nan a n ++ column_or_nan b n.
Proof.
  unfold column_or_nan at 1, concat_axis0. rewrite getitem_map_names. simpl.
  destruct (mem_string n _) eqn:Hmem; simpl; [done|].
  assert ((n ∉ columns a) ∧ (n ∉ columns b)) as [Ha Hb].
  { apply mem_string_false in Hmem. split.
    - intros Hin. apply Hmem, elem_of_app. by left.
    - intros Hin. apply Hmem, elem_of_app.
      destruct (mem_string n (columns a)) eqn:Hna.
      + left. by apply mem_string_elem_of.
      + right. apply list_elem_of_In, filter_In. split.
        * by apply list_elem_of_In.
        * by rewrite Hna. }
  unfold column_or_nan. rewrite !getitem_elem_of by done. simpl.
  by rewrite length_app, repeat_app.
Qed.

Lemma column_or_nan_fold (ds : list DataFrame) (n : string) :
  ∀ acc, column_or_nan (fold_left concat_axis0 ds acc) n =
         column_or_nan acc n ++ flat_map (λ d, column_or_nan d n) ds.
Proof.
  induction ds as [|d ds IH]; intros acc; simpl.
  - by rewrite app_nil_r.
  - by rewrite IH, column_or_nan_concat_axis0, <- app_assoc.
Qed.

Lemma index_fold (ds : list DataFrame) :
  ∀ acc, index (fold_left concat_axis0 ds acc) = index acc ++ flat_map index ds.
Proof.
  induction ds as [|d ds IH]; intros acc; simpl.
  - by rewrite app_nil_r.
  - rewrite IH. simpl. by rewrite <- app_assoc.
Qed.

Lemma round_nan (k : nat) : Float.round k Float.nan = Float.nan.
Proof. reflexivity. Qed.

Lemma nearest_integer_rint (m d : Z) :
  (0 < d)%Z →
  nearest_integer m d
    (match (2 * (m mod d) ?= d)%Z with
     | Lt => m / d
     | Gt => m / d + 1
     | Eq => if Z.even (m / d) then m / d else m / d + 1
     end)%Z.
Proof.
  intros Hd. pose proof (Z.div_mod m d ltac:(lia)) as Hm.
  pose proof (Z.mod_pos_bound m d Hd) as Hr.
  unfold nearest_integer.
  destruct (Z.compare_spec (2 * (m mod d)) d) as [Heq|Hlt|Hgt].
  - destruct (Z.even (m / d)) eqn:Heven.
    + split; [lia|done].
    + split; [lia|]. intros _. rewrite Z.even_add. by rewrite Heven.
  - split; lia.
  - split; lia.
Qed.

(** [numpy.round(x, 2)] rounds to two decimals. *)
Lemma round_spec (x : float) : rounded_to_2_decimals x (Float.round 2 x).
Proof.
  unfold rounded_to_2_decimals, Float.round.
  change (Float.of_Z (10 ^ Z.of_nat 2)) with Float.hundred.
  destruct (Float.mul x Float.hundred) as [s|s| |s m e]; try reflexivity.
  unfold Float.rint. destruct (0 <=? e)%Z eqn:He; [done|].
  apply Z.leb_gt in He.
  eexists. split; [apply nearest_integer_rint; lia|]. reflexivity.
Qed.

Lemma rounded_cells (l : list float) :
  Forall2 rounded_to_2_decimals l (map (Float.round 2) l).
Proof. induction l as [|x l IH]; constructor; [apply round_spec|done]. Qed.

Lemma column_or_nan_round (k : nat) (t : DataFrame) (n : string) :
  column_or_nan (round_frame k t) n = map (Float.round k) (column_or_nan t n).
Proof.
  unfold column_or_nan, getitem, round_frame. simpl.
  induction (data t) as [|b l IH]; simpl.
  - induction (length (index t)) as [|m IHm]; simpl; [done|].
    by rewrite <- IHm, round_nan.
  - by destruct (String.eqb (fst b) n).
Qed.

Lemma columns_concat_same (a b : DataFrame) :
  columns b = columns a → columns (concat_axis0 a b) = columns a.
Proof.
  intros Hsame. unfold concat_axis0, columns at 1. simpl.
  rewrite map_map. simpl. rewrite map_id, Hsame.
  rewrite (filter_none _ (columns a)); [by rewrite app_nil_r|].
  intros n Hn. apply negb_false_iff. by apply mem_string_elem_of.
Qed.

Lemma columns_concat_empty (b : DataFrame) :
  columns (concat_axis0 empty_frame b) = columns b.
Proof.
  unfold concat_axis0, columns at 1. simpl. rewrite map_map. simpl.
  rewrite map_id. by apply filter_startswith_all, forallb_forall.
Qed.

Lemma columns_fold_same (cols : list string) (ds : list DataFrame) :
  Forall (λ d, columns d = cols) ds →
  ∀ acc, columns acc = cols → columns (fold_left concat_axis0 ds acc) = cols.
Proof.
  induction 1 as [|d ds Hd _ IH]; intros acc Hacc; simpl; [done|].
  apply IH. rewrite columns_concat_same; congruence.
Qed.

Lemma columns_round (k : nat) (t : DataFrame) :
  columns (round_frame k t) = columns t.
Proof. unfold columns, round_frame. simpl. by rewrite map_map. Qed.

Section Proofs.
Context {G : Type} `{Geometry G}.

Abbreviation store := (gmap loc (object G)).

(** ** Rules for [wp] *)

Lemma wp_ret {A} (a : A) (σ : store) Q : Q (ok a) σ → wp (mret a) σ Q.
Proof. done. Qed.

Lemma wp_lift {A} (r : result A) (σ : store) Q : Q r σ → wp (lift r) σ Q.
Proof. done. Qed.

Lemma wp_bind {A B} (m : M A) (f : A → M B) (σ : store) Q :
  wp m σ (λ r σ', match r with
                  | inr a => wp (f a) σ' Q
                  | inl e => Q (inl e) σ'
                  end) →
  wp (m ≫= f) σ Q.
Proof.
  unfold wp, mbind, M_bind. destruct (m σ) as [[e|a] σ']; simpl; auto.
Qed.

Lemma wp_mono {A} (m : M A) (σ : store) (Q Q' : result A → store → Prop) :
  (∀ r σ', Q r σ' → Q' r σ') → wp m σ Q → wp m σ Q'.
Proof. unfold wp. auto. Qed.

Lemma wp_alloc (o : object G) (σ : store) Q :
  (∀ l, σ !! l = None → Q (ok l) (<[l := o]> σ)) → wp (alloc o) σ Q.
Proof.
  intros HQ. unfold wp, alloc. simpl. apply HQ.
  apply not_elem_of_dom, is_fresh.
Qed.

Lemma wp_load_geo l g (σ : store) Q :
  σ !! l = Some (OGeo g) → Q (ok g) σ → wp (load_geo l) σ Q.
Proof. intros Hl HQ. unfold wp, load_geo. by rewrite Hl. Qed.

Lemma wp_load_frame l d (σ : store) Q :
  σ !! l = Some (OFrame d) → Q (ok d) σ → wp (load_frame l) σ Q.
Proof. intros Hl HQ. unfold wp, load_frame. by rewrite Hl. Qed.

Lemma wp_overwrite l d (σ : store) Q :
  Q (ok tt) (<[l := OFrame d]> σ) → wp (overwrite l d) σ Q.
Proof. done. Qed.

Lemma wp_update_frame l f d (σ : store) Q :
  σ !! l = Some (OFrame d) →
  match f d with
  | inr d' => Q (ok tt) (<[l := OFrame d']> σ)
  | inl e => Q (inl e) σ
  end →
  wp (update_frame l f) σ Q.
Proof.
  intros Hl HQ. unfold update_frame.
  apply wp_bind, (wp_load_frame _ d); [done|].
  apply wp_bind, wp_lift. destruct (f d); [done|].
  by apply wp_overwrite.
Qed.

Lemma wp_assert (b : bool) σ (Q : result unit → store → Prop) :
  (if b then Q (ok tt) σ else Q (inl AssertionError) σ) → wp (assert b) σ Q.
Proof. intros HQ. apply wp_lift. by destruct b. Qed.

(** *** The store grows and keeps what it holds *)

Lemma lookup_insert_fresh (σ : store) (l k : loc) (o o' : object G) :
  σ !! l = None → σ !! k = Some o → <[l := o']> σ !! k = Some o.
Proof.
  intros Hl Hk. rewrite lookup_insert_ne; [done|]. intros ->. congruence.
Qed.

Lemma extend_fresh (σ σ' : store) (l : loc) (o : object G) :
  σ' !! l = None → σ ⊆ σ' → σ ⊆ <[l := o]> σ'.
Proof.
  intros Hl Hsub. etrans; [exact Hsub|]. by apply insert_subseteq.
Qed.

Lemma extend_local (σ σ' : store) (l : loc) (o : object G) :
  σ !! l = None → σ ⊆ σ' → σ ⊆ <[l := o]> σ'.
Proof. intros Hl Hsub. by apply insert_subseteq_r. Qed.

Lemma fresh_below (σ σ' : store) (l : loc) :
  σ ⊆ σ' → σ' !! l = None → σ !! l = None.
Proof.
  intros Hsub Hl. destruct (σ !! l) as [o|] eqn:E; [|done].
  eapply lookup_weaken in E; [|exact Hsub]. congruence.
Qed.

(** *** The library calls *)

Lemma wp_gdf_clip a b g m (σ : store) Q :
  σ !! a = Some (OGeo g) → σ !! b = Some (OGeo m) →
  (∀ l, σ !! l = None → Q (ok l) (<[l := OGeo (clip g m)]> σ)) →
  wp (gdf_clip a b) σ Q.
Proof.
  intros Ha Hb HQ. unfold gdf_clip.
  apply wp_bind, (wp_load_geo _ g); [done|].
  apply wp_bind, (wp_load_geo _ m); [done|].
  by apply wp_alloc.
Qed.

Lemma wp_set_gauge_index df lc d c id (σ : store) Q :
  σ !! df = Some (OFrame d) → σ !! lc = Some (OGeo c) →
  match gdf_getitem c id with
  | inr ids => Q (ok tt) (<[df := OFrame {| index := ids; data := [] |}]> σ)
  | inl e => Q (inl e) σ
  end →
  wp (set_gauge_index df lc id) σ Q.
Proof.
  intros Hdf Hc HQ. unfold set_gauge_index.
  apply wp_bind, (wp_load_geo _ c); [done|].
  apply wp_bind, wp_lift. destruct (gdf_getitem c id) as [e|ids]; [done|].
  by apply (wp_update_frame _ _ d).
Qed.

Lemma wp_area_percentage lc g fld label (σ : store) Q :
  σ !! lc = Some (OGeo g) →
  Q (percentage g fld label) σ →
  wp (area_percentage lc fld label) σ Q.
Proof.
  intros Hc HQ. unfold area_percentage.
  apply wp_bind, (wp_load_geo _ g); [done|].
  apply wp_bind, wp_lift. unfold percentage in HQ.
  destruct (where_eq g fld label) as [e|part]; [done|].
  by apply wp_ret.
Qed.

Lemma wp_df_setitem df d col x (σ : store) Q :
  σ !! df = Some (OFrame d) →
  Q (ok tt) (<[df := OFrame (setitem_scalar d col x)]> σ) →
  wp (df_setitem df col x) σ Q.
Proof. intros Hdf HQ. by apply (wp_update_frame _ _ d). Qed.

Lemma wp_check_extracted_values df d category (σ : store) Q :
  σ !! df = Some (OFrame d) →
  Q (checked d category) σ →
  wp (check_extracted_values df category) σ Q.
Proof.
  intros Hdf HQ. unfold check_extracted_values.
  apply wp_bind, (wp_load_frame _ d); [done|].
  unfold checked, sum_category in HQ.
  apply wp_bind, wp_lift.
  destruct (select d _) as [e|sub]; [done|]. simpl in HQ.
  apply wp_bind, wp_lift.
  destruct (iloc0 (sum_axis1 sub)) as [e|s]; [done|]. simpl in HQ.
  by apply wp_lift.
Qed.

(** *** The extractors *)

Lemma wp_fill_columns (clipped df : loc) (g : GeoDataFrame G) (fld : string)
    (cats : list (string * string)) :
  ∀ (d : DataFrame) (σ : store) (Q : result unit → store → Prop),
  σ !! clipped = Some (OGeo g) → clipped ≠ df →
  match filled g fld cats d with
  | inr d' => Q (ok tt) (<[df := OFrame d']> σ)
  | inl e => ∀ d', Q (inl e) (<[df := OFrame d']> σ)
  end →
  wp (for_each cats
        (λ _ c, x ← area_percentage clipped fld (snd c); df_setitem df (fst c) x) tt)
     (<[df := OFrame d]> σ) Q.
Proof.
  induction cats as [|c cats IH]; intros d σ Q Hc Hne HQ; simpl in *.
  - by apply wp_ret.
  - apply wp_bind, wp_bind.
    apply (wp_area_percentage _ g); [by rewrite lookup_insert_ne|].
    destruct (percentage g fld (snd c)) as [e|x]; simpl in HQ; [by apply HQ|].
    apply (wp_df_setitem _ d); [by rewrite lookup_insert_eq|].
    rewrite insert_insert_eq. by apply IH.
Qed.

Lemma extract_from_huek_returns (x : extractor) (lh lc : loc)
    (h c : GeoDataFrame G) (id : string) (σ : store) :
  σ !! lh = Some (OGeo h) → σ !! lc = Some (OGeo c) →
  returns (extract x lh lc id) σ (extracted x h c id).
Proof.
  intros Hh Hc. unfold returns, extract, extract_from_huek, extracted.
  apply wp_bind, (wp_gdf_clip _ _ h c); [done..|]. intros l1 Hl1.
  apply wp_bind, wp_alloc. intros l2 Hl2.
  assert (l1 ≠ l2) as Hne by (intros ->; by rewrite lookup_insert_eq in Hl2).
  assert (σ !! l2 = None) as Hl2' by (by rewrite lookup_insert_ne in Hl2).
  assert (∀ d, σ ⊆ <[l2 := OFrame d]> (<[l1 := OGeo (clip h c)]> σ)) as Hsub.
  { intros d. apply extend_local; [done|]. by apply extend_fresh. }
  apply wp_bind, (wp_set_gauge_index _ _ empty_frame c).
  { by rewrite lookup_insert_eq. }
  { rewrite lookup_insert_ne; [|intros ->; congruence].
    by apply lookup_insert_fresh. }
  destruct (gdf_getitem c id) as [e|ids]; simpl; [by split|].
  rewrite insert_insert_eq.
  apply wp_bind, (wp_fill_columns _ _ (clip h c)); [by rewrite lookup_insert_eq|done|].
  destruct (filled _ _ _ _) as [e|d]; simpl; [by split|].
  apply wp_bind, (wp_check_extracted_values _ d); [by rewrite lookup_insert_eq|].
  destruct (checked d (prefix x)) as [e|[]]; simpl; [by split|].
  apply wp_ret. split; [done|]. split; [done|]. by rewrite lookup_insert_eq.
Qed.

Lemma wp_extract (x : extractor) (lh lc : loc) (h c : GeoDataFrame G) (id : string)
    (σ : store) (Q : result loc → store → Prop) :
  σ !! lh = Some (OGeo h) → σ !! lc = Some (OGeo c) →
  match extracted x h c id with
  | inr d => ∀ l σ', σ ⊆ σ' → σ !! l = None → σ' !! l = Some (OFrame d) → Q (ok l) σ'
  | inl e => ∀ σ', σ ⊆ σ' → Q (inl e) σ'
  end →
  wp (extract x lh lc id) σ Q.
Proof.
  intros Hh Hc HQ.
  eapply wp_mono; [|by apply (extract_from_huek_returns x lh lc h c id)].
  intros out σ' [Hsub Hout]. simpl in Hout.
  destruct (extracted x h c id) as [e|d], out as [e'|l]; try done.
  - subst. by apply HQ.
  - destruct Hout. by apply HQ.
Qed.

(** *** The loop body *)

Lemma wp_load_frames (ls : list loc) (ds : list DataFrame) (σ : store) :
  ∀ (acc : list DataFrame) (Q : result (list DataFrame) → store → Prop),
  Forall2 (λ l d, σ !! l = Some (OFrame d)) ls ds →
  Q (ok (acc ++ ds)) σ →
  wp (for_each ls (λ acc l, d ← load_frame l; mret (acc ++ [d])) acc) σ Q.
Proof.
  intros acc Q Hall. revert acc Q.
  induction Hall as [|l d ls ds Hl Hall IH]; intros acc Q HQ; simpl.
  - apply wp_ret. by rewrite app_nil_r in HQ.
  - apply wp_bind, wp_bind, (wp_load_frame _ d); [done|].
    apply wp_ret, IH. by rewrite <- app_assoc.
Qed.

Lemma wp_pd_concat_axis1 (ls : list loc) (ds : list DataFrame) (σ : store)
    (Q : result loc → store → Prop) :
  Forall2 (λ l d, σ !! l = Some (OFrame d)) ls ds →
  match concat_axis1 ds with
  | inr d => ∀ l, σ !! l = None → Q (ok l) (<[l := OFrame d]> σ)
  | inl e => Q (inl e) σ
  end →
  wp (pd_concat_axis1 ls) σ Q.
Proof.
  intros Hall HQ. unfold pd_concat_axis1.
  apply wp_bind, (wp_load_frames ls ds); [done|]. simpl.
  apply wp_bind, wp_lift. destruct (concat_axis1 ds) as [e|d]; [done|].
  by apply wp_alloc.
Qed.

Lemma wp_pd_concat_axis0 (a b : loc) (da db : DataFrame) (σ : store)
    (Q : result loc → store → Prop) :
  σ !! a = Some (OFrame da) → σ !! b = Some (OFrame db) →
  (∀ l, σ !! l = None → Q (ok l) (<[l := OFrame (concat_axis0 da db)]> σ)) →
  wp (pd_concat_axis0 a b) σ Q.
Proof.
  intros Ha Hb HQ. unfold pd_concat_axis0.
  apply wp_bind, (wp_load_frame _ da); [done|].
  apply wp_bind, (wp_load_frame _ db); [done|].
  by apply wp_alloc.
Qed.

Lemma wp_collapse (df : loc) (d : DataFrame) (key target : string) (σ : store)
    (Q : result unit → store → Prop) :
  σ !! df = Some (OFrame d) →
  match collapsed d key target with
  | inr d' => Q (ok tt) (<[df := OFrame d']> σ)
  | inl e => ∀ d', Q (inl e) (<[df := OFrame d']> σ)
  end →
  wp (collapse df key target) σ Q.
Proof.
  intros Hdf HQ. unfold collapse, collapsed in *.
  assert (∀ e, (∀ d', Q (inl e) (<[df := OFrame d']> σ)) → Q (inl e) σ) as Hsame.
  { intros e He. specialize (He d). by rewrite insert_id in He. }
  apply wp_bind, (wp_load_frame _ d); [done|].
  apply wp_bind, wp_lift.
  destruct (select d _) as [e|sub]; simpl in HQ; [by apply Hsame|].
  apply wp_bind, wp_assert.
  destruct (Nat.eqb _ 1); simpl in HQ; [|by apply Hsame].
  apply wp_bind, wp_lift.
  destruct (iloc0 _) as [e|c0]; simpl in HQ; [by apply Hsame|].
  apply wp_bind, (wp_load_frame _ d); [done|].
  apply wp_bind, wp_lift.
  destruct (of_option KeyError (getitem d c0)) as [e|shared]; simpl in HQ;
    [by apply Hsame|].
  apply wp_bind, (wp_update_frame _ _ d); [done|].
  apply (wp_update_frame _ _ (setitem d target shared));
    [by rewrite lookup_insert_eq|].
  destruct (drop _ _) as [e|d']; [by apply HQ|].
  by rewrite insert_insert_eq.
Qed.

Ltac carry Hsub :=
  repeat match goal with
  | Hk : ?σ !! _ = Some _ |- _ =>
      match type of Hsub with
      | σ ⊆ _ => eapply lookup_weaken in Hk; [|exact Hsub]
      end
  end.

Lemma wp_loop_body (lh lcs ldf : loc) (h cs : GeoDataFrame G) (acc : DataFrame)
    (id : string) (r : GeoRow G) (σ : store) (Q : result loc → store → Prop) :
  σ !! lh = Some (OGeo h) → σ !! lcs = Some (OGeo cs) →
  σ !! ldf = Some (OFrame acc) →
  match merged h (catchment_of h cs r) id with
  | inr d => ∀ l σ', σ ⊆ σ' → σ !! l = None →
                     σ' !! l = Some (OFrame (concat_axis0 acc d)) → Q (ok l) σ'
  | inl e => ∀ σ', σ ⊆ σ' → Q (inl e) σ'
  end →
  wp (loop_body lh lcs id ldf r) σ Q.
Proof.
  intros Hh Hcs Hdf HQ. unfold loop_body, merged in *.
  apply wp_bind, (wp_load_geo _ h); [done|].
  apply wp_bind, (wp_load_geo _ cs); [done|].
  apply wp_bind, wp_alloc. intros lc Hlc.
  fold (catchment_of h cs r).
  set (c := catchment_of h cs r) in *.
  assert (σ ⊆ <[lc := OGeo c]> σ) as Hsub0 by (by apply insert_subseteq).
  assert (<[lc := OGeo c]> σ !! lc = Some (OGeo c)) as Hc
    by (by rewrite lookup_insert_eq).
  carry Hsub0. clear Hlc. simpl.
  remember (<[lc := OGeo c]> σ) as σ0 eqn:Hσ0. clear Hσ0.
  assert (∀ e σ', σ0 ⊆ σ' →
    (∀ σ'', σ ⊆ σ'' → Q (inl e) σ'') → Q (inl e) σ') as Hfail.
  { intros e σ' Hs HQe. apply HQe. by etrans. }
  unfold extract_ch_from_huek, extract_kf_from_huek, extract_ha_from_huek,
    extract_ga_from_huek, extract_vf_from_huek, extract_gc_from_huek.
  apply wp_bind, (wp_extract ch _ _ h c); [done..|].
  destruct (extracted ch h c id) as [e|d_ch]; cbn [rbind] in *;
    [intros σ' Hs; by eapply Hfail|].
  intros l_ch σ1 Hs1 _ Hd_ch. carry Hs1.
  apply wp_bind, (wp_extract kf _ _ h c); [done..|].
  destruct (extracted kf h c id) as [e|d_kf]; cbn [rbind] in *;
    [intros σ' Hs; eapply Hfail; [by etrans|done]|].
  intros l_kf σ2 Hs2 _ Hd_kf. carry Hs2.
  assert (σ0 ⊆ σ2) as Hs02 by (by etrans). clear Hs1 Hs2.
  apply wp_bind, (wp_extract ha _ _ h c); [done..|].
  destruct (extracted ha h c id) as [e|d_ha]; cbn [rbind] in *;
    [intros σ' Hs; eapply Hfail; [by etrans|done]|].
  intros l_ha σ3 Hs3 _ Hd_ha. carry Hs3.
  assert (σ0 ⊆ σ3) as Hs03 by (by etrans). clear Hs02 Hs3.
  apply wp_bind, (wp_extract ga _ _ h c); [done..|].
  destruct (extracted ga h c id) as [e|d_ga]; cbn [rbind] in *;
    [intros σ' Hs; eapply Hfail; [by etrans|done]|].
  intros l_ga σ4 Hs4 _ Hd_ga. carry Hs4.
  assert (σ0 ⊆ σ4) as Hs04 by (by etrans). clear Hs03 Hs4.
  apply wp_bind, (wp_extract vf _ _ h c); [done..|].
  destruct (extracted vf h c id) as [e|d_vf]; cbn [rbind] in *;
    [intros σ' Hs; eapply Hfail; [by etrans|done]|].
  intros l_vf σ5 Hs5 _ Hd_vf. carry Hs5.
  assert (σ0 ⊆ σ5) as Hs05 by (by etrans). clear Hs04 Hs5.
  apply wp_bind, (wp_extract gc _ _ h c); [done..|].
  destruct (extracted gc h c id) as [e|d_gc]; cbn [rbind] in *;
    [intros σ' Hs; eapply Hfail; [by etrans|done]|].
  intros l_gc σ6 Hs6 _ Hd_gc. carry Hs6.
  assert (σ0 ⊆ σ6) as Hs06 by (by etrans). clear Hs05 Hs6.
  apply wp_bind,
    (wp_pd_concat_axis1 _ [d_kf; d_ch; d_ha; d_vf; d_ga; d_gc]).
  { repeat constructor; done. }
  destruct (concat_axis1 _) as [e|d0]; cbn [rbind] in *;
    [by eapply Hfail|].
  intros l Hl.
  assert (σ0 ⊆ <[l := OFrame d0]> σ6) as Hs07 by (by apply extend_fresh).
  assert (σ0 !! l = None) as Hl0 by exact (fresh_below _ _ _ Hs06 Hl).
  cbn [ok].
  assert (∀ d', σ0 ⊆ <[l := OFrame d']> σ6) as Hs.
  { intros d'. by apply extend_local. }
  assert (l ≠ ldf) as Hne by (intros ->; congruence).
  apply wp_bind, (wp_collapse _ d0); [by rewrite lookup_insert_eq|].
  destruct (collapsed d0 _ _) as [e|d1]; cbn [rbind] in *.
  { intros d'. rewrite insert_insert_eq. by eapply Hfail. }
  rewrite insert_insert_eq.
  apply wp_bind, (wp_collapse _ d1); [by rewrite lookup_insert_eq|].
  destruct (collapsed d1 _ _) as [e|d2]; cbn [rbind] in *.
  { intros d'. rewrite insert_insert_eq. by eapply Hfail. }
  rewrite insert_insert_eq.
  apply (wp_pd_concat_axis0 _ _ acc d2);
    [by rewrite lookup_insert_ne|by rewrite lookup_insert_eq|].
  intros l' Hl'. apply HQ.
  - etrans; [exact Hsub0|]. by apply extend_fresh.
  - eapply fresh_below; [|exact Hl']. etrans; [exact Hsub0|]. apply Hs.
  - by rewrite lookup_insert_eq.
Qed.

(** *** The loop and the whole function *)

Lemma wp_accumulate (lh lcs : loc) (h cs : GeoDataFrame G) (id : string)
    (rs : list (GeoRow G)) :
  ∀ (ldf : loc) (acc : DataFrame) (σ : store) (Q : result loc → store → Prop),
  σ !! lh = Some (OGeo h) → σ !! lcs = Some (OGeo cs) →
  σ !! ldf = Some (OFrame acc) →
  match accumulated h cs id rs acc with
  | inr t => ∀ l σ', σ ⊆ σ' → σ' !! l = Some (OFrame t) → Q (ok l) σ'
  | inl e => ∀ σ', σ ⊆ σ' → Q (inl e) σ'
  end →
  wp (for_each rs (loop_body lh lcs id) ldf) σ Q.
Proof.
  induction rs as [|r rs IH]; intros ldf acc σ Q Hh Hcs Hdf HQ; simpl in *.
  - apply wp_ret. by apply HQ.
  - apply wp_bind, (wp_loop_body _ _ _ h cs acc); [done..|].
    destruct (merged h (catchment_of h cs r) id) as [e|d]; cbn [rbind] in *;
      [done|].
    intros l σ' Hsub _ Hl. carry Hsub.
    apply (IH _ (concat_axis0 acc d)); [done..|].
    destruct (accumulated h cs id rs _) as [e|t].
    + intros σ'' Hsub'. apply HQ. by etrans.
    + intros l' σ'' Hsub' Hl'. apply HQ; [by etrans|done].
Qed.

Lemma extract_hydrogeology_attributes_huek_returns (lh lc : loc)
    (h c : GeoDataFrame G) (id : string) (σ : store) :
  σ !! lh = Some (OGeo h) → σ !! lc = Some (OGeo c) →
  returns (extract_hydrogeology_attributes_huek lh lc id) σ (table h c id).
Proof.
  intros Hh Hc. unfold returns, extract_hydrogeology_attributes_huek, table.
  unfold gdf_to_crs.
  apply wp_bind, wp_bind, (wp_load_geo _ c); [done|].
  apply wp_bind, (wp_load_geo _ h); [done|].
  apply wp_bind, wp_lift.
  destruct (to_crs c (crs h)) as [e|cs]; cbn [rbind]; [by split|].
  apply wp_alloc. intros lcs Hlcs.
  apply wp_bind, wp_alloc. intros ldf Hldf.
  set (σ0 := <[ldf := OFrame empty_frame]> (<[lcs := OGeo cs]> σ)).
  assert (σ ⊆ σ0) as Hsub0.
  { unfold σ0. apply extend_fresh; [done|]. by apply insert_subseteq. }
  assert (σ0 !! lcs = Some (OGeo cs)) as Hcs.
  { unfold σ0. eapply lookup_insert_fresh; [done|]. by rewrite lookup_insert_eq. }
  assert (σ0 !! ldf = Some (OFrame empty_frame)) as Hdf.
  { unfold σ0. by rewrite lookup_insert_eq. }
  carry Hsub0. clearbody σ0.
  apply wp_bind, (wp_load_geo _ cs); [done|].
  apply wp_bind, (wp_accumulate _ _ h cs _ _ _ empty_frame); [done..|].
  destruct (accumulated h cs id (rows cs) empty_frame) as [e|t]; cbn [rbind].
  - intros σ' Hsub. split; [by etrans|done].
  - intros l σ' Hsub Hl. unfold df_round.
    apply wp_bind, (wp_load_frame _ t); [done|].
    apply wp_alloc. intros l' Hl'.
    assert (σ ⊆ σ') as Hsub' by (by etrans).
    split; [by apply extend_fresh|].
    split; [by eapply fresh_below|]. by rewrite lookup_insert_eq.
Qed.

(** ** What an extractor returns *)

Lemma filled_spec (g : GeoDataFrame G) (fld : string) (cats : list (string * string)) :
  ∀ d d' : DataFrame,
  NoDup (map fst cats) → (∀ n, n ∈ map fst cats → n ∉ columns d) →
  filled g fld cats d = ok d' →
  index d' = index d ∧
  ∃ xs, Forall2 (λ c x, percentage g fld (snd c) = ok x) cats xs ∧
        data d' = data d ++ percent_columns (length (index d)) cats xs.
Proof.
  induction cats as [|c cats IH]; simpl; intros d d' Hnd Hnew Hfill.
  - injection Hfill as <-. split; [done|]. exists []. split; [constructor|].
    by rewrite app_nil_r.
  - apply NoDup_cons in Hnd as [Hc Hnd].
    destruct (percentage g fld (snd c)) as [e|x] eqn:Hx; [done|].
    simpl in Hfill. apply IH in Hfill as (Hidx & xs & Hxs & Hdata); [|done|].
    + unfold setitem_scalar, setitem in *.
      replace (mem_string (fst c) (columns d)) with false in *
        by (symmetry; apply mem_string_false, Hnew; by left).
      simpl in *. split; [done|]. exists (x :: xs). split; [by constructor|].
      by rewrite Hdata, <- app_assoc.
    + intros n Hn. unfold setitem_scalar, setitem.
      replace (mem_string (fst c) (columns d)) with false
        by (symmetry; apply mem_string_false, Hnew; by left).
      unfold columns. simpl. rewrite map_app. simpl.
      intros [Hin|Hin]%elem_of_app.
      * by apply (Hnew n); [right|].
      * apply list_elem_of_singleton in Hin. by subst.
Qed.

(** The frame of an extractor with a well-formed table: the identifier
    cells as index, one column per category holding its percentage, and
    the check passed on it. *)
Lemma extracted_spec (x : extractor) (h c : GeoDataFrame G) (id : string)
    (d : DataFrame) :
  table_ok x = true → extracted x h c id = ok d →
  ∃ xs, gdf_getitem c id = ok (index d) ∧
        Forall2 (λ c' v, percentage (clip h c) (field x) (snd c') = ok v)
                (categories x) xs ∧
        data d = percent_columns (length (index d)) (categories x) xs ∧
        checked d (prefix x) = ok tt.
Proof.
  intros [Hnd _]%andb_prop Hex. apply bool_decide_eq_true in Hnd.
  unfold extracted in Hex.
  destruct (gdf_getitem c id) as [e|ids]; [done|]. simpl in Hex.
  destruct (filled _ _ _ _) as [e|d0] eqn:Hfill; [done|]. simpl in Hex.
  destruct (checked d0 (prefix x)) as [e|[]] eqn:Hchk; [done|].
  injection Hex as <-.
  apply filled_spec in Hfill as (Hidx & xs & Hxs & Hdata); [|done|].
  - simpl in *. exists xs. by rewrite Hidx.
  - intros n _. unfold columns. simpl. apply not_elem_of_nil.
Qed.

Lemma extractors_ok (x : extractor) : x ∈ extractors → table_ok x = true.
Proof.
  revert x. apply Forall_forall. unfold extractors.
  repeat constructor; by vm_compute.
Qed.

(** ** Calls and their value-level results *)

Lemma returns_ok (m : M loc) (σ σ' : store) (r : result DataFrame) (l : loc) :
  returns m σ r → m σ = (ok l, σ') →
  ∃ d, r = ok d ∧ σ ⊆ σ' ∧ σ !! l = None ∧ σ' !! l = Some (OFrame d).
Proof.
  unfold returns, wp. intros [Hsub Hout] Hrun. rewrite Hrun in *. simpl in *.
  destruct r as [e|d]; [done|]. destruct Hout. by exists d.
Qed.

Lemma returns_raise (m : M loc) (σ σ' : store) (r : result DataFrame) (e : exn) :
  returns m σ r → m σ = (raise e, σ') → r = raise e ∧ σ ⊆ σ'.
Proof.
  unfold returns, wp. intros [Hsub Hout] Hrun. rewrite Hrun in *. simpl in *.
  destruct r as [e'|d]; [|done]. by subst.
Qed.

Lemma returns_value (m : M loc) (σ : store) (d : DataFrame) :
  returns m σ (ok d) →
  ∃ l σ', m σ = (ok l, σ') ∧ σ ⊆ σ' ∧ σ !! l = None ∧ σ' !! l = Some (OFrame d).
Proof.
  unfold returns, wp. destruct (m σ) as [[e|l] σ']; simpl; intros [Hsub Hout];
    [done|]. destruct Hout. by exists l, σ'.
Qed.

Lemma returns_exception (m : M loc) (σ : store) (e : exn) :
  returns m σ (raise e) → ∃ σ', m σ = (raise e, σ') ∧ σ ⊆ σ'.
Proof.
  unfold returns, wp. destruct (m σ) as [[e'|l] σ']; simpl; intros [Hsub Hout];
    [|done]. subst. by exists σ'.
Qed.

(** ** The consistency check *)

Lemma check_extracted_values_outcome (σ : store) (l : loc) (d : DataFrame)
    (category : string) :
  σ !! l = Some (OFrame d) →
  check_extracted_values l category σ = (checked d category, σ).
Proof.
  intros Hl.
  pose proof (wp_check_extracted_values l d category σ
                (λ r σ', (r, σ') = (checked d category, σ)) Hl eq_refl) as Hwp.
  unfold wp in Hwp. by destruct (check_extracted_values l category σ).
Qed.


Lemma first_row_percent_columns (n : nat) (cats : list (string * string))
    (xs : list float) :
  n ≠ 0 →
  map (λ c : string * list float, (fst c, nth 0 (snd c) Float.nan))
      (percent_columns n cats xs) =
  zip_with (λ c x, (fst c, x)) cats xs.
Proof.
  intros Hn. destruct n as [|n]; [done|]. revert xs.
  induction cats as [|c cats IH]; intros [|x xs]; simpl; try done.
  f_equal. apply IH.
Qed.

(** The row of an extractor that returned: its columns are those of the
    table, and the check accepted the sum of all of them. *)
Lemma extracted_row_sum (x : extractor) (h c : GeoDataFrame G) (id : string)
    (d : DataFrame) :
  table_ok x = true → extracted x h c id = ok d →
  index d ≠ [] ∧ columns d = map fst (categories x) ∧
  prefix_frame d (prefix x) = d ∧
  almost_100 (Float.row_sum (contiguous_rows d) (map snd (first_row d))) = true.
Proof.
  intros Hok Hex.
  destruct (extracted_spec x h c id d Hok Hex) as (xs & _ & Hxs & Hdata & Hchk).
  apply andb_prop in Hok as [Hnd Hpre]. apply bool_decide_eq_true in Hnd.
  assert (index d ≠ []) as Hrows.
  { intros Hnil. rewrite (checked_no_rows d _ Hnil) in Hchk. done. }
  assert (columns d = map fst (categories x)) as Hcols.
  { unfold columns. rewrite Hdata. apply columns_percent_columns.
    by eapply Forall2_length. }
  assert (prefix_frame d (prefix x) = d) as Hframe.
  { by apply prefix_frame_all; rewrite Hcols. }
  repeat split; try done.
  rewrite checked_first_row in Hchk by done. rewrite Hframe in Hchk.
  rewrite prefix_sum_all in Hchk by (by rewrite first_row_columns, Hcols).
  by destruct (almost_100 _).
Qed.


(** ** The percentage columns *)

Lemma getitem_percent_columns (n : nat) (cats : list (string * string))
    (xs : list float) (P : string * string → float → Prop) (idx : list (option string))
    (col label : string) :
  NoDup (map fst cats) → Forall2 P cats xs → (col, label) ∈ cats →
  ∃ v, P (col, label) v ∧
       getitem {| index := idx; data := percent_columns n cats xs |} col
       = Some (repeat v n).
Proof.
  intros Hnd Hall. unfold getitem. simpl.
  induction Hall as [|c x cats xs Hc Hall IH]; intros Hin.
  - by apply elem_of_nil in Hin.
  - apply NoDup_cons in Hnd as [Hfresh Hnd]. simpl.
    apply elem_of_cons in Hin as [<-|Hin].
    + exists x. simpl. by rewrite String.eqb_refl.
    + destruct (String.eqb (fst c) col) eqn:Heq.
      * apply String.eqb_eq in Heq. exfalso. apply Hfresh. rewrite Heq.
        apply list_elem_of_fmap. by exists (col, label).
      * by apply IH.
Qed.

Lemma index_of_elem_of (x : string) (l : list string) :
  x ∈ l → ∃ i, index_of x l = Some i.
Proof.
  induction l as [|y l IH]; intros Hx; [by apply elem_of_nil in Hx|]. simpl.
  destruct (String.eqb x y) eqn:Heq; [by exists 0|].
  apply elem_of_cons in Hx as [->|Hx]; [by rewrite String.eqb_refl in Heq|].
  destruct (IH Hx) as [i ->]. by exists (S i).
Qed.

Lemma gdf_getitem_length (g : GeoDataFrame G) (name : string)
    (ids : list (option string)) :
  gdf_getitem g name = ok ids → length ids = length (rows g).
Proof.
  unfold gdf_getitem, ok, raise.
  destruct (index_of name (attributes g)); [|destruct (String.eqb _ _); [|done]];
    intros [= <-]; by rewrite length_map.
Qed.

Lemma filter_all_true {A} (l : list A) : List.filter (λ _, true) l = l.
Proof. induction l as [|a l IH]; simpl; [done|]. by rewrite IH. Qed.

(** The areas of rows of which one has the area [a] and the others the
    area [0.0]. *)
Lemma areas_of_zero_rows (f : GeoRow G → bool) (a : float) (rs : list (GeoRow G)) :
  Forall (λ r, area (geometry r) = Float.zero) rs →
  Forall (λ x, x = Float.zero ∨ x = a)
         (map (λ r, area (geometry r)) (List.filter f rs)) ∧
  list_sum (map weight (map (λ r, area (geometry r)) (List.filter f rs))) = 0.
Proof.
  induction 1 as [|r rs Hr _ [IH1 IH2]]; simpl; [by split|].
  destruct (f r); simpl; [|done]. rewrite Hr. split; [|done].
  constructor; [by left|done].
Qed.

Lemma area_sum_single (f : GeoRow G → bool) (a : float) (B A : list (GeoRow G))
    (P : GeoRow G) :
  Float.is_finite a = true → Float.is_zero a = false →
  Forall (λ r, area (geometry r) = Float.zero) B →
  Forall (λ r, area (geometry r) = Float.zero) A →
  area (geometry P) = a →
  Float.nansum (map (λ r, area (geometry r)) (List.filter f (B ++ P :: A))) =
  if f P then a else Float.zero.
Proof.
  intros Hfin Hnz HB HA HP.
  destruct (areas_of_zero_rows f a B HB) as [HB1 HB2].
  destruct (areas_of_zero_rows f a A HA) as [HA1 HA2].
  assert (weight a = 1) as Hw by (unfold weight; by rewrite Hnz).
  rewrite nansum_row_sum, (row_sum_single a); try done;
    rewrite List.filter_app, !map_app; simpl.
  - rewrite list_sum_app, HB2. simpl. destruct (f P); simpl.
    + by rewrite HP, Hw.
    + by rewrite HA2.
  - apply Forall_app. split; [done|]. destruct (f P); simpl; [|done].
    constructor; [by right|done].
  - rewrite list_sum_app, HB2. simpl. destruct (f P); simpl.
    + rewrite HP, Hw, HA2. lia.
    + rewrite HA2. lia.
Qed.

(** The clip of a base map to a catchment that lies within the polygon
    [p]: the cut of [p], and cuts of area [0.0] for the polygons that
    only touch the catchment. *)
Lemma clip_contained (h c : GeoDataFrame G) (before after : list (GeoRow G))
    (p : GeoRow G) :
  let m := union_all (map geometry (rows c)) in
  rows h = before ++ p :: after →
  intersects (geometry p) m = true →
  (∀ q, q ∈ before ++ after → intersects (geometry q) m = true →
        area (intersection (geometry q) m) = Float.zero) →
  ∃ B A, rows (clip h c) =
         B ++ {| cells := cells p; geometry := intersection (geometry p) m |} :: A ∧
         Forall (λ r, area (geometry r) = Float.zero) B ∧
         Forall (λ r, area (geometry r) = Float.zero) A.
Proof.
  intros m Hrows Hp Hzero.
  assert (∀ l, l ⊆ before ++ after →
    Forall (λ r, area (geometry r) = Float.zero)
      (map (λ r, {| cells := cells r; geometry := intersection (geometry r) m |})
           (List.filter (λ r, intersects (geometry r) m) l))) as Hcut.
  { intros l Hl. apply Forall_map, Forall_forall. intros r Hr.
    apply list_elem_of_In, filter_In in Hr as [Hr Hint]. simpl.
    apply Hzero; [|done]. by apply Hl, list_elem_of_In. }
  eexists _, _. split; [|split].
  - unfold clip. fold m. simpl. rewrite Hrows, List.filter_app. simpl.
    rewrite Hp, map_app. simpl. reflexivity.
  - apply Hcut. intros r Hr. apply elem_of_app. by left.
  - apply Hcut. intros r Hr. apply elem_of_app. by right.
Qed.

Lemma percentage_single (g : GeoDataFrame G) (fld label : string) (i : nat)
    (B A : list (GeoRow G)) (P : GeoRow G) (v : string) (ma : positive) (ea : Z) :
  index_of fld (attributes g) = Some i →
  rows g = B ++ P :: A →
  Forall (λ r, area (geometry r) = Float.zero) B →
  Forall (λ r, area (geometry r) = Float.zero) A →
  area (geometry P) = S754_finite false ma ea →
  mjoin (nth_error (cells P) i) = Some v →
  percentage g fld label =
  ok (if String.eqb v label then Float.hundred else Float.zero).
Proof.
  intros Hi Hrows HB HA HP Hv. unfold percentage, where_eq. rewrite Hi. simpl.
  unfold area_sum. simpl. rewrite Hrows.
  rewrite (area_sum_single _ (S754_finite false ma ea) B A P); try done.
  rewrite <- (filter_all_true (B ++ P :: A)).
  rewrite (area_sum_single _ (S754_finite false ma ea) B A P); try done.
  rewrite Hv. unfold ok. f_equal. destruct (String.eqb v label).
  - by rewrite div_self.
  - reflexivity.
Qed.

(** The column assignments of an extractor, when every percentage is
    known. *)
Lemma filled_values (g : GeoDataFrame G) (fld : string)
    (v : string * string → float) (cats : list (string * string)) :
  NoDup (map fst cats) →
  (∀ c, c ∈ cats → percentage g fld (snd c) = ok (v c)) →
  ∀ d, (∀ n, n ∈ map fst cats → n ∉ columns d) →
  filled g fld cats d =
  ok {| index := index d;
        data := data d ++ map (λ c, (fst c, repeat (v c) (length (index d)))) cats |}.
Proof.
  induction cats as [|c cats IH]; simpl; intros Hnd Hv d Hnew.
  - rewrite app_nil_r. by destruct d.
  - apply NoDup_cons in Hnd as [Hc Hnd].
    rewrite Hv by (by left). simpl. rewrite IH; [|done| |].
    + unfold setitem_scalar, setitem.
      replace (mem_string (fst c) (columns d)) with false
        by (symmetry; apply mem_string_false, Hnew; by left).
      simpl. by rewrite <- app_assoc.
    + intros c' Hc'. apply Hv. by right.
    + intros n Hn. unfold setitem_scalar, setitem.
      replace (mem_string (fst c) (columns d)) with false
        by (symmetry; apply mem_string_false, Hnew; by left).
      unfold columns. simpl. rewrite map_app. simpl.
      intros [Hin|Hin]%elem_of_app.
      * by apply (Hnew n); [right|].
      * apply list_elem_of_singleton in Hin. by subst.
Qed.

Lemma one_label_weight (v : string) (cats : list (string * string)) :
  NoDup (map snd cats) →
  list_sum (map weight (map (λ c : string * string,
                               if String.eqb v (snd c) then Float.hundred
                               else Float.zero) cats)) =
  if mem_string v (map snd cats) then 1 else 0.
Proof.
  induction cats as [|c cats IH]; simpl; intros Hnd; [done|].
  apply NoDup_cons in Hnd as [Hc Hnd]. rewrite IH by done.
  destruct (String.eqb v (snd c)) eqn:Heq; simpl; [|done].
  apply String.eqb_eq in Heq. subst v.
  replace (mem_string (snd c) (map snd cats)) with false; [done|].
  symmetry. by apply mem_string_false.
Qed.

Lemma extractors_labels_ok (x : extractor) : x ∈ extractors → labels_ok x = true.
Proof.
  revert x. apply Forall_forall. unfold extractors.
  repeat constructor; by vm_compute.
Qed.

(** The frame of an extractor on a catchment that lies within a
    polygon of label [v]. *)
Lemma extracted_contained (x : extractor) (h c : GeoDataFrame G) (id : string)
    (ids : list (option string)) (before after : list (GeoRow G)) (p : GeoRow G)
    (v : string) (ma : positive) (ea : Z) :
  let m := union_all (map geometry (rows c)) in
  table_ok x = true → labels_ok x = true →
  gdf_getitem c id = ok ids → rows c ≠ [] →
  rows h = before ++ p :: after →
  intersects (geometry p) m = true →
  area (intersection (geometry p) m) = S754_finite false ma ea →
  field x ∈ attributes h → gdf_cell h p (field x) = Some v →
  v ∈ map snd (categories x) →
  (∀ q, q ∈ before ++ after → intersects (geometry q) m = true →
        area (intersection (geometry q) m) = Float.zero) →
  extracted x h c id =
  ok {| index := ids;
        data := map (λ c', (fst c', repeat (if String.eqb v (snd c')
                                            then Float.hundred else Float.zero)
                                           (length ids)))
                    (categories x) |}.
Proof.
  intros m Hok Hlabels Hids Hc Hrows Hp Harea Hfld Hcell Hv Hzero.
  apply andb_prop in Hok as [Hnd Hpre]. apply bool_decide_eq_true in Hnd.
  apply bool_decide_eq_true in Hlabels.
  destruct (index_of_elem_of _ _ Hfld) as [i Hi].
  unfold gdf_cell in Hcell. rewrite Hi in Hcell.
  destruct (clip_contained h c before after p Hrows Hp Hzero)
    as (B & A & Hclip & HB & HA). fold m in Hclip.
  unfold extracted. rewrite Hids. cbn [rbind ok].
  rewrite (filled_values (clip h c) (field x)
             (λ c', if String.eqb v (snd c') then Float.hundred else Float.zero));
    [|done| |intros n _; apply not_elem_of_nil].
  2:{ intros c' _.
      by apply (percentage_single _ _ _ i B A
                  {| cells := cells p; geometry := intersection (geometry p) m |}
                  v ma ea). }
  cbn [rbind ok index data app].
  assert (length ids ≠ 0) as Hlen.
  { rewrite (gdf_getitem_length c id ids Hids). by destruct (rows c). }
  rewrite checked_first_row by (simpl; by destruct ids).
  replace (almost_100 _) with true; [done|]. symmetry.
  rewrite prefix_sum_all.
  - unfold first_row. cbn [data index]. rewrite !map_map. cbn [snd fst].
    erewrite (map_ext _ (λ c' : string * string,
                if String.eqb v (snd c') then Float.hundred else Float.zero)).
    2:{ intros c'. destruct (length ids); [done|]. reflexivity. }
    rewrite (row_sum_single Float.hundred); try done.
    + rewrite one_label_weight by done.
      replace (mem_string v _) with true
        by (symmetry; by apply mem_string_elem_of).
      reflexivity.
    + apply Forall_map, Forall_forall. intros c' _.
      destruct (String.eqb v (snd c')); [by right|by left].
    + rewrite one_label_weight by done. destruct (mem_string _ _); lia.
  - rewrite first_row_columns. unfold columns. cbn [data]. by rewrite map_map.
  - rewrite first_row_columns. unfold columns. cbn [data]. by rewrite map_map.
Qed.

(** C3. In the frame an extractor returns, the column of every
    category holds [(a / t) * 100], where [a] is the sum of the areas
    of the clipped polygons whose field equals the category's label and
    [t] the sum of the areas of all clipped polygons. For a catchment
    set that lies within one polygon [p] of the base map, of label [v]
    in the extractor's field (the cut of [p] has a positive finite
    area, and every other polygon misses the catchments or meets them
    in a cut of area [0.0], as a neighbour that shares a stretch of
    boundary does), the extractor returns, and the column of [v] holds
    100 and every other column 0. The identifier field name and the
    field of the extractor each stand for one column of their frame. *)
Theorem extractor_columns_are_area_percentages :
  (∀ (x : extractor) (σ σ' : store) (lh lc l : loc) (h c : GeoDataFrame G)
     (id : string),
     x ∈ extractors →
     σ !! lh = Some (OGeo h) → σ !! lc = Some (OGeo c) →
     extract x lh lc id σ = (ok l, σ') →
     ∃ d, σ' !! l = Some (OFrame d) ∧
       ∀ col label, (col, label) ∈ categories x →
         ∃ part, where_eq (clip h c) (field x) label = ok part ∧
                 getitem d col =
                 Some (repeat (Float.mul (Float.div (area_sum part)
                                                    (area_sum (clip h c)))
                                         Float.hundred)
                              (length (index d)))) ∧
  (∀ (x : extractor) (σ : store) (lh lc : loc) (h c : GeoDataFrame G) (id : string)
     (ids : list (option string)) (before after : list (GeoRow G)) (p : GeoRow G)
     (v : string) (ma : positive) (ea : Z),
     x ∈ extractors →
     σ !! lh = Some (OGeo h) → σ !! lc = Some (OGeo c) →
     occurrences id (column_labels c) = 1 → gdf_getitem c id = ok ids →
     rows c ≠ [] →
     field x ∈ attributes h → occurrences (field x) (column_labels h) = 1 →
     rows h = before ++ p :: after →
     intersects (geometry p) (union_all (map geometry (rows c))) = true →
     area (intersection (geometry p) (union_all (map geometry (rows c))))
     = S754_finite false ma ea →
     gdf_cell h p (field x) = Some v →
     v ∈ map snd (categories x) →
     (∀ q, q ∈ before ++ after →
           intersects (geometry q) (union_all (map geometry (rows c))) = true →
           area (intersection (geometry q) (union_all (map geometry (rows c))))
           = Float.zero) →
     ∃ l σ' d, extract x lh lc id σ = (ok l, σ') ∧
       σ' !! l = Some (OFrame d) ∧ index d = ids ∧
       ∀ col label, (col, label) ∈ categories x →
         getitem d col =
         Some (repeat (if String.eqb v label then Float.hundred else Float.zero)
                      (length ids))).
Proof.
  split.
  - intros x σ σ' lh lc l h c id Hx Hh Hc Hrun.
    destruct (returns_ok _ _ _ _ _ (extract_from_huek_returns x lh lc h c id σ Hh Hc)
                Hrun) as (d & Hex & _ & _ & Hl).
    exists d. split; [done|].
    pose proof (extractors_ok x Hx) as Hok.
    destruct (extracted_spec x h c id d Hok Hex) as (xs & _ & Hxs & Hdata & _).
    apply andb_prop in Hok as [Hnd _]. apply bool_decide_eq_true in Hnd.
    intros col label Hin.
    destruct (getitem_percent_columns (length (index d)) _ _ _ (index d) col label
                Hnd Hxs Hin) as (v & Hv & Hget).
    simpl in Hv. unfold percentage in Hv.
    destruct (where_eq (clip h c) (field x) label) as [e|part]; [done|].
    injection Hv as <-. exists part. split; [done|].
    destruct d as [idx dat]. simpl in *. by rewrite Hdata.
  - intros x σ lh lc h c id ids before after p v ma ea Hx Hh Hc _ Hids Hrows
      Hfld _ Hh_rows Hp Harea Hcell Hv Hzero.
    pose proof (extractors_ok x Hx) as Hok.
    pose proof (extract_from_huek_returns x lh lc h c id σ Hh Hc) as Hret.
    rewrite (extracted_contained x h c id ids before after p v ma ea Hok
               (extractors_labels_ok x Hx) Hids Hrows Hh_rows Hp Harea Hfld Hcell
               Hv Hzero) in Hret.
    apply returns_value in Hret as (l & σ' & Hrun & _ & _ & Hl).
    eexists l, σ', _. split; [done|]. split; [done|]. split; [done|].
    intros col label Hin.
    apply andb_prop in Hok as [Hnd _]. apply bool_decide_eq_true in Hnd.
    unfold getitem. cbn [data]. clear -Hnd Hin.
    induction (categories x) as [|c' cats IH]; [by apply elem_of_nil in Hin|].
    simpl in *. apply NoDup_cons in Hnd as [Hfresh Hnd].
    apply elem_of_cons in Hin as [<-|Hin]; [by rewrite String.eqb_refl|].
    destruct (String.eqb (fst c') col) eqn:Heq; [|by apply IH].
    apply String.eqb_eq in Heq. exfalso. apply Hfresh. rewrite Heq.
    apply list_elem_of_fmap. by exists (col, label).
Qed.

(** ** The merged row of one catchment *)

Lemma percent_columns_share (g : GeoDataFrame G) (fld : string)
    (cats : list (string * string)) (xs : list float) :
  Forall2 (λ c v, percentage g fld (snd c) = ok v) cats xs →
  percent_columns 1 cats xs = map (λ c, (fst c, [share g fld (snd c)])) cats.
Proof.
  induction 1 as [|c v cats xs Hv _ IH]; simpl; [done|].
  f_equal; [|exact IH]. unfold share. by rewrite Hv.
Qed.

Lemma extracted_single_row (x : extractor) (h c : GeoDataFrame G) (id : string)
    (d : DataFrame) :
  table_ok x = true → length (rows c) = 1 → extracted x h c id = ok d →
  ∃ i, gdf_getitem c id = ok [i] ∧
       d = single_row i x (λ c', share (clip h c) (field x) (snd c')).
Proof.
  intros Hok Hone Hex.
  destruct (extracted_spec x h c id d Hok Hex) as (xs & Hids & Hxs & Hdata & _).
  assert (∃ i, index d = [i]) as [i Hi].
  { apply gdf_getitem_length in Hids. rewrite Hone in Hids.
    destruct (index d) as [|i [|i' idx]]; try done. by exists i. }
  exists i. rewrite Hids, Hi. split; [done|].
  destruct d as [idx dat]. simpl in *. subst idx. unfold single_row. f_equal.
  rewrite Hdata. simpl. by apply percent_columns_share.
Qed.

(** The merged row of a catchment on which the six extractors return:
    the loop raises [AssertionError] unless the six waterbody cells
    agree and the six no-data cells agree. *)
Lemma merged_of_rows (h cs : GeoDataFrame G) (r : GeoRow G) (id : string)
    (d_kf d_ch d_ha d_vf d_ga d_gc : DataFrame) :
  let c := catchment_of h cs r in
  extracted kf h c id = ok d_kf → extracted ch h c id = ok d_ch →
  extracted ha h c id = ok d_ha → extracted vf h c id = ok d_vf →
  extracted ga h c id = ok d_ga → extracted gc h c id = ok d_gc →
  let rows6 := [d_kf; d_ch; d_ha; d_vf; d_ga; d_gc] in
  (∃ i v_kf v_ch v_ha v_vf v_ga v_gc,
     gdf_getitem c id = ok [i] ∧
     rows6 = [single_row i kf v_kf; single_row i ch v_ch; single_row i ha v_ha;
              single_row i vf v_vf; single_row i ga v_ga; single_row i gc v_gc]) ∧
  merged h c id =
  if agree (flat_map (cells_named "waterbody") rows6) then
    if agree (flat_map (cells_named "no_data") rows6) then ok (merged_row rows6)
    else raise AssertionError
  else raise AssertionError.
Proof.
  intros c Hkf Hch Hha Hvf Hga Hgc rows6. unfold rows6, merged.
  rewrite Hkf, Hch, Hha, Hvf, Hga, Hgc. cbn [rbind].
  apply extracted_single_row in Hkf as (i & Hi & ->); [|done..].
  apply extracted_single_row in Hch as (i1 & Hi1 & ->); [|done..].
  apply extracted_single_row in Hha as (i2 & Hi2 & ->); [|done..].
  apply extracted_single_row in Hvf as (i3 & Hi3 & ->); [|done..].
  apply extracted_single_row in Hga as (i4 & Hi4 & ->); [|done..].
  apply extracted_single_row in Hgc as (i5 & Hi5 & ->); [|done..].
  assert (i1 = i ∧ i2 = i ∧ i3 = i ∧ i4 = i ∧ i5 = i) as (-> & -> & -> & -> & ->).
  { unfold ok in *. rewrite Hi in *. repeat split; congruence. }
  split; [by eexists _, _, _, _, _, _, _|].
  apply merged_rows_collapse.
Qed.

Lemma loop_body_returns (σ : store) (lh lcs ldf : loc) (h cs : GeoDataFrame G)
    (acc : DataFrame) (id : string) (r : GeoRow G) :
  σ !! lh = Some (OGeo h) → σ !! lcs = Some (OGeo cs) →
  σ !! ldf = Some (OFrame acc) →
  returns (loop_body lh lcs id ldf r) σ
          (rbind (merged h (catchment_of h cs r) id) (λ m, ok (concat_axis0 acc m))).
Proof.
  intros Hh Hcs Hdf. unfold returns.
  apply (wp_loop_body _ _ _ h cs acc); [done..|].
  destruct (merged h (catchment_of h cs r) id) as [e|m]; simpl.
  - by intros σ' Hsub.
  - by intros l σ' Hsub Hl Hl'.
Qed.

(** C2. For a catchment on which the six extractors return rows
    [d_kf], ..., [d_gc] (the frames behind the references that the
    extractor calls of the loop body return, by
    [extract_from_huek_returns]): when the six waterbody cells agree and the six
    no-data cells agree, the loop body returns the accumulated table
    extended by a merged row whose only column with [waterbody] in its
    name is [waterbody_perc] and whose only column with [no_data] in
    its name is [no_data_perc], holding the shared cells; otherwise the
    loop body raises [AssertionError]. *)
Theorem waterbody_and_no_data_collapse (σ : store) (lh lcs ldf : loc)
    (h cs : GeoDataFrame G) (acc : DataFrame) (id : string) (r : GeoRow G)
    (d_kf d_ch d_ha d_vf d_ga d_gc : DataFrame) :
  σ !! lh = Some (OGeo h) → σ !! lcs = Some (OGeo cs) →
  σ !! ldf = Some (OFrame acc) →
  extracted kf h (catchment_of h cs r) id = ok d_kf →
  extracted ch h (catchment_of h cs r) id = ok d_ch →
  extracted ha h (catchment_of h cs r) id = ok d_ha →
  extracted vf h (catchment_of h cs r) id = ok d_vf →
  extracted ga h (catchment_of h cs r) id = ok d_ga →
  extracted gc h (catchment_of h cs r) id = ok d_gc →
  let rows6 := [d_kf; d_ch; d_ha; d_vf; d_ga; d_gc] in
  let waterbody := flat_map (cells_named "waterbody") rows6 in
  let no_data := flat_map (cells_named "no_data") rows6 in
  (agree waterbody = true → agree no_data = true →
   ∃ l σ' m,
     loop_body lh lcs id ldf r σ = (ok l, σ') ∧
     σ' !! l = Some (OFrame (concat_axis0 acc m)) ∧
     m = merged_row rows6 ∧
     columns m = merged_columns ∧
     List.filter (contains "waterbody") (columns m) = ["waterbody_perc"] ∧
     List.filter (contains "no_data") (columns m) = ["no_data_perc"] ∧
     getitem m "waterbody_perc" = Some (take 1 waterbody) ∧
     getitem m "no_data_perc" = Some (take 1 no_data)) ∧
  (agree waterbody = false ∨ agree no_data = false →
   ∃ σ', loop_body lh lcs id ldf r σ = (raise AssertionError, σ')).
Proof.
  intros Hh Hcs Hdf Hkf Hch Hha Hvf Hga Hgc rows6 waterbody no_data.
  destruct (merged_of_rows h cs r id _ _ _ _ _ _ Hkf Hch Hha Hvf Hga Hgc)
    as [(i & v_kf & v_ch & v_ha & v_vf & v_ga & v_gc & _ & Hrows) Hmerged].
  fold rows6 in Hrows, Hmerged. fold waterbody no_data in Hmerged.
  pose proof (loop_body_returns σ lh lcs ldf h cs acc id r Hh Hcs Hdf) as Hret.
  rewrite Hmerged in Hret. split.
  - intros Hwb Hnd. rewrite Hwb, Hnd in Hret. cbn [rbind ok] in Hret.
    apply returns_value in Hret as (l & σ' & Hrun & _ & _ & Hl).
    exists l, σ', (merged_row rows6). split; [done|]. split; [done|].
    split; [done|]. unfold waterbody, no_data. rewrite Hrows.
    apply (merged_row_shape i v_kf v_ch v_ha v_vf v_ga v_gc).
  - intros Hbad.
    assert ((if agree waterbody
             then if agree no_data then ok (merged_row rows6)
                  else raise AssertionError
             else raise AssertionError) = raise AssertionError) as Hraise.
    { destruct Hbad as [-> | ->]; [done|]. by destruct (agree waterbody). }
    rewrite Hraise in Hret. cbn [rbind raise] in Hret.
    apply returns_exception in Hret as (σ' & Hrun & _). by exists σ'.
Qed.

(** ** Catchments that fail *)

Lemma extracted_raises_without_coverage (x : extractor) (h c : GeoDataFrame G)
    (id : string) :
  table_ok x = true → Float.is_zero (area_sum (clip h c)) = true →
  ∃ e, extracted x h c id = raise e.
Proof.
  intros Hok Hzero. destruct (extracted x h c id) as [e|d] eqn:Hex; [by exists e|].
  exfalso.
  destruct (extracted_spec x h c id d Hok Hex) as (xs & _ & Hxs & Hdata & _).
  destruct (extracted_row_sum x h c id d Hok Hex) as (Hrows & _ & _ & Hsum).
  assert (map snd (first_row d) = xs) as Hcells.
  { unfold first_row. rewrite Hdata, first_row_percent_columns.
    - apply snd_zip_with_names. by eapply Forall2_length.
    - by destruct (index d). }
  rewrite Hcells, row_sum_not_finite in Hsum; [done|].
  clear -Hxs Hzero. induction Hxs as [|c' v cats xs Hv _ IH]; constructor; [|done].
  unfold percentage in Hv. destruct (where_eq _ _ _) as [e|part]; [done|].
  injection Hv as <-. by apply percent_of_nothing_not_finite.
Qed.

Lemma accumulated_raises (h cs : GeoDataFrame G) (id : string) (r : GeoRow G)
    (e : exn) (rs : list (GeoRow G)) :
  r ∈ rs → merged h (catchment_of h cs r) id = raise e →
  ∀ acc, ∃ e', accumulated h cs id rs acc = raise e'.
Proof.
  intros Hin Hfail. induction rs as [|r' rs IH]; intros acc; simpl.
  - by apply elem_of_nil in Hin.
  - destruct (merged h (catchment_of h cs r') id) as [e'|d] eqn:Hm;
      [by exists e'|]. simpl.
    apply elem_of_cons in Hin as [->|Hin]; [unfold raise in *; congruence|].
    by apply IH.
Qed.

Lemma table_raises (h c cs : GeoDataFrame G) (id : string) (r : GeoRow G) (e : exn) :
  to_crs c (crs h) = ok cs → r ∈ rows cs →
  merged h (catchment_of h cs r) id = raise e →
  ∃ e', table h c id = raise e'.
Proof.
  intros Hcs Hin Hfail. unfold table. rewrite Hcs. simpl.
  destruct (accumulated_raises h cs id r e (rows cs) Hin Hfail empty_frame)
    as [e' He'].
  exists e'. by rewrite He'.
Qed.

Lemma aggregator_raises (σ : store) (lh lc : loc) (h c : GeoDataFrame G)
    (id : string) (e : exn) :
  σ !! lh = Some (OGeo h) → σ !! lc = Some (OGeo c) →
  table h c id = raise e →
  ∃ σ', extract_hydrogeology_attributes_huek lh lc id σ = (raise e, σ').
Proof.
  intros Hh Hc Htable.
  pose proof (extract_hydrogeology_attributes_huek_returns lh lc h c id σ Hh Hc)
    as Hret.
  rewrite Htable in Hret. apply returns_exception in Hret as (σ' & Hrun & _).
  by exists σ'.
Qed.

(** C4. An extractor raises on a catchment whose clipped polygons have
    zero total area, and the whole extraction raises when the catchment
    set contains such a catchment: no row of zeros or NaN reaches the
    output table. *)
Theorem no_coverage_raises :
  (∀ (x : extractor) (σ : store) (lh lc : loc) (h c : GeoDataFrame G) (id : string),
     x ∈ extractors →
     σ !! lh = Some (OGeo h) → σ !! lc = Some (OGeo c) →
     Float.is_zero (area_sum (clip h c)) = true →
     ∃ e σ', extract x lh lc id σ = (raise e, σ')) ∧
  (∀ (σ : store) (lh lc : loc) (h c cs : GeoDataFrame G) (id : string) (r : GeoRow G),
     σ !! lh = Some (OGeo h) → σ !! lc = Some (OGeo c) →
     to_crs c (crs h) = ok cs → r ∈ rows cs →
     Float.is_zero (area_sum (clip h (catchment_of h cs r))) = true →
     ∃ e σ', extract_hydrogeology_attributes_huek lh lc id σ = (raise e, σ')).
Proof.
  split.
  - intros x σ lh lc h c id Hx Hh Hc Hzero.
    destruct (extracted_raises_without_coverage x h c id (extractors_ok x Hx) Hzero)
      as [e He].
    pose proof (extract_from_huek_returns x lh lc h c id σ Hh Hc) as Hret.
    rewrite He in Hret. apply returns_exception in Hret as (σ' & Hrun & _).
    by exists e, σ'.
  - intros σ lh lc h c cs id r Hh Hc Hcs Hin Hzero.
    destruct (extracted_raises_without_coverage ch h (catchment_of h cs r) id
                eq_refl Hzero) as [e He].
    destruct (table_raises h c cs id r e Hcs Hin) as [e' He'].
    { unfold merged. by rewrite He. }
    destruct (aggregator_raises σ lh lc h c id e' Hh Hc He') as [σ' Hrun].
    by exists e', σ'.
Qed.

(** C5. When the loop body raises on a catchment of the set (run in any
    store that holds the base map, the reprojected catchments and a
    table accumulated so far), the whole extraction raises: the call
    returns no table, whatever rows the earlier catchments
    contributed. *)
Theorem one_failing_catchment_aborts (σ σ0 σ1 : store) (lh lc lcs ldf : loc)
    (h c cs : GeoDataFrame G) (acc : DataFrame) (id : string) (r : GeoRow G)
    (e : exn) :
  σ !! lh = Some (OGeo h) → σ !! lc = Some (OGeo c) →
  to_crs c (crs h) = ok cs → r ∈ rows cs →
  σ0 !! lh = Some (OGeo h) → σ0 !! lcs = Some (OGeo cs) →
  σ0 !! ldf = Some (OFrame acc) →
  loop_body lh lcs id ldf r σ0 = (raise e, σ1) →
  ∃ e' σ', extract_hydrogeology_attributes_huek lh lc id σ = (raise e', σ').
Proof.
  intros Hh Hc Hcs Hin Hh0 Hcs0 Hdf0 Hbody.
  pose proof (loop_body_returns σ0 lh lcs ldf h cs acc id r Hh0 Hcs0 Hdf0) as Hret.
  apply (returns_raise _ _ _ _ _ Hret) in Hbody as [Hfail _].
  assert (merged h (catchment_of h cs r) id = raise e) as Hmerged.
  { by destruct (merged h (catchment_of h cs r) id). }
  destruct (table_raises h c cs id r e Hcs Hin Hmerged) as [e' He'].
  destruct (aggregator_raises σ lh lc h c id e' Hh Hc He') as [σ' Hrun].
  by exists e', σ'.
Qed.

(** ** The output table *)

Lemma merged_shape (h cs : GeoDataFrame G) (r : GeoRow G) (id : string)
    (m : DataFrame) :
  merged h (catchment_of h cs r) id = ok m →
  index m = [gdf_cell cs r id] ∧ columns m = merged_columns.
Proof.
  intros Hm.
  destruct (extracted kf h (catchment_of h cs r) id) as [e|d_kf] eqn:Hkf;
    [unfold merged in Hm; rewrite Hkf in Hm;
     by destruct (extracted ch h (catchment_of h cs r) id)|].
  destruct (extracted ch h (catchment_of h cs r) id) as [e|d_ch] eqn:Hch;
    [unfold merged in Hm; by rewrite Hch in Hm|].
  destruct (extracted ha h (catchment_of h cs r) id) as [e|d_ha] eqn:Hha;
    [unfold merged in Hm; by rewrite Hch, Hkf, Hha in Hm|].
  destruct (extracted ga h (catchment_of h cs r) id) as [e|d_ga] eqn:Hga;
    [unfold merged in Hm; by rewrite Hch, Hkf, Hha, Hga in Hm|].
  destruct (extracted vf h (catchment_of h cs r) id) as [e|d_vf] eqn:Hvf;
    [unfold merged in Hm; by rewrite Hch, Hkf, Hha, Hga, Hvf in Hm|].
  destruct (extracted gc h (catchment_of h cs r) id) as [e|d_gc] eqn:Hgc;
    [unfold merged in Hm; by rewrite Hch, Hkf, Hha, Hga, Hvf, Hgc in Hm|].
  destruct (merged_of_rows h cs r id _ _ _ _ _ _ Hkf Hch Hha Hvf Hga Hgc)
    as [(i & v_kf & v_ch & v_ha & v_vf & v_ga & v_gc & Hi & Hrows) Hmerged].
  rewrite Hmerged, Hrows in Hm.
  destruct (agree _); [|done]. destruct (agree _); [|done].
  injection Hm as <-.
  destruct (merged_row_shape i v_kf v_ch v_ha v_vf v_ga v_gc)
    as (Hidx & Hcols & _).
  split; [|done]. rewrite Hidx. f_equal.
  unfold gdf_getitem, gdf_cell, catchment_of, frame_of_row in *. simpl in Hi.
  destruct (index_of id (attributes cs));
    [|destruct (String.eqb id (geometry_name cs)); [|done]];
    simpl in Hi; unfold ok in Hi; congruence.
Qed.

Lemma accumulated_rows (h cs : GeoDataFrame G) (id : string) (rs : list (GeoRow G)) :
  ∀ (acc t : DataFrame),
  accumulated h cs id rs acc = ok t →
  ∃ ds, Forall2 (λ r m, merged h (catchment_of h cs r) id = ok m) rs ds ∧
        t = fold_left concat_axis0 ds acc.
Proof.
  induction rs as [|r rs IH]; simpl; intros acc t Hacc.
  - injection Hacc as <-. exists []. by split; [constructor|].
  - destruct (merged h (catchment_of h cs r) id) as [e|m] eqn:Hm; [done|].
    simpl in Hacc. apply IH in Hacc as (ds & Hds & ->).
    exists (m :: ds). by split; [constructor|].
Qed.


(** ** Determinism and the caller's objects *)

(** C8. Two runs on the same base map, the same catchment set and the
    same identifier field name, in any two stores and at any
    references, end alike: both raise the same exception, or both
    return a reference to the same (rounded) table. *)
Theorem two_runs_agree (σ1 σ2 : store) (lh1 lc1 lh2 lc2 : loc)
    (h c : GeoDataFrame G) (id : string) :
  σ1 !! lh1 = Some (OGeo h) → σ1 !! lc1 = Some (OGeo c) →
  σ2 !! lh2 = Some (OGeo h) → σ2 !! lc2 = Some (OGeo c) →
  match extract_hydrogeology_attributes_huek lh1 lc1 id σ1,
        extract_hydrogeology_attributes_huek lh2 lc2 id σ2 with
  | (inr l1, σ1'), (inr l2, σ2') =>
      ∃ t, σ1' !! l1 = Some (OFrame t) ∧ σ2' !! l2 = Some (OFrame t)
  | (inl e1, _), (inl e2, _) => e1 = e2
  | _, _ => False
  end.
Proof.
  intros Hh1 Hc1 Hh2 Hc2.
  pose proof (extract_hydrogeology_attributes_huek_returns lh1 lc1 h c id σ1 Hh1 Hc1)
    as Hret1.
  pose proof (extract_hydrogeology_attributes_huek_returns lh2 lc2 h c id σ2 Hh2 Hc2)
    as Hret2.
  unfold returns, wp in *.
  destruct (extract_hydrogeology_attributes_huek lh1 lc1 id σ1) as [[e1|l1] σ1'],
           (extract_hydrogeology_attributes_huek lh2 lc2 id σ2) as [[e2|l2] σ2'];
    simpl in *; destruct Hret1 as [_ Hout1], Hret2 as [_ Hout2];
    destruct (table h c id) as [e|t]; try done.
  - congruence.
  - exists t. by destruct Hout1, Hout2.
Qed.

(** C9. However the call ends, every object that the store held before
    the call is still there and unchanged, in particular the base map
    and the caller's catchment set; a returned table lives at a
    reference that was not in use before. *)
Theorem inputs_unchanged (σ σ' : store) (lh lc : loc) (h c : GeoDataFrame G)
    (id : string) (out : result loc) :
  σ !! lh = Some (OGeo h) → σ !! lc = Some (OGeo c) →
  extract_hydrogeology_attributes_huek lh lc id σ = (out, σ') →
  σ' !! lh = Some (OGeo h) ∧ σ' !! lc = Some (OGeo c) ∧
  (∀ k o, σ !! k = Some o → σ' !! k = Some o) ∧
  (∀ l, out = ok l → σ !! l = None ∧ l ≠ lh ∧ l ≠ lc).
Proof.
  intros Hh Hc Hrun.
  pose proof (extract_hydrogeology_attributes_huek_returns lh lc h c id σ Hh Hc)
    as Hret.
  unfold returns, wp in Hret. rewrite Hrun in Hret. simpl in Hret.
  destruct Hret as [Hsub Hout].
  split; [by eapply lookup_weaken|]. split; [by eapply lookup_weaken|].
  split; [intros k o Hk; by eapply lookup_weaken|].
  intros l ->. destruct (table h c id) as [e|t]; [done|].
  destruct Hout as [Hfresh _]. split; [done|]. split; intros ->; congruence.
Qed.

(** ** The permeability columns *)

(** C7, as the code has it. The row of the permeability extractor has
    the 14 columns of [kf_categories]: seven base classes, four range
    classes, the class "highly variable", the waterbody column and the
    no-data column. *)
Theorem kf_row_has_14_columns (σ σ' : store) (lh lc l : loc) (h c : GeoDataFrame G)
    (id : string) :
  σ !! lh = Some (OGeo h) → σ !! lc = Some (OGeo c) →
  extract_kf_from_huek lh lc id σ = (ok l, σ') →
  ∃ d, σ' !! l = Some (OFrame d) ∧
       columns d = map fst kf_categories ∧
       length (columns d) = 14 ∧
       kf_count BaseClass = 7 ∧ kf_count RangeClass = 4 ∧
       kf_count VariableClass = 1 ∧
       kf_count WaterbodyClass = 1 ∧ kf_count NoDataClass = 1.
Proof.
  intros Hh Hc Hrun.
  destruct (returns_ok _ _ _ _ _ (extract_from_huek_returns kf lh lc h c id σ Hh Hc)
              Hrun) as (d & Hex & _ & _ & Hl).
  exists d. split; [done|].
  destruct (extracted_row_sum kf h c id d eq_refl Hex) as (_ & Hcols & _).
  split; [done|]. split; [by rewrite Hcols|]. by vm_compute.
Qed.

End Proofs.

(** ** Instances on the grid geometry *)



(** The end-to-end scenario of the specification: the table has one
    row, 60 in [kf_very_high_perc], 40 in [waterbody_perc] and 0 in
    the other permeability columns. *)
Example scenario_table :
  let run := extract_hydrogeology_attributes_huek 1%positive 2%positive "gauge_id"
               (caller scenario_map scenario_gauges) in
  run.1 = ok 20%positive ∧
  match run.2 !! 20%positive with
  | Some (OFrame t) =>
      index t = [Some "DE1"] ∧
      getitem t "kf_very_high_perc" = Some [Float.of_Z 60] ∧
      getitem t "waterbody_perc" = Some [Float.of_Z 40] ∧
      getitem t "kf_high_perc" = Some [Float.zero] ∧
      getitem t "kf_highly_variable_perc" = Some [Float.zero] ∧
      getitem t "no_data_perc" = Some [Float.zero]
  | _ => False
  end.
Proof.
  intros run. split; [vm_compute; reflexivity|]. vm_compute.
  split; [reflexivity|]. split; [reflexivity|]. split; [reflexivity|].
  split; [reflexivity|]. split; reflexivity.
Qed.



Lemma extractor_columns_are_area_percentages_witness :
  (∃ d, (extract kf 1%positive 2%positive "gauge_id" touching_caller).2 !! 4%positive
        = Some (OFrame d) ∧
     ∀ col label, (col, label) ∈ categories kf →
       ∃ part, where_eq (clip touching_map touching_gauges) (field kf) label = ok part ∧
               getitem d col =
               Some (repeat (Float.mul
                               (Float.div (area_sum part)
                                          (area_sum (clip touching_map touching_gauges)))
                               Float.hundred)
                            (length (index d)))) ∧
  (∃ l σ' d, extract kf 1%positive 2%positive "gauge_id" touching_caller = (ok l, σ') ∧
     σ' !! l = Some (OFrame d) ∧ index d = [Some "DE3"] ∧
     ∀ col label, (col, label) ∈ categories kf →
       getitem d col =
       Some (repeat (if String.eqb "sehr hoch (>1E-2)" label
                     then Float.hundred else Float.zero) 1)) ∧
  length (rows (clip touching_map touching_gauges)) = 2 ∧
  (∃ l σ' d, extract kf 1%positive 2%positive "gauge_id"
               (caller scenario_map contained_gauges) = (ok l, σ') ∧
     σ' !! l = Some (OFrame d) ∧ index d = [Some "DE2"] ∧
     ∀ col label, (col, label) ∈ categories kf →
       getitem d col =
       Some (repeat (if String.eqb "sehr hoch (>1E-2)" label
                     then Float.hundred else Float.zero) 1)).
Proof.
  destruct (extractor_columns_are_area_percentages (G := stretch)) as [Hall Hone].
  destruct (extractor_columns_are_area_percentages (G := list N)) as [_ Hgrid].
  split; [|split; [|split; [reflexivity|]]].
  - apply (Hall kf touching_caller _ 1%positive 2%positive 4%positive
             touching_map touching_gauges "gauge_id").
    + by left.
    + reflexivity.
    + reflexivity.
    + vm_compute. reflexivity.
  - apply (Hone kf touching_caller 1%positive 2%positive touching_map touching_gauges
             "gauge_id" [Some "DE3"] []
             [ {| cells := map Some ["Gewässer"; "Gewässer"; "Gewässer"; "Gewässer";
                                     "Gewässer"; "Gewässer"];
                  geometry := {| low := 10; high := 20 |} |} ]
             {| cells := map Some ["sehr hoch (>1E-2)"; "Grundwasser-Leiter"; "Poren";
                                   "Lockergestein"; "Sediment"; "silikatisch"];
                geometry := {| low := 0; high := 10 |} |}
             "sehr hoch (>1E-2)" 4503599627370496%positive (-49)%Z).
    + by left.
    + reflexivity.
    + reflexivity.
    + reflexivity.
    + reflexivity.
    + discriminate.
    + vm_compute. by left.
    + reflexivity.
    + reflexivity.
    + reflexivity.
    + vm_compute. reflexivity.
    + reflexivity.
    + vm_compute. by left.
    + intros q Hq%list_elem_of_singleton _. subst q. vm_compute. reflexivity.
  - apply (Hgrid kf (caller scenario_map contained_gauges) 1%positive 2%positive
             scenario_map contained_gauges "gauge_id" [Some "DE2"] []
             [ polygon "Gewässer" "Gewässer" "Gewässer" "Gewässer" "Gewässer" "Gewässer"
                       (span 6 4) ]
             (polygon "sehr hoch (>1E-2)" "Grundwasser-Leiter" "Poren" "Lockergestein"
                      "Sediment" "silikatisch" (span 0 6))
             "sehr hoch (>1E-2)" 4503599627370496%positive (-50)%Z).
    + by left.
    + reflexivity.
    + reflexivity.
    + reflexivity.
    + reflexivity.
    + discriminate.
    + vm_compute. by left.
    + reflexivity.
    + reflexivity.
    + reflexivity.
    + vm_compute. reflexivity.
    + reflexivity.
    + vm_compute. by left.
    + intros q Hq%list_elem_of_singleton Hint. subst q. vm_compute in Hint.
      discriminate.
Defined.

Lemma no_coverage_raises_witness :
  (∃ e σ', extract kf 1%positive 2%positive "gauge_id"
             (caller scenario_map nowhere_gauges) = (raise e, σ')) ∧
  (∃ e σ', extract_hydrogeology_attributes_huek 1%positive 2%positive "gauge_id"
             (caller scenario_map uncovered_gauges) = (raise e, σ')).
Proof.
  destruct (no_coverage_raises (G := list N)) as [Hone Hall]. split.
  - apply (Hone kf _ 1%positive 2%positive scenario_map nowhere_gauges).
    + by left.
    + reflexivity.
    + reflexivity.
    + reflexivity.
  - apply (Hall _ 1%positive 2%positive scenario_map uncovered_gauges
             (reprojected uncovered_gauges) "gauge_id" (gauge "DE9" (span 50 5))).
    + reflexivity.
    + reflexivity.
    + reflexivity.
    + right. left.
    + reflexivity.
Defined.

Lemma one_failing_catchment_aborts_witness :
  ∃ e' σ', extract_hydrogeology_attributes_huek 1%positive 2%positive "gauge_id"
             (caller scenario_map uncovered_gauges) = (raise e', σ').
Proof.
  apply (one_failing_catchment_aborts
           (caller scenario_map uncovered_gauges)
           (loop_store scenario_map uncovered_gauges)
           (loop_body 1%positive 3%positive "gauge_id" 4%positive
              (gauge "DE9" (span 50 5))
              (loop_store scenario_map uncovered_gauges)).2
           1%positive 2%positive 3%positive 4%positive
           scenario_map uncovered_gauges (reprojected uncovered_gauges)
           empty_frame "gauge_id" (gauge "DE9" (span 50 5)) AssertionError).
  - reflexivity.
  - reflexivity.
  - reflexivity.
  - right. left.
  - reflexivity.
  - reflexivity.
  - reflexivity.
  - vm_compute. reflexivity.
Defined.

Lemma waterbody_and_no_data_collapse_witness :
  let h := scenario_map in
  let cs := reprojected scenario_gauges in
  let r := gauge "DE1" (span 0 10) in
  let σ := loop_store scenario_map scenario_gauges in
  let rows6 := map (λ x, row_of x h (catchment_of h cs r) "gauge_id")
                   [kf; ch; ha; vf; ga; gc] in
  let waterbody := flat_map (cells_named "waterbody") rows6 in
  let no_data := flat_map (cells_named "no_data") rows6 in
  (agree waterbody = true → agree no_data = true →
   ∃ l σ' m,
     loop_body 1%positive 3%positive "gauge_id" 4%positive r σ = (ok l, σ') ∧
     σ' !! l = Some (OFrame (concat_axis0 empty_frame m)) ∧
     m = merged_row rows6 ∧
     columns m = merged_columns ∧
     List.filter (contains "waterbody") (columns m) = ["waterbody_perc"] ∧
     List.filter (contains "no_data") (columns m) = ["no_data_perc"] ∧
     getitem m "waterbody_perc" = Some (take 1 waterbody) ∧
     getitem m "no_data_perc" = Some (take 1 no_data)) ∧
  (agree waterbody = false ∨ agree no_data = false →
   ∃ σ', loop_body 1%positive 3%positive "gauge_id" 4%positive r σ
         = (raise AssertionError, σ')).
Proof.
  intros h cs r σ.
  apply (waterbody_and_no_data_collapse σ 1%positive 3%positive 4%positive h cs
           empty_frame "gauge_id" r).
  - reflexivity.
  - reflexivity.
  - reflexivity.
  - vm_compute. reflexivity.
  - vm_compute. reflexivity.
  - vm_compute. reflexivity.
  - vm_compute. reflexivity.
  - vm_compute. reflexivity.
  - vm_compute. reflexivity.
Defined.


Lemma two_runs_agree_witness :
  match extract_hydrogeology_attributes_huek 1%positive 2%positive "gauge_id"
          (caller scenario_map (reprojected two_gauges)),
        extract_hydrogeology_attributes_huek 1%positive 3%positive "gauge_id"
          (loop_store scenario_map two_gauges) with
  | (inr l1, σ1'), (inr l2, σ2') =>
      ∃ t, σ1' !! l1 = Some (OFrame t) ∧ σ2' !! l2 = Some (OFrame t)
  | (inl e1, _), (inl e2, _) => e1 = e2
  | _, _ => False
  end.
Proof.
  apply (two_runs_agree (caller scenario_map (reprojected two_gauges))
           (loop_store scenario_map two_gauges)
           1%positive 2%positive 1%positive 3%positive
           scenario_map (reprojected two_gauges) "gauge_id").
  - reflexivity.
  - reflexivity.
  - reflexivity.
  - reflexivity.
Defined.

Lemma inputs_unchanged_witness :
  let run := extract_hydrogeology_attributes_huek 1%positive 2%positive "gauge_id"
               (caller scenario_map two_gauges) in
  run.2 !! 1%positive = Some (OGeo scenario_map) ∧
  run.2 !! 2%positive = Some (OGeo two_gauges) ∧
  (∀ k o, caller scenario_map two_gauges !! k = Some o → run.2 !! k = Some o) ∧
  (∀ l, run.1 = ok l →
        caller scenario_map two_gauges !! l = None ∧ l ≠ 1%positive ∧ l ≠ 2%positive).
Proof.
  intros run.
  apply (inputs_unchanged (caller scenario_map two_gauges) run.2
           1%positive 2%positive scenario_map two_gauges "gauge_id" run.1).
  - reflexivity.
  - reflexivity.
  - unfold run. by destruct (extract_hydrogeology_attributes_huek _ _ _ _).
Defined.

Lemma kf_row_has_14_columns_witness :
  ∃ d, (extract_kf_from_huek 1%positive 2%positive "gauge_id"
          (caller scenario_map scenario_gauges)).2 !! 4%positive = Some (OFrame d) ∧
       columns d = map fst kf_categories ∧
       length (columns d) = 14 ∧
       kf_count BaseClass = 7 ∧ kf_count RangeClass = 4 ∧
       kf_count VariableClass = 1 ∧
       kf_count WaterbodyClass = 1 ∧ kf_count NoDataClass = 1.
Proof.
  apply (kf_row_has_14_columns (caller scenario_map scenario_gauges) _
           1%positive 2%positive 4%positive scenario_map scenario_gauges "gauge_id").
  - reflexivity.
  - reflexivity.
  - vm_compute. reflexivity.
Defined.

(** C7, as the specification states it, fails: the 14 columns of the
    permeability table cannot be split into seven base classes, four
    range classes, one waterbody column and one no-data column; the
    column of "stark variabel" is left over. *)
Lemma kf_columns_are_not_7_4_1_1 :
  length (map fst kf_categories) = 14 ∧
  kf_class_of ("kf_highly_variable_perc", "stark variabel") = VariableClass ∧
  ("kf_highly_variable_perc", "stark variabel") ∈ kf_categories ∧
  ¬ ∃ base range waterbody no_data : list string,
      map fst kf_categories ≡ₚ base ++ range ++ waterbody ++ no_data ∧
      length base = 7 ∧ length range = 4 ∧
      length waterbody = 1 ∧ length no_data = 1.
Proof.
  split; [reflexivity|]. split; [reflexivity|]. split.
  - do 10 right. left.
  - intros (base & range & waterbody & no_data & Hperm & Hb & Hr & Hw & Hn).
    apply Permutation_length in Hperm. rewrite !length_app in Hperm.
    rewrite Hb, Hr, Hw, Hn in Hperm. simpl in Hperm. lia.
Qed.

(** * Further properties of the module

    Edge cases and failures of the extractors and of the loop, the
    polygons and catchments a row depends on, and the cells that can
    reach the table. *)

Section Edges.
Context {G : Type} `{Geometry G}.

Abbreviation store := (gmap loc (object G)).

Lemma wp_outcome {A} (m : M A) (σ : store) (x : result A * store) :
  wp m σ (λ out σ', (out, σ') = x) → m σ = x.
Proof. unfold wp. by destruct (m σ). Qed.

Lemma extractor_has_categories (x : extractor) :
  x ∈ extractors → categories x ≠ [].
Proof.
  revert x. apply Forall_forall. unfold extractors. repeat constructor; done.
Qed.

(** ** Missing coordinate reference, missing columns, nothing to do *)

(** X1. Without a coordinate reference on the catchment set or on the base
    map, the extraction raises [ValueError] at the reprojection, before
    it creates any object. *)
Theorem missing_crs_raises_ValueError (σ : store) (lh lc : loc)
    (h c : GeoDataFrame G) (id : string) :
  σ !! lh = Some (OGeo h) → σ !! lc = Some (OGeo c) →
  crs c = None ∨ crs h = None →
  extract_hydrogeology_attributes_huek lh lc id σ = (raise ValueError, σ).
Proof.
  intros Hh Hc Hcrs. apply wp_outcome.
  unfold extract_hydrogeology_attributes_huek, gdf_to_crs.
  apply wp_bind, wp_bind, (wp_load_geo _ c); [done|].
  apply wp_bind, (wp_load_geo _ h); [done|].
  apply wp_bind, wp_lift.
  assert (to_crs c (crs h) = raise ValueError) as ->; [|done].
  unfold to_crs. destruct Hcrs as [-> | ->]; [done|]. by destruct (crs c).
Qed.

(** X2. On a catchment set without rows the extraction returns a new,
    empty table (no rows, no columns); neither the identifier field
    nor the attribute fields of the base map are looked at. *)
Theorem empty_catchment_set_gives_empty_table (σ : store) (lh lc : loc)
    (h c : GeoDataFrame G) (id s t : string) :
  σ !! lh = Some (OGeo h) → σ !! lc = Some (OGeo c) →
  crs c = Some s → crs h = Some t → rows c = [] →
  ∃ l σ', extract_hydrogeology_attributes_huek lh lc id σ = (ok l, σ') ∧
          σ !! l = None ∧ σ' !! l = Some (OFrame empty_frame).
Proof.
  intros Hh Hc Hs Ht Hrows.
  pose proof (extract_hydrogeology_attributes_huek_returns lh lc h c id σ Hh Hc)
    as Hret.
  assert (table h c id = ok empty_frame) as Htable.
  { unfold table, to_crs. rewrite Hs, Ht.
    destruct (String.eqb s t); simpl; by rewrite Hrows. }
  rewrite Htable in Hret. apply returns_value in Hret as (l & σ' & Hrun & _ & Hl).
  by exists l, σ'.
Qed.

Lemma index_of_not_elem_of (x : string) (l : list string) :
  x ∉ l → index_of x l = None.
Proof.
  induction l as [|y l IH]; intros Hx; [done|]. simpl.
  destruct (String.eqb x y) eqn:Heq.
  - apply String.eqb_eq in Heq. subst. exfalso. apply Hx. by left.
  - rewrite IH; [done|]. intros Hin. apply Hx. by right.
Qed.

Lemma not_column_label (g : GeoDataFrame G) (name : string) :
  name ∉ column_labels g →
  index_of name (attributes g) = None ∧ String.eqb name (geometry_name g) = false.
Proof.
  intros Hname. split.
  - apply index_of_not_elem_of. intros Hin. apply Hname, elem_of_app. by left.
  - apply String.eqb_neq. intros ->. apply Hname, elem_of_app. right. by left.
Qed.

Lemma filled_missing_field (g : GeoDataFrame G) (fld : string)
    (cats : list (string * string)) (d : DataFrame) :
  fld ∉ column_labels g → cats ≠ [] →
  filled g fld cats d = raise KeyError.
Proof.
  intros [Hfld Hgeo]%not_column_label Hcats.
  destruct cats as [|c0 cats]; [done|]. simpl.
  unfold percentage, where_eq. by rewrite Hfld, Hgeo.
Qed.

Lemma filled_with_field (g : GeoDataFrame G) (fld : string) (i : nat)
    (cats : list (string * string)) :
  index_of fld (attributes g) = Some i →
  ∀ d, ∃ d', filled g fld cats d = ok d' ∧ index d' = index d.
Proof.
  intros Hfld. induction cats as [|c0 cats IH]; intros d; simpl.
  - by exists d.
  - unfold percentage, where_eq. rewrite Hfld. simpl.
    destruct (IH (setitem_scalar d (fst c0)
                    (Float.mul
                       (Float.div
                          (area_sum
                             {| crs := crs g; geometry_name := geometry_name g;
                                attributes := attributes g;
                                rows := List.filter
                                  (λ r, match mjoin (nth_error (cells r) i) with
                                        | Some v => String.eqb v (snd c0)
                                        | None => false
                                        end) (rows g) |})
                          (area_sum g)) Float.hundred)))
      as (d' & Hd' & Hidx).
    exists d'. split; [done|]. rewrite Hidx.
    unfold setitem_scalar, setitem. by destruct (mem_string _ _).
Qed.

Lemma extracted_missing_column (x : extractor) (h c : GeoDataFrame G) (id : string) :
  x ∈ extractors →
  id ∉ column_labels c ∨ field x ∉ column_labels h →
  extracted x h c id = raise KeyError.
Proof.
  intros Hx Hmissing. unfold extracted, gdf_getitem.
  assert (∀ ids, rbind (filled (clip h c) (field x) (categories x)
                          {| index := ids; data := [] |})
                   (λ d, rbind (checked d (prefix x)) (λ _, ok d)) = raise KeyError
                 ∨ id ∉ column_labels c) as Hfill.
  { intros ids. destruct Hmissing as [Hid|Hfld]; [by right|left].
    rewrite filled_missing_field; [done|done|]. by apply extractor_has_categories. }
  destruct (index_of id (attributes c)) as [i|] eqn:Hi.
  - destruct (Hfill (map (λ r, mjoin (nth_error (cells r) i)) (rows c)))
      as [Hraise|Hid]; [done|].
    apply not_column_label in Hid as [Hid _]. congruence.
  - destruct (String.eqb id (geometry_name c)) eqn:Hgeo; [|done].
    destruct (Hfill (map (λ r, Some (label (geometry r))) (rows c)))
      as [Hraise|Hid]; [done|].
    apply not_column_label in Hid as [_ Hid]. congruence.
Qed.


(** X4. An extractor that is handed a catchment frame without rows builds
    a frame without rows, on which the check raises [IndexError]. *)
Theorem extractor_without_catchment_rows_raises_IndexError (x : extractor)
    (σ : store) (lh lc : loc) (h c : GeoDataFrame G) (id : string) (i j : nat) :
  σ !! lh = Some (OGeo h) → σ !! lc = Some (OGeo c) →
  index_of id (attributes c) = Some i →
  index_of (field x) (attributes h) = Some j →
  rows c = [] →
  ∃ σ', extract x lh lc id σ = (raise IndexError, σ').
Proof.
  intros Hh Hc Hid Hfld Hrows.
  pose proof (extract_from_huek_returns x lh lc h c id σ Hh Hc) as Hret.
  assert (extracted x h c id = raise IndexError) as Hex.
  { unfold extracted, gdf_getitem. rewrite Hid, Hrows. simpl.
    destruct (filled_with_field (clip h c) (field x) j (categories x) Hfld
                {| index := []; data := [] |}) as (d & -> & Hidx).
    simpl. by rewrite checked_no_rows. }
  rewrite Hex in Hret. apply returns_exception in Hret as (σ' & Hrun & _).
  by exists σ'.
Qed.

(** X5. The exception of the extraction is the one of the first catchment,
    in iteration order, whose processing fails. *)
Theorem first_failing_catchment_decides (σ : store) (lh lc : loc)
    (h c cs : GeoDataFrame G) (id : string) (before after : list (GeoRow G))
    (r : GeoRow G) (e : exn) :
  σ !! lh = Some (OGeo h) → σ !! lc = Some (OGeo c) →
  to_crs c (crs h) = ok cs → rows cs = before ++ r :: after →
  Forall (λ r', ∃ m, merged h (catchment_of h cs r') id = ok m) before →
  merged h (catchment_of h cs r) id = raise e →
  ∃ σ', extract_hydrogeology_attributes_huek lh lc id σ = (raise e, σ').
Proof.
  intros Hh Hc Hcs Hrows Hbefore Hfail.
  apply (aggregator_raises σ lh lc h c id e Hh Hc).
  unfold table. rewrite Hcs. simpl. rewrite Hrows. clear Hrows.
  generalize empty_frame.
  induction Hbefore as [|r' rs [m Hm] _ IH]; intros acc; simpl.
  - by rewrite Hfail.
  - rewrite Hm. simpl. apply IH.
Qed.

End Edges.

(** ** Instances of the edge cases on the grid geometry *)

(** A catchment set that carries no coordinate reference, one without
    catchments, and a base map that lacks the field [GC_bez]. *)
Definition unreferenced_gauges : GeoDataFrame (list N) :=
  {| crs := None; geometry_name := "geometry"; attributes := ["gauge_id"];
     rows := [gauge "DE1" (span 0 10)] |}.

Definition no_gauges : GeoDataFrame (list N) := gauges [].

Definition partial_map : GeoDataFrame (list N) :=
  {| crs := Some "EPSG:25832"; geometry_name := "geometry";
     attributes := ["kf_bez"; "LChar_bez"; "HA_bez"; "VF_bez"; "GA_bez"];
     rows := [ {| cells := map Some ["Gewässer"; "Gewässer"; "Gewässer"; "Gewässer";
                                     "Gewässer"];
                  geometry := span 0 10 |} ] |}.

Lemma missing_crs_raises_ValueError_witness :
  extract_hydrogeology_attributes_huek 1%positive 2%positive "gauge_id"
    (caller scenario_map unreferenced_gauges)
  = (raise ValueError, caller scenario_map unreferenced_gauges).
Proof.
  apply (missing_crs_raises_ValueError _ 1%positive 2%positive scenario_map
           unreferenced_gauges "gauge_id").
  - reflexivity.
  - reflexivity.
  - left. reflexivity.
Defined.

Lemma empty_catchment_set_gives_empty_table_witness :
  ∃ l σ', extract_hydrogeology_attributes_huek 1%positive 2%positive "no_such_field"
            (caller partial_map no_gauges) = (ok l, σ') ∧
          caller partial_map no_gauges !! l = None ∧
          σ' !! l = Some (OFrame empty_frame).
Proof.
  apply (empty_catchment_set_gives_empty_table _ 1%positive 2%positive partial_map
           no_gauges "no_such_field" "EPSG:4326" "EPSG:25832").
  - reflexivity.
  - reflexivity.
  - reflexivity.
  - reflexivity.
  - reflexivity.
Defined.


Lemma extractor_without_catchment_rows_raises_IndexError_witness :
  ∃ σ', extract kf 1%positive 2%positive "gauge_id" (caller scenario_map no_gauges)
        = (raise IndexError, σ').
Proof.
  apply (extractor_without_catchment_rows_raises_IndexError kf _ 1%positive 2%positive
           scenario_map no_gauges "gauge_id" 0 0).
  - reflexivity.
  - reflexivity.
  - reflexivity.
  - reflexivity.
  - reflexivity.
Defined.

Lemma first_failing_catchment_decides_witness :
  ∃ σ', extract_hydrogeology_attributes_huek 1%positive 2%positive "gauge_id"
          (caller scenario_map uncovered_gauges) = (raise AssertionError, σ').
Proof.
  apply (first_failing_catchment_decides _ 1%positive 2%positive scenario_map
           uncovered_gauges (reprojected uncovered_gauges) "gauge_id"
           [gauge "DE1" (span 0 10)] [] (gauge "DE9" (span 50 5)) AssertionError).
  - reflexivity.
  - reflexivity.
  - reflexivity.
  - reflexivity.
  - constructor; [|constructor].
    exists (match merged scenario_map
                    (catchment_of scenario_map (reprojected uncovered_gauges)
                       (gauge "DE1" (span 0 10))) "gauge_id" with
            | inr m => m
            | inl _ => empty_frame
            end).
    vm_compute. reflexivity.
  - vm_compute. reflexivity.
Defined.

(** ** What a row of the table depends on *)

(** [gdf[mask]] with a boolean mask: the rows that [keep] selects. *)
Definition restrict {G : Type} (g : GeoDataFrame G) (keep : GeoRow G → bool)
  : GeoDataFrame G :=
  {| crs := crs g; geometry_name := geometry_name g; attributes := attributes g;
     rows := List.filter keep (rows g) |}.

Section Rows.
Context {G : Type} `{Geometry G}.

Abbreviation store := (gmap loc (object G)).

Lemma filter_filter_implied {A} (p q : A → bool) (l : list A) :
  (∀ a, a ∈ l → p a = true → q a = true) →
  List.filter p (List.filter q l) = List.filter p l.
Proof.
  induction l as [|a l IH]; intros Himp; [done|]. simpl.
  assert (List.filter p (List.filter q l) = List.filter p l) as IH'.
  { apply IH. intros b Hb. apply Himp. by right. }
  destruct (q a) eqn:Hq; simpl.
  - by rewrite IH'.
  - destruct (p a) eqn:Hp; [|done].
    rewrite (Himp a) in Hq; [done|by left|done].
Qed.

Lemma clip_restrict (h c : GeoDataFrame G) (keep : GeoRow G → bool) :
  (∀ p, p ∈ rows h →
        intersects (geometry p) (union_all (map geometry (rows c))) = true →
        keep p = true) →
  clip (restrict h keep) c = clip h c.
Proof.
  intros Hkeep. unfold clip, restrict. simpl. f_equal. f_equal.
  by apply filter_filter_implied.
Qed.

Lemma merged_restrict (h cs : GeoDataFrame G) (keep : GeoRow G → bool)
    (r : GeoRow G) (id : string) :
  (∀ p, p ∈ rows h → intersects (geometry p) (union_all [geometry r]) = true →
        keep p = true) →
  merged (restrict h keep) (catchment_of (restrict h keep) cs r) id =
  merged h (catchment_of h cs r) id.
Proof.
  intros Hkeep. unfold merged, extracted.
  change (catchment_of (restrict h keep) cs r) with (catchment_of h cs r).
  by rewrite clip_restrict.
Qed.

Lemma accumulated_ext (h h' cs cs' : GeoDataFrame G) (id : string)
    (rs : list (GeoRow G)) :
  (∀ r, r ∈ rs → merged h' (catchment_of h' cs' r) id =
                 merged h (catchment_of h cs r) id) →
  ∀ acc, accumulated h' cs' id rs acc = accumulated h cs id rs acc.
Proof.
  induction rs as [|r rs IH]; intros Hsame acc; [done|]. simpl.
  rewrite Hsame by by left.
  destruct (merged h (catchment_of h cs r) id) as [e|m]; [done|]. simpl.
  apply IH. intros r' Hr'. apply Hsame. by right.
Qed.

(** X6. Polygons of the base map that intersect none of the (reprojected)
    catchments have no influence: the extraction on a base map from
    which any such polygons were dropped ends as the extraction on the
    full base map does, with the same table or the same exception. *)
Theorem polygons_off_the_catchments_are_irrelevant (σ : store) (lh lc : loc)
    (h c cs : GeoDataFrame G) (keep : GeoRow G → bool) (id : string) :
  σ !! lh = Some (OGeo (restrict h keep)) → σ !! lc = Some (OGeo c) →
  to_crs c (crs h) = ok cs →
  (∀ p r, p ∈ rows h → r ∈ rows cs →
          intersects (geometry p) (union_all [geometry r]) = true → keep p = true) →
  returns (extract_hydrogeology_attributes_huek lh lc id) σ (table h c id).
Proof.
  intros Hh Hc Hcs Hkeep.
  replace (table h c id) with (table (restrict h keep) c id);
    [by apply extract_hydrogeology_attributes_huek_returns|].
  unfold table. change (crs (restrict h keep)) with (crs h). rewrite Hcs. simpl.
  rewrite (accumulated_ext h (restrict h keep) cs cs); [done|].
  intros r Hr. apply merged_restrict. intros p Hp. by apply Hkeep.
Qed.

Lemma accumulated_app (h cs : GeoDataFrame G) (id : string)
    (rs1 rs2 : list (GeoRow G)) :
  ∀ acc, accumulated h cs id (rs1 ++ rs2) acc =
         rbind (accumulated h cs id rs1 acc) (accumulated h cs id rs2).
Proof.
  induction rs1 as [|r rs1 IH]; intros acc; [done|]. simpl.
  destruct (merged h (catchment_of h cs r) id) as [e|m]; [done|]. simpl. apply IH.
Qed.

Lemma accumulated_of_rows (h cs : GeoDataFrame G) (id : string)
    (rs : list (GeoRow G)) (ds : list DataFrame) :
  Forall2 (λ r m, merged h (catchment_of h cs r) id = ok m) rs ds →
  ∀ acc, accumulated h cs id rs acc = ok (fold_left concat_axis0 ds acc).
Proof.
  induction 1 as [|r m rs ds Hm _ IH]; intros acc; [done|]. simpl.
  rewrite Hm. simpl. apply IH.
Qed.

Lemma to_crs_shape (c cs : GeoDataFrame G) (target : option string) :
  to_crs c target = ok cs →
  attributes cs = attributes c ∧ geometry_name cs = geometry_name c ∧
  ∃ f, rows cs = map f (rows c) ∧
       ∀ c' : GeoDataFrame G, crs c' = crs c →
         ∃ cs', to_crs c' target = ok cs' ∧ attributes cs' = attributes c' ∧
                geometry_name cs' = geometry_name c' ∧
                rows cs' = map f (rows c').
Proof.
  unfold to_crs. destruct (crs c) as [src|] eqn:Hsrc; [|done].
  destruct target as [dst|]; [|done].
  destruct (String.eqb src dst) eqn:Heq; intros Hcs; injection Hcs as <-.
  - split; [done|]. split; [done|]. exists id. split; [by rewrite map_id|].
    intros c' ->. rewrite Heq. exists c'. by rewrite map_id.
  - split; [done|]. split; [done|]. eexists. split; [done|].
    intros c' ->. rewrite Heq. by eexists.
Qed.

Lemma table_rows (h c : GeoDataFrame G) (id : string) (t : DataFrame) :
  table h c id = ok t →
  ∃ cs ds, to_crs c (crs h) = ok cs ∧
    Forall2 (λ r m, merged h (catchment_of h cs r) id = ok m) (rows cs) ds ∧
    t = round_frame 2 (fold_left concat_axis0 ds empty_frame).
Proof.
  unfold table. destruct (to_crs c (crs h)) as [e|cs]; [done|]. simpl.
  destruct (accumulated h cs id (rows cs) empty_frame) as [e|u] eqn:Hacc; [done|].
  intros Ht. injection Ht as <-.
  apply accumulated_rows in Hacc as (ds & Hds & ->). by exists cs, ds.
Qed.

End Rows.

(** ** Tables built by row-wise concatenation *)

(** A frame is in normal form when every column is the one that
    [df[name]] finds under its name. *)
Definition normal (d : DataFrame) : Prop :=
  data d = map (λ c, (c, column_or_nan d c)) (columns d).

Lemma frame_eq (a b : DataFrame) :
  normal a → normal b → index a = index b → columns a = columns b →
  (∀ n, column_or_nan a n = column_or_nan b n) → a = b.
Proof.
  unfold normal. intros Ha Hb Hidx Hcols Hcol.
  destruct a as [ia da], b as [ib db]. simpl in *. subst ib. f_equal.
  rewrite Ha, Hb, Hcols. apply map_ext. intros n. by rewrite Hcol.
Qed.

Lemma columns_concat_axis0 (a b : DataFrame) :
  columns (concat_axis0 a b) =
  columns a ++ List.filter (λ c, negb (mem_string c (columns a))) (columns b).
Proof.
  unfold concat_axis0, columns at 1. simpl. rewrite map_map. simpl. apply map_id.
Qed.

Lemma normal_concat_axis0 (a b : DataFrame) : normal (concat_axis0 a b).
Proof.
  unfold normal. rewrite columns_concat_axis0. unfold concat_axis0 at 1. simpl.
  apply map_ext. intros n. by rewrite column_or_nan_concat_axis0.
Qed.

Lemma normal_round (k : nat) (d : DataFrame) : normal d → normal (round_frame k d).
Proof.
  unfold normal. intros Hd. rewrite columns_round. unfold round_frame at 1. simpl.
  rewrite Hd at 1. rewrite map_map. simpl. apply map_ext. intros n.
  by rewrite column_or_nan_round.
Qed.

Lemma normal_fold (ds : list DataFrame) :
  ∀ acc, normal acc → normal (fold_left concat_axis0 ds acc).
Proof.
  induction ds as [|d ds IH]; intros acc Hacc; [done|]. simpl.
  apply IH, normal_concat_axis0.
Qed.

Lemma filter_not_mem_nil (l : list string) :
  List.filter (λ c, negb (mem_string c [])) l = l.
Proof. induction l as [|x l IH]; [done|]. simpl. f_equal. exact IH. Qed.

Lemma filter_not_mem_self (l : list string) :
  List.filter (λ c, negb (mem_string c l)) l = [].
Proof.
  apply filter_none. intros c Hc.
  apply mem_string_elem_of in Hc. by rewrite Hc.
Qed.

Lemma columns_fold_nonempty (cols : list string) (ds : list DataFrame) :
  ds ≠ [] → Forall (λ d, columns d = cols) ds →
  columns (fold_left concat_axis0 ds empty_frame) = cols.
Proof.
  intros Hne Hall. destruct Hall as [|d ds Hd Hall]; [done|]. simpl.
  apply columns_fold_same; [done|]. by rewrite columns_concat_empty.
Qed.

(** The rounded table of a list of rows followed by another list is the
    row-wise concatenation of the two rounded tables. *)
Lemma round_fold_app (cols : list string) (ds1 ds2 : list DataFrame) :
  Forall (λ d, columns d = cols) ds1 → Forall (λ d, columns d = cols) ds2 →
  round_frame 2 (fold_left concat_axis0 (ds1 ++ ds2) empty_frame) =
  concat_axis0 (round_frame 2 (fold_left concat_axis0 ds1 empty_frame))
               (round_frame 2 (fold_left concat_axis0 ds2 empty_frame)).
Proof.
  intros H1 H2. apply frame_eq.
  - by apply normal_round, normal_fold.
  - apply normal_concat_axis0.
  - simpl. rewrite !index_fold. simpl. by rewrite flat_map_app.
  - rewrite columns_concat_axis0, !columns_round.
    destruct ds1 as [|d1 ds1].
    + simpl. change (columns empty_frame) with (@nil string).
      by rewrite filter_not_mem_nil.
    + rewrite (columns_fold_nonempty cols ((d1 :: ds1) ++ ds2));
        [|done|by apply Forall_app].
      rewrite (columns_fold_nonempty cols (d1 :: ds1)) by done.
      destruct ds2 as [|d2 ds2].
      * simpl. by rewrite app_nil_r.
      * rewrite (columns_fold_nonempty cols (d2 :: ds2)) by done.
        by rewrite filter_not_mem_self, app_nil_r.
  - intros n. rewrite column_or_nan_concat_axis0, !column_or_nan_round.
    rewrite !column_or_nan_fold. change (column_or_nan empty_frame n) with (@nil float).
    simpl. by rewrite flat_map_app, map_app.
Qed.

Section Batches.
Context {G : Type} `{Geometry G}.

Abbreviation store := (gmap loc (object G)).

Lemma merged_rows_columns (h cs : GeoDataFrame G) (id : string)
    (rs : list (GeoRow G)) (ds : list DataFrame) :
  Forall2 (λ r m, merged h (catchment_of h cs r) id = ok m) rs ds →
  Forall (λ d, columns d = merged_columns) ds.
Proof.
  induction 1 as [|r m rs ds Hm _ IH]; constructor; [|done].
  by destruct (merged_shape h cs r id m Hm).
Qed.

Lemma merged_rows_attributes (h cs cs' : GeoDataFrame G) (id : string)
    (rs : list (GeoRow G)) (ds : list DataFrame) :
  attributes cs' = attributes cs → geometry_name cs' = geometry_name cs →
  Forall2 (λ r m, merged h (catchment_of h cs r) id = ok m) rs ds →
  Forall2 (λ r m, merged h (catchment_of h cs' r) id = ok m) rs ds.
Proof.
  intros Hattr Hgeo Hds. eapply Forall2_impl; [exact Hds|]. intros r m.
  unfold catchment_of, frame_of_row. by rewrite Hattr, Hgeo.
Qed.

(** X7. The catchments can be processed in batches: when the extraction
    returns a table for a first part of a catchment set and a table for
    the rest (two frames with the coordinate reference and the column
    labels of the whole set, the label of the geometry column
    included), then on the whole set it returns the row-wise
    concatenation ([pd.concat], axis 0) of the two tables. *)
Theorem catchments_can_be_processed_in_batches
    (σ1 σ1' σ2 σ2' σ : store) (lh1 lc1 l1 lh2 lc2 l2 lh lc : loc)
    (h c1 c2 c : GeoDataFrame G) (id : string) :
  crs c1 = crs c → crs c2 = crs c →
  attributes c1 = attributes c → attributes c2 = attributes c →
  geometry_name c1 = geometry_name c → geometry_name c2 = geometry_name c →
  rows c = rows c1 ++ rows c2 →
  σ1 !! lh1 = Some (OGeo h) → σ1 !! lc1 = Some (OGeo c1) →
  extract_hydrogeology_attributes_huek lh1 lc1 id σ1 = (ok l1, σ1') →
  σ2 !! lh2 = Some (OGeo h) → σ2 !! lc2 = Some (OGeo c2) →
  extract_hydrogeology_attributes_huek lh2 lc2 id σ2 = (ok l2, σ2') →
  σ !! lh = Some (OGeo h) → σ !! lc = Some (OGeo c) →
  ∃ t1 t2 l σ',
    σ1' !! l1 = Some (OFrame t1) ∧ σ2' !! l2 = Some (OFrame t2) ∧
    extract_hydrogeology_attributes_huek lh lc id σ = (ok l, σ') ∧
    σ' !! l = Some (OFrame (concat_axis0 t1 t2)).
Proof.
  intros Hcrs1 Hcrs2 Hattr1 Hattr2 Hgeo1 Hgeo2 Hrows Hh1 Hc1 Hrun1 Hh2 Hc2 Hrun2 Hh Hc.
  destruct (returns_ok _ _ _ _ _
              (extract_hydrogeology_attributes_huek_returns lh1 lc1 h c1 id σ1 Hh1 Hc1)
              Hrun1) as (t1 & Ht1 & _ & _ & Hl1).
  destruct (returns_ok _ _ _ _ _
              (extract_hydrogeology_attributes_huek_returns lh2 lc2 h c2 id σ2 Hh2 Hc2)
              Hrun2) as (t2 & Ht2 & _ & _ & Hl2).
  exists t1, t2.
  apply table_rows in Ht1 as (cs1 & ds1 & Hcs1 & Hds1 & ->).
  apply table_rows in Ht2 as (cs2 & ds2 & Hcs2 & Hds2 & ->).
  destruct (to_crs_shape c1 cs1 (crs h) Hcs1) as (Ha1 & Hg1 & f & Hf1 & Hall).
  destruct (Hall c (eq_sym Hcrs1)) as (cs & Hcs & Ha & Hg & Hf).
  destruct (Hall c2 (eq_trans Hcrs2 (eq_sym Hcrs1)))
    as (cs2' & Hcs2' & Ha2 & Hg2 & Hf2).
  rewrite Hcs2 in Hcs2'. injection Hcs2' as <-.
  assert (table h c id
          = ok (concat_axis0 (round_frame 2 (fold_left concat_axis0 ds1 empty_frame))
                             (round_frame 2 (fold_left concat_axis0 ds2 empty_frame))))
    as Htable.
  { unfold table. rewrite Hcs. simpl.
    rewrite (accumulated_of_rows h cs id (rows cs) (ds1 ++ ds2)).
    - simpl. unfold ok. f_equal.
      apply (round_fold_app merged_columns); by eapply merged_rows_columns.
    - rewrite Hf, Hrows, map_app, <- Hf1, <- Hf2. apply Forall2_app.
      + apply (merged_rows_attributes h cs1); [congruence|congruence|done].
      + apply (merged_rows_attributes h cs2); [congruence|congruence|done]. }
  pose proof (extract_hydrogeology_attributes_huek_returns lh lc h c id σ Hh Hc)
    as Hret.
  rewrite Htable in Hret.
  apply returns_value in Hret as (l & σ' & Hrun & _ & _ & Hl).
  by exists l, σ'.
Qed.

End Batches.

(** ** The exceptions of well-formed calls *)

(** A row of cells that are zero or NaN does not sum to 100. *)
Lemma row_sum_zeros_not_100 (rows : bool) (xs : list float) :
  Forall (λ x, Float.is_zero x = true ∨ Float.is_nan x = true) xs →
  almost_100 (Float.row_sum rows xs) = false.
Proof.
  intros Hall. pose proof (row_sum_zeros rows xs Hall) as Hzero.
  by destruct (Float.row_sum rows xs) as [[]| | |].
Qed.

Lemma percent_of_empty_part (t : float) :
  let v := Float.mul (Float.div Float.zero t) Float.hundred in
  Float.is_zero v = true ∨ Float.is_nan v = true.
Proof. destruct t as [[]|[]| |[]]; vm_compute; auto. Qed.

Lemma nth_repeat_below {A} (x d : A) (n k : nat) : k < n → nth k (repeat x n) d = x.
Proof.
  revert k. induction n as [|n IH]; intros k Hk; [lia|].
  destruct k as [|k]; [done|]. simpl. apply IH. lia.
Qed.

Lemma row_cells_percent_columns (idx : list (option string)) (n k : nat)
    (cats : list (string * string)) (xs : list float) :
  k < n →
  row_cells {| index := idx; data := percent_columns n cats xs |} k =
  zip_with (λ _ x, x) cats xs.
Proof.
  intros Hk. unfold row_cells, percent_columns. simpl. revert xs.
  induction cats as [|c cats IH]; intros [|x xs]; simpl; try done.
  by rewrite IH, nth_repeat_below.
Qed.

Section Outcomes.
Context {G : Type} `{Geometry G}.

Abbreviation store := (gmap loc (object G)).

Lemma percentage_without_label (g : GeoDataFrame G) (fld label : string) (j : nat) :
  index_of fld (attributes g) = Some j →
  (∀ p, p ∈ rows g → gdf_cell g p fld ≠ Some label) →
  ∃ v, percentage g fld label = ok v ∧
       (Float.is_zero v = true ∨ Float.is_nan v = true).
Proof.
  intros Hfld Hnone. unfold percentage, where_eq. rewrite Hfld. simpl.
  eexists. split; [done|].
  rewrite filter_none.
  - apply percent_of_empty_part.
  - intros p Hp. specialize (Hnone p Hp). unfold gdf_cell in Hnone.
    rewrite Hfld in Hnone. destruct (mjoin (nth_error (cells p) j)) as [v|]; [|done].
    destruct (String.eqb v label) eqn:Heq; [|done].
    apply String.eqb_eq in Heq. by subst.
Qed.

Lemma cells_without_label (g : GeoDataFrame G) (fld : string) (j : nat)
    (cats : list (string * string)) (xs : list float) :
  index_of fld (attributes g) = Some j →
  Forall (λ c', ∀ p, p ∈ rows g → gdf_cell g p fld ≠ Some (snd c')) cats →
  Forall2 (λ c' v, percentage g fld (snd c') = ok v) cats xs →
  Forall (λ v, Float.is_zero v = true ∨ Float.is_nan v = true) xs.
Proof.
  intros Hfld Hnone Hxs. induction Hxs as [|c' v cats xs Hv _ IH]; constructor.
  - apply Forall_cons in Hnone as [Hnone _].
    destruct (percentage_without_label g fld (snd c') j Hfld Hnone)
      as (v' & Hv' & Hzero).
    rewrite Hv' in Hv. by injection Hv as <-.
  - apply IH. by apply Forall_cons in Hnone as [_ Hnone].
Qed.

Lemma occurrences_elem_of (name : string) (l : list string) :
  occurrences name l = 1 → name ∈ l.
Proof.
  unfold occurrences. intros Hone.
  destruct (List.filter (String.eqb name) l) as [|n ns] eqn:Hfilter; [done|].
  assert (In n (List.filter (String.eqb name) l)) as Hn by (rewrite Hfilter; by left).
  apply filter_In in Hn as [Hn Heq]. apply String.eqb_eq in Heq. subst n.
  by apply list_elem_of_In.
Qed.

Lemma gdf_getitem_column (g : GeoDataFrame G) (name : string) :
  name ∈ column_labels g → ∃ ids, gdf_getitem g name = ok ids.
Proof.
  intros Hname. unfold gdf_getitem.
  destruct (index_of name (attributes g)) as [i|] eqn:Hi; [by eexists|].
  destruct (String.eqb name (geometry_name g)) eqn:Hgeo; [by eexists|]. exfalso.
  apply elem_of_app in Hname as [Hname|Hname].
  - destruct (index_of_elem_of _ _ Hname) as [i Hi']. congruence.
  - apply list_elem_of_singleton in Hname. apply String.eqb_neq in Hgeo. done.
Qed.

Lemma extracted_ok_or_AssertionError (x : extractor) (h c : GeoDataFrame G)
    (id : string) (ids : list (option string)) (j : nat) :
  gdf_getitem c id = ok ids →
  index_of (field x) (attributes h) = Some j → rows c ≠ [] →
  (∃ d, extracted x h c id = ok d) ∨ extracted x h c id = raise AssertionError.
Proof.
  intros Hid Hfld Hrows. unfold extracted. rewrite Hid. simpl.
  destruct (filled_with_field (clip h c) (field x) j (categories x) Hfld
              {| index := ids; data := [] |}) as (d & -> & Hidx).
  simpl. rewrite checked_first_row.
  - destruct (almost_100 _); [left; by exists d|by right].
  - rewrite Hidx. simpl. apply gdf_getitem_length in Hid.
    destruct ids; [|done]. by destruct (rows c).
Qed.

(** X8. An extractor raises [AssertionError] on a catchment whose clipped
    polygons carry none of the labels of its category table in the
    attribute field (no polygon at all, or only labels outside the
    table): every column is then 0 or NaN and the row sums to 0. *)
Theorem no_known_label_raises_AssertionError (x : extractor) (σ : store)
    (lh lc : loc) (h c : GeoDataFrame G) (id : string) (i j : nat) :
  x ∈ extractors →
  σ !! lh = Some (OGeo h) → σ !! lc = Some (OGeo c) →
  index_of id (attributes c) = Some i →
  index_of (field x) (attributes h) = Some j → rows c ≠ [] →
  (∀ p label, p ∈ rows (clip h c) → label ∈ map snd (categories x) →
              gdf_cell (clip h c) p (field x) ≠ Some label) →
  ∃ σ', extract x lh lc id σ = (raise AssertionError, σ').
Proof.
  intros Hx Hh Hc Hid Hfld Hrows Hnone.
  pose proof (extract_from_huek_returns x lh lc h c id σ Hh Hc) as Hret.
  destruct (extracted_ok_or_AssertionError x h c id
              (map (λ r, mjoin (nth_error (cells r) i)) (rows c)) j) as [[d Hex]|Hex];
    [unfold gdf_getitem; by rewrite Hid|done|done| |].
  - exfalso. pose proof (extractors_ok x Hx) as Hok.
    destruct (extracted_spec x h c id d Hok Hex) as (xs & _ & Hxs & Hdata & _).
    destruct (extracted_row_sum x h c id d Hok Hex) as (Hidx & _ & _ & Hsum).
    assert (map snd (first_row d) = xs) as Hcells.
    { unfold first_row. rewrite Hdata, first_row_percent_columns.
      - apply snd_zip_with_names. by eapply Forall2_length.
      - by destruct (index d). }
    rewrite Hcells, row_sum_zeros_not_100 in Hsum; [done|].
    apply (cells_without_label (clip h c) (field x) j (categories x)); [done| |done].
    apply Forall_forall. intros c' Hc' p Hp. apply Hnone; [done|].
    apply list_elem_of_fmap. by exists c'.
  - rewrite Hex in Hret. apply returns_exception in Hret as (σ' & Hrun & _).
    by exists σ'.
Qed.

Lemma merged_ok_or_AssertionError (h cs : GeoDataFrame G) (r : GeoRow G)
    (id : string) :
  id ∈ column_labels cs →
  (∀ x, x ∈ extractors → field x ∈ attributes h) →
  (∃ m, merged h (catchment_of h cs r) id = ok m) ∨
  merged h (catchment_of h cs r) id = raise AssertionError.
Proof.
  intros Hid Hfields.
  assert (∀ x, x ∈ extractors →
            (∃ d, extracted x h (catchment_of h cs r) id = ok d) ∨
            extracted x h (catchment_of h cs r) id = raise AssertionError) as Hex.
  { intros x Hx. destruct (index_of_elem_of _ _ (Hfields x Hx)) as [j Hj].
    destruct (gdf_getitem_column (catchment_of h cs r) id Hid) as [ids Hids].
    by apply (extracted_ok_or_AssertionError x h _ id ids j). }
  destruct (Hex ch) as [[d_ch Hch]|Hch]; [by repeat constructor| |];
    [|right; unfold merged; by rewrite Hch].
  destruct (Hex kf) as [[d_kf Hkf]|Hkf]; [by repeat constructor| |];
    [|right; unfold merged; by rewrite Hch, Hkf].
  destruct (Hex ha) as [[d_ha Hha]|Hha]; [by repeat constructor| |];
    [|right; unfold merged; by rewrite Hch, Hkf, Hha].
  destruct (Hex ga) as [[d_ga Hga]|Hga]; [by repeat constructor| |];
    [|right; unfold merged; by rewrite Hch, Hkf, Hha, Hga].
  destruct (Hex vf) as [[d_vf Hvf]|Hvf]; [by repeat constructor| |];
    [|right; unfold merged; by rewrite Hch, Hkf, Hha, Hga, Hvf].
  destruct (Hex gc) as [[d_gc Hgc]|Hgc]; [by repeat constructor| |];
    [|right; unfold merged; by rewrite Hch, Hkf, Hha, Hga, Hvf, Hgc].
  destruct (merged_of_rows h cs r id _ _ _ _ _ _ Hkf Hch Hha Hvf Hga Hgc) as [_ ->].
  destruct (agree _); [|by right]. destruct (agree _); [left|by right]. by eexists.
Qed.

Lemma accumulated_ok_or_AssertionError (h cs : GeoDataFrame G) (id : string)
    (rs : list (GeoRow G)) :
  id ∈ column_labels cs →
  (∀ x, x ∈ extractors → field x ∈ attributes h) →
  ∀ acc, (∃ t, accumulated h cs id rs acc = ok t) ∨
         accumulated h cs id rs acc = raise AssertionError.
Proof.
  intros Hid Hfields. induction rs as [|r rs IH]; intros acc; simpl.
  - left. by exists acc.
  - destruct (merged_ok_or_AssertionError h cs r id Hid Hfields) as [[m ->]| ->];
      [|by right]. simpl. apply IH.
Qed.


(** X10. Called with a frame of several catchments, an extractor returns one
    row per catchment, indexed by the identifier cells, and all rows
    hold the same cells, those computed for the union of the
    catchments: it does not compute per-catchment values. *)
Theorem extractor_rows_are_copies (x : extractor) (σ σ' : store) (lh lc l : loc)
    (h c : GeoDataFrame G) (id : string) :
  x ∈ extractors →
  σ !! lh = Some (OGeo h) → σ !! lc = Some (OGeo c) →
  extract x lh lc id σ = (ok l, σ') →
  ∃ d, σ' !! l = Some (OFrame d) ∧
       gdf_getitem c id = ok (index d) ∧
       length (index d) = length (rows c) ∧
       (∀ k, k < length (rows c) → row_cells d k = row_cells d 0) ∧
       (∀ col label, (col, label) ∈ categories x →
          getitem d col = Some (repeat (share (clip h c) (field x) label)
                                       (length (rows c)))).
Proof.
  intros Hx Hh Hc Hrun.
  destruct (returns_ok _ _ _ _ _ (extract_from_huek_returns x lh lc h c id σ Hh Hc)
              Hrun) as (d & Hex & _ & _ & Hl).
  exists d. split; [done|].
  pose proof (extractors_ok x Hx) as Hok.
  destruct (extracted_spec x h c id d Hok Hex) as (xs & Hids & Hxs & Hdata & _).
  destruct (extracted_row_sum x h c id d Hok Hex) as (Hrows & _).
  split; [done|].
  assert (length (index d) = length (rows c)) as Hlen.
  { by apply (gdf_getitem_length c id). }
  split; [done|]. split.
  - intros k Hk. destruct d as [idx dat]. simpl in *. subst dat.
    rewrite !row_cells_percent_columns; [done| |lia].
    destruct idx; [done|]. simpl. lia.
  - intros col label Hin. destruct d as [idx dat]. simpl in *. subst dat.
    apply andb_prop in Hok as [Hnodup _]. apply NoDup_strings in Hnodup.
    destruct (getitem_percent_columns (length idx) (categories x) xs
                (λ c' v, percentage (clip h c) (field x) (snd c') = ok v)
                idx col label Hnodup Hxs Hin) as (v & Hv & ->).
    simpl in Hv. unfold share. rewrite Hv. by rewrite Hlen.
Qed.

End Outcomes.

(** ** Instances on the grid geometry *)

(** The scenario map with a third polygon far from every catchment,
    and a base map whose only polygon carries labels that no category
    table knows. *)
Definition wide_map : GeoDataFrame (list N) :=
  base_map
    (rows scenario_map ++
     [ polygon "stark variabel" "Grundwasser-Leiter" "Kluft" "Festgestein"
               "Magmatit" "silikatisch" (span 100 5) ]).

Definition near (p : GeoRow (list N)) : bool :=
  existsb (λ x, N.ltb x 50) (geometry p).

Definition foreign_map : GeoDataFrame (list N) :=
  base_map
    [ polygon "unbekannt" "unbekannt" "unbekannt" "unbekannt" "unbekannt" "unbekannt"
              (span 0 10) ].

Lemma polygons_off_the_catchments_are_irrelevant_witness :
  returns (extract_hydrogeology_attributes_huek 1%positive 2%positive "gauge_id")
          (caller (restrict wide_map near) two_gauges)
          (table wide_map two_gauges "gauge_id").
Proof.
  apply (polygons_off_the_catchments_are_irrelevant _ 1%positive 2%positive
           wide_map two_gauges (reprojected two_gauges) near "gauge_id").
  - reflexivity.
  - reflexivity.
  - reflexivity.
  - intros p r Hp Hr.
    repeat (apply elem_of_cons in Hp as [->|Hp]; [by vm_compute|]).
    repeat (apply elem_of_cons in Hp as [->|Hp];
            [repeat (apply elem_of_cons in Hr as [->|Hr]; [by vm_compute|]);
             by apply elem_of_nil in Hr|]).
    by apply elem_of_nil in Hp.
Defined.

(** The extraction on the scenario map, for a list of catchments. *)
Definition scenario_run (c : list (GeoRow (list N)))
  : result loc * gmap loc (object (list N)) :=
  extract_hydrogeology_attributes_huek 1%positive 2%positive "gauge_id"
    (caller scenario_map (gauges c)).

Lemma catchments_can_be_processed_in_batches_witness :
  ∃ t1 t2 l σ',
    (scenario_run [gauge "DE1" (span 0 10)]).2 !! 20%positive = Some (OFrame t1) ∧
    (scenario_run [gauge "DE2" (span 3 3)]).2 !! 20%positive = Some (OFrame t2) ∧
    scenario_run [gauge "DE1" (span 0 10); gauge "DE2" (span 3 3)] = (ok l, σ') ∧
    σ' !! l = Some (OFrame (concat_axis0 t1 t2)).
Proof.
  unfold scenario_run.
  apply (catchments_can_be_processed_in_batches
           (caller scenario_map (gauges [gauge "DE1" (span 0 10)]))
           (scenario_run [gauge "DE1" (span 0 10)]).2
           (caller scenario_map (gauges [gauge "DE2" (span 3 3)]))
           (scenario_run [gauge "DE2" (span 3 3)]).2
           (caller scenario_map two_gauges)
           1%positive 2%positive 20%positive 1%positive 2%positive 20%positive
           1%positive 2%positive
           scenario_map (gauges [gauge "DE1" (span 0 10)])
           (gauges [gauge "DE2" (span 3 3)]) two_gauges "gauge_id").
  - reflexivity.
  - reflexivity.
  - reflexivity.
  - reflexivity.
  - reflexivity.
  - reflexivity.
  - reflexivity.
  - reflexivity.
  - reflexivity.
  - vm_compute. reflexivity.
  - reflexivity.
  - reflexivity.
  - vm_compute. reflexivity.
  - reflexivity.
  - reflexivity.
Defined.

(** The parts must label the geometry column as the whole set does.
    With the geometry column as identifier, the extraction returns a
    table for each of two parts whose geometry column is labelled
    [geometry], and raises on the whole set under another label. *)
Definition relabelled (c : GeoDataFrame (list N)) : GeoDataFrame (list N) :=
  {| crs := crs c; geometry_name := "geom"; attributes := attributes c;
     rows := rows c |}.

Example batches_under_another_geometry_label :
  let run c := extract_hydrogeology_attributes_huek 1%positive 2%positive "geometry"
                 (caller scenario_map c) in
  (run (gauges [gauge "DE1" (span 0 10)])).1 = ok 20%positive ∧
  (run (gauges [gauge "DE2" (span 3 3)])).1 = ok 20%positive ∧
  attributes (relabelled two_gauges) = attributes (gauges [gauge "DE1" (span 0 10)]) ∧
  rows (relabelled two_gauges)
  = rows (gauges [gauge "DE1" (span 0 10)]) ++ rows (gauges [gauge "DE2" (span 3 3)]) ∧
  ∃ e, (run (relabelled two_gauges)).1 = raise e.
Proof.
  intros run.
  split; [vm_compute; reflexivity|]. split; [vm_compute; reflexivity|].
  split; [reflexivity|]. split; [reflexivity|]. exists KeyError.
  vm_compute. reflexivity.
Qed.

Lemma no_known_label_raises_AssertionError_witness :
  ∃ σ', extract kf 1%positive 2%positive "gauge_id" (caller foreign_map scenario_gauges)
        = (raise AssertionError, σ').
Proof.
  apply (no_known_label_raises_AssertionError kf _ 1%positive 2%positive
           foreign_map scenario_gauges "gauge_id" 0 0).
  - by left.
  - reflexivity.
  - reflexivity.
  - reflexivity.
  - reflexivity.
  - discriminate.
  - intros p label Hp Hlabel.
    apply elem_of_cons in Hp as [->|Hp]; [|by apply elem_of_nil in Hp].
    repeat (apply elem_of_cons in Hlabel as [->|Hlabel]; [discriminate|]).
    by apply elem_of_nil in Hlabel.
Defined.


Lemma extractor_rows_are_copies_witness :
  ∃ d, (extract kf 1%positive 2%positive "gauge_id"
          (caller scenario_map two_gauges)).2 !! 4%positive = Some (OFrame d) ∧
       gdf_getitem two_gauges "gauge_id" = ok (index d) ∧
       length (index d) = length (rows two_gauges) ∧
       (∀ k, k < length (rows two_gauges) → row_cells d k = row_cells d 0) ∧
       (∀ col label, (col, label) ∈ categories kf →
          getitem d col = Some (repeat (share (clip scenario_map two_gauges)
                                              (field kf) label)
                                       (length (rows two_gauges)))).
Proof.
  apply (extractor_rows_are_copies kf (caller scenario_map two_gauges) _
           1%positive 2%positive 4%positive scenario_map two_gauges "gauge_id").
  - by left.
  - reflexivity.
  - reflexivity.
  - vm_compute. reflexivity.
Defined.

(** A value that is a number: neither NaN nor an infinity. This is
    [numpy.isfinite]. A value that is not NaN: a number or an
    infinity. *)
Lemma div_not_nan (x : float) (s : bool) (m : positive) (e : Z) :
  Float.is_nan x = false → Float.is_nan (Float.div x (S754_finite s m e)) = false.
Proof.
  intros Hx. destruct x as [sx|sx| |sx mx ex]; try done.
  unfold Float.div, SFdiv, SFdiv_core_binary.
  set (sh := (ex - e - _)%Z).
  set (m' := match sh with Z.pos _ => Z.shiftl (Z.pos mx) sh | 0%Z => Z.pos mx
             | Z.neg _ => 0%Z end).
  assert (0 ≤ m')%Z as Hm'.
  { unfold m'. destruct sh; [lia| |lia]. by apply Z.shiftl_nonneg. }
  pose proof (Z.div_eucl_eq m' (Z.pos m) ltac:(lia)) as Heq.
  pose proof (Z.mod_pos_bound m' (Z.pos m) ltac:(lia)) as Hbound.
  unfold Z.modulo in Hbound.
  change (IntDef.Z.div_eucl m' (Z.pos m)) with (Z.div_eucl m' (Z.pos m)).
  destruct (Z.div_eucl m' (Z.pos m)) as [q r].
  apply binary_round_aux_not_nan. nia.
Qed.

Lemma mul_hundred_not_nan (x : float) :
  Float.is_nan x = false → Float.is_nan (Float.mul x Float.hundred) = false.
Proof.
  intros Hx. destruct x as [sx|sx| |sx mx ex]; try done.
  change Float.hundred with (S754_finite false 7036874417766400 (-46)).
  unfold Float.mul, SFmul. by apply binary_round_aux_not_nan.
Qed.

Lemma filter_all {A} (f : A → bool) (l : list A) :
  Forall (λ x, f x = true) l → List.filter f l = l.
Proof. induction 1 as [|x l Hx _ IH]; [done|]. simpl. by rewrite Hx, IH. Qed.

Lemma Forall_repeat {A} (P : A → Prop) (x : A) (n : nat) : P x → Forall P (repeat x n).
Proof. intros Hx. induction n; by constructor. Qed.

Lemma Forall_percent_columns (P : float → Prop) (n : nat)
    (cats : list (string * string)) (xs : list float) :
  Forall P xs → Forall (λ col, Forall P (snd col)) (percent_columns n cats xs).
Proof.
  intros Hxs. revert cats. unfold percent_columns.
  induction Hxs as [|x xs Hx _ IH]; intros [|c cats]; simpl; try done.
  constructor; [by apply Forall_repeat|apply IH].
Qed.

Lemma percent_of_infinite_total (part : float) (s : bool) :
  let v := Float.mul (Float.div part (S754_infinity s)) Float.hundred in
  Float.is_zero v = true ∨ Float.is_nan v = true.
Proof. destruct part as [[]|[]| |[] m e], s; vm_compute; auto. Qed.

Lemma percent_of_nan_total (part : float) :
  Float.is_nan (Float.mul (Float.div part S754_nan) Float.hundred) = true.
Proof. by destruct part as [[]|[]| |[] m e]. Qed.

Section Finite.
Context {G : Type} `{Geometry G}.

Abbreviation store := (gmap loc (object G)).

Lemma cells_of_percentages (g : GeoDataFrame G) (fld : string)
    (cats : list (string * string)) (xs : list float) :
  Forall2 (λ c v, percentage g fld (snd c) = ok v) cats xs →
  Forall (λ v, ∃ q : GeoRow G → bool,
            v = Float.mul
                  (Float.div
                     (Float.nansum (map (λ r, area (geometry r))
                                        (List.filter q (rows g))))
                     (area_sum g)) Float.hundred) xs.
Proof.
  induction 1 as [|c v cats xs Hv _ IH]; constructor; [|done].
  unfold percentage, where_eq in Hv.
  destruct (index_of fld (attributes g)); [|destruct (String.eqb _ _); [|done]];
    injection Hv as <-.
  - by eexists.
  - exists (λ _, false). by rewrite filter_none.
Qed.

(** The areas of clipped polygons are not negative. *)
Lemma clip_areas_not_negative (h c : GeoDataFrame G) :
  Forall (λ r, Float.signbit (area (geometry r)) = false) (rows (clip h c)).
Proof.
  unfold clip. simpl. apply Forall_map, Forall_forall. intros r _. simpl.
  apply area_not_negative.
Qed.

(** A sum of areas that are not negative is not NaN: two sums that
    overflow cannot cancel. *)
Lemma part_of_areas_not_nan (g : GeoDataFrame G) (q : GeoRow G → bool) :
  Forall (λ r, Float.signbit (area (geometry r)) = false) (rows g) →
  Float.is_nan (Float.nansum (map (λ r, area (geometry r)) (List.filter q (rows g))))
  = false.
Proof.
  intros Hareas. rewrite nansum_row_sum. apply row_sum_not_negative.
  apply Forall_map, Forall_forall. intros r Hr.
  apply list_elem_of_In, filter_In in Hr as [Hr _].
  rewrite Forall_forall in Hareas. by apply Hareas, list_elem_of_In.
Qed.

(** The cells of a row whose sum passes the check are numbers. *)
Lemma percentages_finite (g : GeoDataFrame G) (fld : string)
    (cats : list (string * string)) (xs : list float) (n : bool) :
  Forall (λ r, Float.signbit (area (geometry r)) = false) (rows g) →
  Forall2 (λ c v, percentage g fld (snd c) = ok v) cats xs →
  almost_100 (Float.row_sum n xs) = true →
  Forall (λ v, Float.is_finite v = true) xs.
Proof.
  intros Hareas Hxs Hsum. apply cells_of_percentages in Hxs.
  assert (Forall (λ v, Float.is_nan v = false) xs) as Hnum.
  { destruct (area_sum g) as [s|s| |s m e] eqn:Htotal.
    - rewrite row_sum_not_finite in Hsum; [done|].
      eapply Forall_impl; [exact Hxs|]. intros v [q ->].
      by apply percent_of_nothing_not_finite.
    - rewrite row_sum_zeros_not_100 in Hsum; [done|].
      eapply Forall_impl; [exact Hxs|]. intros v [q ->].
      apply percent_of_infinite_total.
    - rewrite row_sum_zeros_not_100 in Hsum; [done|].
      eapply Forall_impl; [exact Hxs|]. intros v [q ->]. right.
      apply percent_of_nan_total.
    - eapply Forall_impl; [exact Hxs|]. intros v [q ->].
      apply mul_hundred_not_nan, div_not_nan.
      by apply part_of_areas_not_nan. }
  apply andb_prop in Hsum as [Hfinite _].
  apply row_sum_finite_terms in Hfinite.
  rewrite Forall_forall in Hnum. rewrite Forall_forall in Hfinite.
  apply Forall_forall. intros v Hv.
  destruct (Hfinite v Hv) as [Hfin|Hnan]; [done|]. rewrite (Hnum v Hv) in Hnan. done.
Qed.

(** X11. Every cell of a frame that an extractor returns is a number:
    neither NaN nor an infinity reaches the caller, for the areas that
    the geometries of a clip report, which are not negative. *)
Theorem extractor_cells_are_finite (x : extractor) (σ σ' : store) (lh lc l : loc)
    (h c : GeoDataFrame G) (id : string) :
  x ∈ extractors →
  σ !! lh = Some (OGeo h) → σ !! lc = Some (OGeo c) →
  extract x lh lc id σ = (ok l, σ') →
  ∃ d, σ' !! l = Some (OFrame d) ∧
       Forall (λ col, Forall (λ v, Float.is_finite v = true) (snd col)) (data d).
Proof.
  intros Hx Hh Hc Hrun.
  destruct (returns_ok _ _ _ _ _ (extract_from_huek_returns x lh lc h c id σ Hh Hc)
              Hrun) as (d & Hex & _ & _ & Hl).
  exists d. split; [done|].
  pose proof (extractors_ok x Hx) as Hok.
  destruct (extracted_spec x h c id d Hok Hex) as (xs & _ & Hxs & Hdata & _).
  destruct (extracted_row_sum x h c id d Hok Hex) as (Hidx & _ & _ & Hsum).
  assert (map snd (first_row d) = xs) as Hcells.
  { unfold first_row. rewrite Hdata, first_row_percent_columns.
    - apply snd_zip_with_names. by eapply Forall2_length.
    - by destruct (index d). }
  rewrite Hcells in Hsum. rewrite Hdata.
  apply Forall_percent_columns.
  by apply (percentages_finite (clip h c) (field x) (categories x) xs
              (contiguous_rows d) (clip_areas_not_negative h c)).
Qed.

End Finite.

Lemma extractor_cells_are_finite_witness :
  ∃ d, (extract kf 1%positive 2%positive "gauge_id"
          (caller scenario_map scenario_gauges)).2 !! 4%positive = Some (OFrame d) ∧
       Forall (λ col, Forall (λ v, Float.is_finite v = true) (snd col)) (data d).
Proof.
  apply (extractor_cells_are_finite kf (caller scenario_map scenario_gauges) _
           1%positive 2%positive 4%positive scenario_map scenario_gauges "gauge_id").
  - by left.
  - reflexivity.
  - reflexivity.
  - vm_compute. reflexivity.
Defined.

(** ** The check on its own *)

Section Check.
Context {G : Type} `{Geometry G}.

Abbreviation store := (gmap loc (object G)).

(** X12. [check_extracted_values] only reads: however it ends, the store is
    the one it was called in. On a frame without rows it raises
    [IndexError] (there is no first row to look at); on a frame with
    rows but without a column that starts with the category it raises
    [AssertionError], the empty sum being 0 and not 100. *)
Theorem check_extracted_values_reads_only :
  (∀ (σ : store) (l : loc) (category : string),
     (check_extracted_values l category σ).2 = σ) ∧
  (∀ (σ : store) (l : loc) (d : DataFrame) (category : string),
     σ !! l = Some (OFrame d) → index d = [] →
     check_extracted_values l category σ = (raise IndexError, σ)) ∧
  (∀ (σ : store) (l : loc) (d : DataFrame) (category : string),
     σ !! l = Some (OFrame d) → index d ≠ [] →
     List.filter (λ col, startswith col category) (columns d) = [] →
     check_extracted_values l category σ = (raise AssertionError, σ)).
Proof.
  split; [|split].
  - intros σ l category. unfold check_extracted_values, load_frame.
    unfold mbind, M_bind.
    destruct (σ !! l) as [[g|d]|]; [done| |done]. unfold lift, ok.
    destruct (select d (List.filter _ (columns d))) as [e|sub]; [done|].
    by destruct (iloc0 (sum_axis1 sub)) as [e|s].
  - intros σ l d category Hl Hidx.
    rewrite (check_extracted_values_outcome σ l d category Hl).
    by rewrite checked_no_rows.
  - intros σ l d category Hl Hidx Hnone.
    rewrite (check_extracted_values_outcome σ l d category Hl).
    rewrite checked_first_row by done.
    unfold prefix_sum. rewrite first_row_columns, Hnone. simpl.
    rewrite row_sum_zeros_not_100; [done|constructor].
Qed.

End Check.

Lemma check_extracted_values_reads_only_witness :
  check_extracted_values (G := list N) 1%positive "kf"
    {[1%positive := OFrame empty_frame]}
  = (raise IndexError, {[1%positive := OFrame empty_frame]}) ∧
  check_extracted_values (G := list N) 1%positive "rocktype"
    {[1%positive := OFrame two_rows]}
  = (raise AssertionError, {[1%positive := OFrame two_rows]}).
Proof.
  destruct (check_extracted_values_reads_only (G := list N)) as (_ & Hempty & Hnone).
  split.
  - apply (Hempty _ 1%positive empty_frame); reflexivity.
  - apply (Hnone _ 1%positive two_rows); [reflexivity|discriminate|reflexivity].
Defined.

(** ** No missing value in the table *)

(** Every cell of a frame satisfies [P]. *)
Definition cells_all (P : float → Prop) (d : DataFrame) : Prop :=
  Forall (λ col, Forall P (snd col)) (data d).

Lemma getitem_in (d : DataFrame) (n : string) (v : list float) :
  getitem d n = Some v → (n, v) ∈ data d.
Proof.
  unfold getitem. destruct (List.find _ (data d)) as [[n' v']|] eqn:Hfind; [|done].
  intros Hv. injection Hv as <-. apply find_some in Hfind as [Hin Heq].
  simpl in Heq. apply String.eqb_eq in Heq. subst. by apply list_elem_of_In.
Qed.

Lemma column_of_cells (P : float → Prop) (d : DataFrame) (n : string) :
  cells_all P d → n ∈ columns d → Forall P (column_or_nan d n).
Proof.
  intros Hall Hn. unfold column_or_nan.
  destruct (getitem d n) as [v|] eqn:Hget.
  - apply getitem_in in Hget. simpl.
    unfold cells_all in Hall. rewrite Forall_forall in Hall. exact (Hall _ Hget).
  - exfalso. unfold getitem in Hget.
    destruct (List.find _ (data d)) as [c|] eqn:Hfind; [done|].
    unfold columns in Hn. apply list_elem_of_fmap in Hn as (c & -> & Hc).
    apply list_elem_of_In in Hc.
    pose proof (find_none _ _ Hfind c Hc) as Hne. simpl in Hne.
    by rewrite String.eqb_refl in Hne.
Qed.

Lemma cells_all_merged_row (P : float → Prop) (rows6 : list DataFrame) :
  Forall (cells_all P) rows6 → cells_all P (merged_row rows6).
Proof.
  intros Hrows.
  assert (Forall (λ col : string * list float, Forall P (snd col))
                 (flat_map data rows6)) as Hcols.
  { apply Forall_flat_map. eapply Forall_impl; [exact Hrows|]. by intros d Hd. }
  assert (∀ key, Forall P (flat_map (cells_named key) rows6)) as Hnamed.
  { intros key. apply Forall_flat_map. eapply Forall_impl; [exact Hrows|].
    intros d Hd. unfold cells_named. apply Forall_flat_map.
    apply Forall_forall. intros col Hcol. apply list_elem_of_In in Hcol.
    apply filter_In in Hcol as [Hcol _]. apply list_elem_of_In in Hcol.
    unfold cells_all in Hd. rewrite Forall_forall in Hd. exact (Hd _ Hcol). }
  unfold cells_all, merged_row. simpl. apply Forall_app. split.
  - apply Forall_forall. intros col Hcol. apply list_elem_of_In in Hcol.
    apply filter_In in Hcol as [Hcol _]. apply list_elem_of_In in Hcol.
    rewrite Forall_forall in Hcols. exact (Hcols _ Hcol).
  - repeat constructor; simpl; apply Forall_take, Hnamed.
Qed.

Lemma cells_all_fold (P : float → Prop) (cols : list string) (ds : list DataFrame) :
  Forall (λ d, columns d = cols) ds → Forall (cells_all P) ds →
  cells_all P (fold_left concat_axis0 ds empty_frame).
Proof.
  intros Hcols Hcells. destruct ds as [|d0 ds0] eqn:Hds; [constructor|].
  rewrite <- Hds in *. assert (ds ≠ []) as Hne by (by rewrite Hds). clear Hds.
  unfold cells_all.
  rewrite (normal_fold ds empty_frame) by done.
  rewrite (columns_fold_nonempty cols ds) by done.
  apply Forall_forall. intros col Hcol.
  apply list_elem_of_fmap in Hcol as (n & -> & Hn). simpl.
  rewrite column_or_nan_fold. change (column_or_nan empty_frame n) with (@nil float).
  simpl. apply Forall_flat_map.
  rewrite Forall_forall in Hcols. rewrite Forall_forall in Hcells.
  apply Forall_forall. intros d Hd.
  apply column_of_cells; [by apply Hcells|]. by rewrite (Hcols d Hd).
Qed.

Lemma rint_not_nan (x : float) : Float.is_nan x = false → Float.is_nan (Float.rint x) = false.
Proof.
  destruct x as [s|s| |s m e]; try done. intros _. unfold Float.rint.
  destruct (0 <=? e)%Z; [done|]. apply binary_normalize_not_nan.
Qed.

(** Rounding to two decimals never turns a number or an infinity into
    NaN. *)
Lemma round_not_nan (x : float) :
  Float.is_nan x = false → Float.is_nan (Float.round 2 x) = false.
Proof.
  intros Hx. unfold Float.round.
  change (Float.of_Z (10 ^ Z.of_nat 2)) with (S754_finite false 7036874417766400 (-46)).
  apply div_not_nan, rint_not_nan.
  change (S754_finite false 7036874417766400 (-46)) with Float.hundred.
  by apply mul_hundred_not_nan.
Qed.

Lemma cells_all_round (d : DataFrame) :
  cells_all (λ v, Float.is_finite v = true) d →
  cells_all (λ v, Float.is_nan v = false) (round_frame 2 d).
Proof.
  unfold cells_all, round_frame. simpl. intros Hd.
  apply Forall_map. eapply Forall_impl; [exact Hd|]. intros col Hcol. simpl.
  apply Forall_map. eapply Forall_impl; [exact Hcol|]. intros v Hv. simpl.
  apply round_not_nan. by destruct v.
Qed.

Section Cells.
Context {G : Type} `{Geometry G}.

Abbreviation store := (gmap loc (object G)).

Lemma extracted_cells_finite (x : extractor) (h c : GeoDataFrame G) (id : string)
    (d : DataFrame) :
  table_ok x = true → extracted x h c id = ok d →
  cells_all (λ v, Float.is_finite v = true) d.
Proof.
  intros Hok Hex.
  destruct (extracted_spec x h c id d Hok Hex) as (xs & _ & Hxs & Hdata & _).
  destruct (extracted_row_sum x h c id d Hok Hex) as (Hidx & _ & _ & Hsum).
  assert (map snd (first_row d) = xs) as Hcells.
  { unfold first_row. rewrite Hdata, first_row_percent_columns.
    - apply snd_zip_with_names. by eapply Forall2_length.
    - by destruct (index d). }
  rewrite Hcells in Hsum. unfold cells_all. rewrite Hdata.
  apply Forall_percent_columns.
  by apply (percentages_finite (clip h c) (field x) (categories x) xs
              (contiguous_rows d) (clip_areas_not_negative h c)).
Qed.

Lemma merged_cells_finite (h cs : GeoDataFrame G) (r : GeoRow G) (id : string)
    (m : DataFrame) :
  merged h (catchment_of h cs r) id = ok m →
  cells_all (λ v, Float.is_finite v = true) m.
Proof.
  intros Hm.
  destruct (extracted kf h (catchment_of h cs r) id) as [e|d_kf] eqn:Hkf;
    [unfold merged in Hm; rewrite Hkf in Hm;
     by destruct (extracted ch h (catchment_of h cs r) id)|].
  destruct (extracted ch h (catchment_of h cs r) id) as [e|d_ch] eqn:Hch;
    [unfold merged in Hm; by rewrite Hch in Hm|].
  destruct (extracted ha h (catchment_of h cs r) id) as [e|d_ha] eqn:Hha;
    [unfold merged in Hm; by rewrite Hch, Hkf, Hha in Hm|].
  destruct (extracted ga h (catchment_of h cs r) id) as [e|d_ga] eqn:Hga;
    [unfold merged in Hm; by rewrite Hch, Hkf, Hha, Hga in Hm|].
  destruct (extracted vf h (catchment_of h cs r) id) as [e|d_vf] eqn:Hvf;
    [unfold merged in Hm; by rewrite Hch, Hkf, Hha, Hga, Hvf in Hm|].
  destruct (extracted gc h (catchment_of h cs r) id) as [e|d_gc] eqn:Hgc;
    [unfold merged in Hm; by rewrite Hch, Hkf, Hha, Hga, Hvf, Hgc in Hm|].
  destruct (merged_of_rows h cs r id _ _ _ _ _ _ Hkf Hch Hha Hvf Hga Hgc)
    as [_ Hmerged].
  rewrite Hmerged in Hm.
  destruct (agree _); [|done]. destruct (agree _); [|done].
  injection Hm as <-. apply cells_all_merged_row.
  apply List.Forall_cons; [exact (extracted_cells_finite kf h _ id _ eq_refl Hkf)|].
  apply List.Forall_cons; [exact (extracted_cells_finite ch h _ id _ eq_refl Hch)|].
  apply List.Forall_cons; [exact (extracted_cells_finite ha h _ id _ eq_refl Hha)|].
  apply List.Forall_cons; [exact (extracted_cells_finite vf h _ id _ eq_refl Hvf)|].
  apply List.Forall_cons; [exact (extracted_cells_finite ga h _ id _ eq_refl Hga)|].
  apply List.Forall_cons; [exact (extracted_cells_finite gc h _ id _ eq_refl Hgc)|].
  apply List.Forall_nil.
Qed.

(** X13. The table that the extraction returns has no missing value: no
    cell is NaN. Every row a catchment contributes holds numbers only,
    all rows have the same columns, so that the concatenation fills
    nothing in, and rounding keeps numbers apart from NaN. *)
Theorem table_has_no_missing_value (σ σ' : store) (lh lc l : loc)
    (h c : GeoDataFrame G) (id : string) :
  σ !! lh = Some (OGeo h) → σ !! lc = Some (OGeo c) →
  extract_hydrogeology_attributes_huek lh lc id σ = (ok l, σ') →
  ∃ t, σ' !! l = Some (OFrame t) ∧
       Forall (λ col, Forall (λ v, Float.is_nan v = false) (snd col)) (data t).
Proof.
  intros Hh Hc Hrun.
  destruct (returns_ok _ _ _ _ _
              (extract_hydrogeology_attributes_huek_returns lh lc h c id σ Hh Hc)
              Hrun) as (t & Htable & _ & _ & Hl).
  exists t. split; [done|].
  apply table_rows in Htable as (cs & ds & Hcs & Hds & ->).
  apply cells_all_round, (cells_all_fold _ merged_columns).
  - by eapply merged_rows_columns.
  - clear -Hds. induction Hds as [|r m rs ds Hm _ IH]; constructor; [|done].
    by eapply merged_cells_finite.
Qed.

End Cells.

Lemma table_has_no_missing_value_witness :
  ∃ t, (extract_hydrogeology_attributes_huek 1%positive 2%positive "gauge_id"
          (caller scenario_map two_gauges)).2 !! 35%positive = Some (OFrame t) ∧
       Forall (λ col, Forall (λ v, Float.is_nan v = false) (snd col)) (data t).
Proof.
  apply (table_has_no_missing_value (caller scenario_map two_gauges) _
           1%positive 2%positive 35%positive scenario_map two_gauges "gauge_id").
  - reflexivity.
  - reflexivity.
  - vm_compute. reflexivity.
Defined.

(** ** The identifier field *)

(** Two frames hold the same columns and have the same number of rows;
    they may differ in their index labels. *)
Definition same_cells (a b : DataFrame) : Prop :=
  data a = data b ∧ length (index a) = length (index b).

(** Two outcomes agree up to index labels. *)
Definition same_outcome (r r' : result DataFrame) : Prop :=
  match r, r' with
  | inr a, inr a' => same_cells a a'
  | inl e, inl e' => e = e'
  | _, _ => False
  end.

Lemma same_cells_setitem_scalar (a b : DataFrame) (col : string) (x : float) :
  same_cells a b → same_cells (setitem_scalar a col x) (setitem_scalar b col x).
Proof.
  destruct a as [ia da], b as [ib db]. unfold same_cells. simpl.
  intros [-> Hlen]. unfold setitem_scalar, setitem, columns. simpl. rewrite Hlen.
  by destruct (mem_string col (map fst db)).
Qed.

Lemma same_cells_checked (a b : DataFrame) (category : string) :
  same_cells a b → checked a category = checked b category.
Proof.
  destruct a as [ia da], b as [ib db]. unfold same_cells. simpl.
  intros [-> Hlen]. unfold checked, sum_category, select, columns. simpl.
  destruct (forallb _ _); [|done]. simpl.
  unfold sum_axis1, positions, row_cells, contiguous_rows. simpl. by rewrite Hlen.
Qed.

Lemma same_cells_concat_axis0 (a a' b b' : DataFrame) :
  same_cells a a' → same_cells b b' →
  same_cells (concat_axis0 a b) (concat_axis0 a' b').
Proof.
  destruct a as [ia da], a' as [ia' da'], b as [ib db], b' as [ib' db'].
  unfold same_cells. simpl. intros [-> Ha] [-> Hb].
  unfold concat_axis0, column_or_nan, getitem, columns. simpl.
  rewrite Ha, Hb. split; [done|]. rewrite !length_app. lia.
Qed.

Lemma same_cells_round (k : nat) (a b : DataFrame) :
  same_cells a b → same_cells (round_frame k a) (round_frame k b).
Proof.
  destruct a as [ia da], b as [ib db]. unfold same_cells. simpl.
  by intros [-> Hlen].
Qed.

Lemma same_cells_merged_row (rows6 rows6' : list DataFrame) :
  Forall2 same_cells rows6 rows6' →
  flat_map (cells_named "waterbody") rows6 = flat_map (cells_named "waterbody") rows6' ∧
  flat_map (cells_named "no_data") rows6 = flat_map (cells_named "no_data") rows6' ∧
  same_cells (merged_row rows6) (merged_row rows6').
Proof.
  intros Hrows.
  assert (flat_map data rows6 = flat_map data rows6') as Hdata.
  { induction Hrows as [|a b l l' [Hab _] _ IH]; [done|]. simpl. by rewrite Hab, IH. }
  assert (∀ key, flat_map (cells_named key) rows6 = flat_map (cells_named key) rows6')
    as Hnamed.
  { intros key. induction Hrows as [|a b l l' [Hab _] _ IH]; [done|]. simpl.
    unfold cells_named at 1 3. rewrite Hab. f_equal. apply IH.
    simpl in Hdata. rewrite Hab in Hdata. by apply app_inv_head in Hdata. }
  split; [done|]. split; [done|].
  unfold same_cells, merged_row. simpl. rewrite Hdata, !Hnamed. split; [done|].
  by destruct Hrows as [|a b l l' [_ Hlen] _].
Qed.

Section Identifier.
Context {G : Type} `{Geometry G}.

Abbreviation store := (gmap loc (object G)).

Lemma same_outcome_filled (g : GeoDataFrame G) (fld : string)
    (cats : list (string * string)) :
  ∀ a b, same_cells a b → same_outcome (filled g fld cats a) (filled g fld cats b).
Proof.
  induction cats as [|c cats IH]; intros a b Hab; simpl; [done|].
  destruct (percentage g fld (snd c)) as [e|x]; simpl; [done|].
  by apply IH, same_cells_setitem_scalar.
Qed.

Lemma same_outcome_extracted (x : extractor) (h c : GeoDataFrame G)
    (id id' : string) (i i' : nat) :
  index_of id (attributes c) = Some i → index_of id' (attributes c) = Some i' →
  same_outcome (extracted x h c id) (extracted x h c id').
Proof.
  intros Hid Hid'. unfold extracted, gdf_getitem. rewrite Hid, Hid'. simpl.
  set (a := {| index := map (λ r, mjoin (nth_error (cells r) i)) (rows c);
               data := [] |}).
  set (b := {| index := map (λ r, mjoin (nth_error (cells r) i')) (rows c);
               data := [] |}).
  assert (same_cells a b) as Hab by (split; [done|simpl; by rewrite !length_map]).
  pose proof (same_outcome_filled (clip h c) (field x) (categories x) a b Hab)
    as Hfilled.
  destruct (filled _ _ _ a) as [e|d], (filled _ _ _ b) as [e'|d']; simpl in *;
    try done.
  rewrite (same_cells_checked d d' (prefix x) Hfilled).
  by destruct (checked d' (prefix x)).
Qed.

Lemma same_outcome_merged (h cs : GeoDataFrame G) (r : GeoRow G)
    (id id' : string) (i i' : nat) :
  index_of id (attributes cs) = Some i → index_of id' (attributes cs) = Some i' →
  same_outcome (merged h (catchment_of h cs r) id)
               (merged h (catchment_of h cs r) id').
Proof.
  intros Hid Hid'.
  pose proof (λ x, same_outcome_extracted x h (catchment_of h cs r) id id' i i'
                     Hid Hid') as Hex.
  pose proof (Hex ch) as Rch. pose proof (Hex kf) as Rkf. pose proof (Hex ha) as Rha.
  pose proof (Hex ga) as Rga. pose proof (Hex vf) as Rvf. pose proof (Hex gc) as Rgc.
  destruct (extracted ch h _ id) as [e|d_ch] eqn:Hch,
           (extracted ch h _ id') as [e'|d_ch'] eqn:Hch'; try done;
    [unfold merged; by rewrite Hch, Hch'|].
  destruct (extracted kf h _ id) as [e|d_kf] eqn:Hkf,
           (extracted kf h _ id') as [e'|d_kf'] eqn:Hkf'; try done;
    [unfold merged; by rewrite Hch, Hch', Hkf, Hkf'|].
  destruct (extracted ha h _ id) as [e|d_ha] eqn:Hha,
           (extracted ha h _ id') as [e'|d_ha'] eqn:Hha'; try done;
    [unfold merged; by rewrite Hch, Hch', Hkf, Hkf', Hha, Hha'|].
  destruct (extracted ga h _ id) as [e|d_ga] eqn:Hga,
           (extracted ga h _ id') as [e'|d_ga'] eqn:Hga'; try done;
    [unfold merged; by rewrite Hch, Hch', Hkf, Hkf', Hha, Hha', Hga, Hga'|].
  destruct (extracted vf h _ id) as [e|d_vf] eqn:Hvf,
           (extracted vf h _ id') as [e'|d_vf'] eqn:Hvf'; try done;
    [unfold merged; by rewrite Hch, Hch', Hkf, Hkf', Hha, Hha', Hga, Hga', Hvf, Hvf'|].
  destruct (extracted gc h _ id) as [e|d_gc] eqn:Hgc,
           (extracted gc h _ id') as [e'|d_gc'] eqn:Hgc'; try done;
    [unfold merged;
     by rewrite Hch, Hch', Hkf, Hkf', Hha, Hha', Hga, Hga', Hvf, Hvf', Hgc, Hgc'|].
  destruct (merged_of_rows h cs r id _ _ _ _ _ _ Hkf Hch Hha Hvf Hga Hgc) as [_ ->].
  destruct (merged_of_rows h cs r id' _ _ _ _ _ _ Hkf' Hch' Hha' Hvf' Hga' Hgc')
    as [_ ->].
  destruct (same_cells_merged_row [d_kf; d_ch; d_ha; d_vf; d_ga; d_gc]
              [d_kf'; d_ch'; d_ha'; d_vf'; d_ga'; d_gc']) as (-> & -> & Hrow).
  { constructor; [exact Rkf|]. constructor; [exact Rch|].
    constructor; [exact Rha|]. constructor; [exact Rvf|].
    constructor; [exact Rga|]. constructor; [exact Rgc|]. constructor. }
  destruct (agree _); [|done]. by destruct (agree _).
Qed.

Lemma same_outcome_accumulated (h cs : GeoDataFrame G) (id id' : string) (i i' : nat)
    (rs : list (GeoRow G)) :
  index_of id (attributes cs) = Some i → index_of id' (attributes cs) = Some i' →
  ∀ a b, same_cells a b →
         same_outcome (accumulated h cs id rs a) (accumulated h cs id' rs b).
Proof.
  intros Hid Hid'. induction rs as [|r rs IH]; intros a b Hab; simpl; [done|].
  pose proof (same_outcome_merged h cs r id id' i i' Hid Hid') as Hm.
  destruct (merged h _ id) as [e|m], (merged h _ id') as [e'|m']; try done.
  simpl. by apply IH, same_cells_concat_axis0.
Qed.

(** X14. The identifier field only labels the rows. Two runs that differ in
    the identifier field name, both naming a column of the catchment
    set, end alike: with the same exception, or with tables that have
    the same columns and the same cells. *)
Theorem identifier_field_only_labels_rows (σ : store) (lh lc : loc)
    (h c : GeoDataFrame G) (id id' : string) (i i' : nat) :
  σ !! lh = Some (OGeo h) → σ !! lc = Some (OGeo c) →
  index_of id (attributes c) = Some i → index_of id' (attributes c) = Some i' →
  match extract_hydrogeology_attributes_huek lh lc id σ,
        extract_hydrogeology_attributes_huek lh lc id' σ with
  | (inr l, σ1), (inr l', σ2) =>
      ∃ t t', σ1 !! l = Some (OFrame t) ∧ σ2 !! l' = Some (OFrame t') ∧
              data t = data t'
  | (inl e, _), (inl e', _) => e = e'
  | _, _ => False
  end.
Proof.
  intros Hh Hc Hid Hid'.
  pose proof (extract_hydrogeology_attributes_huek_returns lh lc h c id σ Hh Hc)
    as Hret.
  pose proof (extract_hydrogeology_attributes_huek_returns lh lc h c id' σ Hh Hc)
    as Hret'.
  assert (same_outcome (table h c id) (table h c id')) as Hsame.
  { unfold table. destruct (to_crs c (crs h)) as [e|cs] eqn:Hcs; [done|]. simpl.
    destruct (to_crs_shape c cs (crs h) Hcs) as (Hattr & _).
    rewrite <- Hattr in Hid, Hid'.
    pose proof (same_outcome_accumulated h cs id id' i i' (rows cs) Hid Hid'
                  empty_frame empty_frame (conj eq_refl eq_refl)) as Hacc.
    destruct (accumulated h cs id _ _) as [e|t],
             (accumulated h cs id' _ _) as [e'|t']; try done.
    simpl. by apply same_cells_round. }
  unfold returns, wp in Hret, Hret'.
  destruct (extract_hydrogeology_attributes_huek lh lc id σ) as [[e|l] σ1],
           (extract_hydrogeology_attributes_huek lh lc id' σ) as [[e'|l'] σ2];
    simpl in *; destruct Hret as [_ Hout], Hret' as [_ Hout'];
    destruct (table h c id) as [e1|t], (table h c id') as [e2|t']; try done.
  - congruence.
  - exists t, t'. destruct Hout as [_ Hl], Hout' as [_ Hl'], Hsame as [Hdata _].
    done.
Qed.

End Identifier.

(** Catchments with a second attribute column. *)
Definition named_gauges : GeoDataFrame (list N) :=
  {| crs := Some "EPSG:4326"; geometry_name := "geometry"; attributes := ["gauge_id"; "name"];
     rows := [ {| cells := [Some "DE1"; Some "Oberlauf"]; geometry := span 0 10 |};
               {| cells := [Some "DE2"; None]; geometry := span 3 3 |} ] |}.

Lemma identifier_field_only_labels_rows_witness :
  match extract_hydrogeology_attributes_huek 1%positive 2%positive "gauge_id"
          (caller scenario_map named_gauges),
        extract_hydrogeology_attributes_huek 1%positive 2%positive "name"
          (caller scenario_map named_gauges) with
  | (inr l, σ1), (inr l', σ2) =>
      ∃ t t', σ1 !! l = Some (OFrame t) ∧ σ2 !! l' = Some (OFrame t') ∧
              data t = data t'
  | (inl e, _), (inl e', _) => e = e'
  | _, _ => False
  end.
Proof.
  apply (identifier_field_only_labels_rows (caller scenario_map named_gauges)
           1%positive 2%positive scenario_map named_gauges "gauge_id" "name" 0 1).
  - reflexivity.
  - reflexivity.
  - reflexivity.
  - reflexivity.
Defined.

(** ** Reprojection *)

Section Reprojection.
Context {G : Type} `{Geometry G}.

Abbreviation store := (gmap loc (object G)).

Lemma to_crs_again (c cs : GeoDataFrame G) (target : option string) :
  to_crs c target = ok cs → to_crs cs target = ok cs.
Proof.
  unfold to_crs. destruct (crs c) as [src|] eqn:Hsrc; [|done].
  destruct target as [dst|]; [|done].
  destruct (String.eqb src dst) eqn:Heq; intros Hcs; injection Hcs as <-.
  - by rewrite Hsrc, Heq.
  - simpl. by rewrite String.eqb_refl.
Qed.

(** X15. The extraction reprojects the catchments itself, and a caller
    who has already brought them to the coordinate reference of the
    base map loses nothing: on the reprojected catchment set the
    extraction ends as on the original one, with the same table or the
    same exception. *)
Theorem reprojecting_first_changes_nothing (σ σ0 : store) (lh lc lh0 lcs : loc)
    (h c cs : GeoDataFrame G) (id : string) :
  σ !! lh = Some (OGeo h) → σ !! lc = Some (OGeo c) →
  σ0 !! lh0 = Some (OGeo h) → σ0 !! lcs = Some (OGeo cs) →
  to_crs c (crs h) = ok cs →
  match extract_hydrogeology_attributes_huek lh lc id σ,
        extract_hydrogeology_attributes_huek lh0 lcs id σ0 with
  | (inr l, σ1), (inr l', σ2) =>
      ∃ t, σ1 !! l = Some (OFrame t) ∧ σ2 !! l' = Some (OFrame t)
  | (inl e, _), (inl e', _) => e = e'
  | _, _ => False
  end.
Proof.
  intros Hh Hc Hh0 Hcs Hto.
  pose proof (extract_hydrogeology_attributes_huek_returns lh lc h c id σ Hh Hc)
    as Hret.
  pose proof (extract_hydrogeology_attributes_huek_returns lh0 lcs h cs id σ0 Hh0 Hcs)
    as Hret'.
  assert (table h cs id = table h c id) as Htable.
  { unfold table. by rewrite Hto, (to_crs_again c cs (crs h) Hto). }
  rewrite Htable in Hret'. unfold returns, wp in Hret, Hret'.
  destruct (extract_hydrogeology_attributes_huek lh lc id σ) as [[e|l] σ1],
           (extract_hydrogeology_attributes_huek lh0 lcs id σ0) as [[e'|l'] σ2];
    simpl in *; destruct Hret as [_ Hout], Hret' as [_ Hout'];
    destruct (table h c id) as [e1|t]; try done.
  - congruence.
  - exists t. by destruct Hout, Hout'.
Qed.

End Reprojection.

Lemma reprojecting_first_changes_nothing_witness :
  match extract_hydrogeology_attributes_huek 1%positive 2%positive "gauge_id"
          (caller scenario_map two_gauges),
        extract_hydrogeology_attributes_huek 1%positive 2%positive "gauge_id"
          (caller scenario_map (reprojected two_gauges)) with
  | (inr l, σ1), (inr l', σ2) =>
      ∃ t, σ1 !! l = Some (OFrame t) ∧ σ2 !! l' = Some (OFrame t)
  | (inl e, _), (inl e', _) => e = e'
  | _, _ => False
  end.
Proof.
  apply (reprojecting_first_changes_nothing (caller scenario_map two_gauges)
           (caller scenario_map (reprojected two_gauges))
           1%positive 2%positive 1%positive 2%positive
           scenario_map two_gauges (reprojected two_gauges) "gauge_id").
  - reflexivity.
  - reflexivity.
  - reflexivity.
  - reflexivity.
  - reflexivity.
Defined.

(** * The entry point [run.py]

    The script reads its parameters and the two data sets, looks at the
    environment variable [TOOL_RUN] and either runs the extraction and
    writes the table, writes an error log, or raises. What it asks of
    its surroundings is collected in a record; what it does to the file
    system is a list of effects, in the order of the calls. The output
    directory is taken to be writable. *)

(** An exception that ends the script: one of the exceptions above
    ([KeyError] of a missing key, [ValueError] of the script, whatever
    the extraction raises), or an exception raised inside one of the
    library calls [get_parameter], [get_data_paths] and
    [gpd.read_file]. *)
Inductive error : Type :=
  | Raised (e : exn)
  | Foreign (description : string).

Record World (G : Type) : Type := {
  (** [get_parameter()] *)
  get_parameter : error + gmap string string;
  (** [get_data_paths()] *)
  get_data_paths : error + gmap string string;
  (** [gpd.read_file(path)] *)
  read_file : string → error + GeoDataFrame G;
  (** [os.environ] *)
  environ : gmap string string;
  (** the text of [dt.now().isocalendar()] at the time of the call *)
  now : string
}.
Arguments get_parameter {G} _.
Arguments get_data_paths {G} _.
Arguments read_file {G} _ _.
Arguments environ {G} _.
Arguments now {G} _.
Arguments Build_World {G} _ _ _ _ _.

Inductive effect : Type :=
  (** [table.to_csv(path)] *)
  | ToCsv (path : string) (table : DataFrame)
  (** [os.system(command)] *)
  | System (command : string)
  (** [open(path, 'w')] and [f.write(content)] *)
  | WriteFile (path content : string).

(** [str.lower()] on text of ASCII characters: the letters [A] to [Z]
    are replaced, every other character is kept. (Python also replaces
    upper-case letters outside ASCII; the properties that depend on it
    are stated for ASCII text.) *)
Definition lower_char (c : ascii) : ascii :=
  let n := nat_of_ascii c in
  if (65 <=? n)%nat && (n <=? 90)%nat then ascii_of_nat (n + 32) else c.

Fixpoint lower (s : string) : string :=
  match s with
  | EmptyString => EmptyString
  | String c s' => String (lower_char c) (lower s')
  end.

Fixpoint ascii_only (s : string) : bool :=
  match s with
  | EmptyString => true
  | String c s' => (nat_of_ascii c <? 128)%nat && ascii_only s'
  end.

Definition ebind {A B} (r : error + A) (f : A → error + B) : error + B :=
  match r with
  | inl e => inl e
  | inr a => f a
  end.

(** [d[key]] on a dictionary *)
Definition dict_getitem (d : gmap string string) (key : string) : error + string :=
  match d !! key with
  | Some v => inr v
  | None => inl (Raised KeyError)
  end.

Definition tool_name : string := "hydrogeology_attributes_huek".

Definition newline : string := String (ascii_of_nat 10) EmptyString.

Section Script.
Context {G : Type} `{Geometry G}.

Abbreviation store := (gmap loc (object G)).

(** Lines 13 to 21: the identifier field name, the base map and the
    catchments. *)
Definition inputs (w : World G) : error + (string * GeoDataFrame G * GeoDataFrame G) :=
  ebind (get_parameter w) (λ parameter,
  ebind (dict_getitem parameter "id_field_name") (λ id_field_name,
  ebind (get_data_paths w) (λ data_paths,
  ebind (dict_getitem data_paths "huek") (λ huek_path,
  ebind (read_file w huek_path) (λ huek,
  ebind (dict_getitem data_paths "catchments") (λ catchments_path,
  ebind (read_file w catchments_path) (λ catchments,
  inr (id_field_name, huek, catchments)))))))).

(** The call of line 33, on the two frames that were read, and the
    table behind the reference it returns. *)
Definition call_tool (huek catchments : GeoDataFrame G) (id_field_name : string)
  : M DataFrame :=
  huek ← alloc (OGeo huek);
  catchments ← alloc (OGeo catchments);
  hydrogeology_attributes ←
    extract_hydrogeology_attributes_huek huek catchments id_field_name;
  load_frame hydrogeology_attributes.

(** [os.environ.get("TOOL_RUN", "").lower()] *)
Definition toolname (w : World G) : string :=
  lower (default EmptyString (environ w !! "TOOL_RUN")).

Definition error_message (w : World G) : string :=
  "[" ++ now w ++ "] Either no TOOL_RUN environment variable available, or '"
  ++ toolname w ++ "' is not valid." ++ newline.

(** The script: how it ends and what it has written by then. *)
Definition run (w : World G) : (error + unit) * list effect :=
  match inputs w with
  | inl e => (inl e, [])
  | inr (id_field_name, huek, catchments) =>
      if String.eqb (toolname w) EmptyString then (inl (Raised ValueError), [])
      else if String.eqb (toolname w) tool_name then
        match fst (call_tool huek catchments id_field_name ∅) with
        | inr hydrogeology_attributes =>
            (inr tt, [ToCsv "/out/hydrogeology_attributes.csv" hydrogeology_attributes;
                      System "chmod -R 777 /out"])
        | inl e => (inl (Raised e), [])
        end
      else (inr tt, [WriteFile "/out/error.log" (error_message w)])
  end.

End Script.

Section ScriptProofs.
Context {G : Type} `{Geometry G}.

Abbreviation store := (gmap loc (object G)).

(** The call of the script, in the store that holds the two frames
    just read and nothing else, ends as the value-level description of
    the extraction says. *)
Lemma call_tool_table (h c : GeoDataFrame G) (id : string) :
  fst (call_tool h c id ∅) = table h c id.
Proof.
  change (wp (call_tool h c id) (∅ : store) (λ out _, out = table h c id)).
  unfold call_tool.
  apply wp_bind, wp_alloc. intros lh Hlh.
  apply wp_bind, wp_alloc. intros lc Hlc.
  assert ((<[lc := OGeo c]> (<[lh := OGeo h]> ∅) : store) !! lh = Some (OGeo h))
    as Hh by (apply lookup_insert_fresh; [done|apply lookup_insert_eq]).
  assert ((<[lc := OGeo c]> (<[lh := OGeo h]> ∅) : store) !! lc = Some (OGeo c))
    as Hc by apply lookup_insert_eq.
  apply wp_bind.
  pose proof (extract_hydrogeology_attributes_huek_returns lh lc h c id _ Hh Hc)
    as Hret.
  unfold returns in Hret. revert Hret. apply wp_mono.
  intros [e|l] σ' [_ Hout]; simpl in Hout;
    destruct (table h c id) as [e'|t]; try done.
  - by subst.
  - destruct Hout as [_ Hl]. by apply (wp_load_frame _ t).
Qed.

Lemma lower_empty (s : string) : lower s = EmptyString → s = EmptyString.
Proof. by destruct s. Qed.

(** X16. Without a tool name the script raises [ValueError], after it has
    read its inputs and without writing anything: [TOOL_RUN] unset and
    [TOOL_RUN] empty are the same to it. The error log is therefore
    never written for an unset variable, although its text names that
    case: whenever the script writes a file other than the table, the
    variable holds a non-empty name, the script ends without an
    exception, and the log is the only thing written. *)
Theorem unset_tool_raises_and_never_logs :
  (∀ (w : World G) x,
     inputs w = inr x →
     environ w !! "TOOL_RUN" = None ∨ environ w !! "TOOL_RUN" = Some EmptyString →
     run w = (inl (Raised ValueError), [])) ∧
  (∀ (w : World G) out effs path content,
     run w = (out, effs) → WriteFile path content ∈ effs →
     ∃ v, environ w !! "TOOL_RUN" = Some v ∧ v ≠ EmptyString ∧
          out = inr tt ∧ effs = [WriteFile "/out/error.log" (error_message w)]).
Proof.
  split.
  - intros w [[id h] c] Hin Hunset. unfold run. rewrite Hin.
    assert (toolname w = EmptyString) as ->; [|done].
    unfold toolname. by destruct Hunset as [-> | ->].
  - intros w out effs path content Hrun Hlog. unfold run in Hrun.
    destruct (inputs w) as [e|[[id h] c]].
    { injection Hrun as <- <-. by apply elem_of_nil in Hlog. }
    destruct (String.eqb (toolname w) EmptyString) eqn:Hempty.
    { injection Hrun as <- <-. by apply elem_of_nil in Hlog. }
    destruct (String.eqb (toolname w) tool_name).
    { destruct (fst (call_tool h c id ∅)) as [e|t]; injection Hrun as <- <-.
      - by apply elem_of_nil in Hlog.
      - apply elem_of_cons in Hlog as [?|Hlog]; [done|].
        apply elem_of_cons in Hlog as [?|Hlog]; [done|].
        by apply elem_of_nil in Hlog. }
    injection Hrun as <- <-.
    apply String.eqb_neq in Hempty. unfold toolname in Hempty.
    destruct (environ w !! "TOOL_RUN") as [v|]; [|done].
    exists v. split; [done|]. split; [|done]. by intros ->.
Qed.

(** X17. With [TOOL_RUN] set to the tool's name, in any mix of upper and
    lower case, the script runs the extraction on the two frames it has
    read and the identifier field name of its parameters. When the
    extraction returns, the script writes that table to
    [/out/hydrogeology_attributes.csv], then opens the permissions of
    [/out], and ends; when the extraction raises, the script ends with
    that exception and has written nothing, no error log either. *)
Theorem valid_tool_writes_the_table (w : World G) (id : string)
    (h c : GeoDataFrame G) (v : string) :
  inputs w = inr (id, h, c) →
  environ w !! "TOOL_RUN" = Some v → lower v = tool_name →
  run w = match table h c id with
          | inr t => (inr tt, [ToCsv "/out/hydrogeology_attributes.csv" t;
                               System "chmod -R 777 /out"])
          | inl e => (inl (Raised e), [])
          end.
Proof.
  intros Hin Henv Hname. unfold run. rewrite Hin.
  unfold toolname. rewrite Henv. simpl. rewrite Hname. simpl.
  by rewrite call_tool_table.
Qed.

(** X18. With [TOOL_RUN] set to any other non-empty name (of ASCII
    characters), the script does not run the extraction and does not
    raise: it writes [/out/error.log], one line that quotes the name in
    lower case, and ends normally, whatever the frames it has read
    hold. *)
Theorem invalid_tool_only_logs (w : World G) x (v : string) :
  inputs w = inr x →
  environ w !! "TOOL_RUN" = Some v → ascii_only v = true →
  v ≠ EmptyString → lower v ≠ tool_name →
  run w = (inr tt,
           [WriteFile "/out/error.log"
              ("[" ++ now w
               ++ "] Either no TOOL_RUN environment variable available, or '"
               ++ lower v ++ "' is not valid." ++ newline)]).
Proof.
  intros Hin Henv _ Hv Hname. unfold run, error_message. rewrite Hin.
  destruct x as [[id h] c]. unfold toolname. rewrite Henv. simpl.
  apply String.eqb_neq in Hname. rewrite Hname.
  assert (String.eqb (lower v) EmptyString = false) as ->; [|done].
  apply String.eqb_neq. intros Hempty. by apply lower_empty in Hempty.
Qed.

End ScriptProofs.

(** ** A run of the script on the grid geometry *)

(** The surroundings of the end-to-end scenario, with [TOOL_RUN] as
    given and catchments as given. *)
Definition scenario_world (tool_run : option string) (c : GeoDataFrame (list N))
  : World (list N) :=
  {| get_parameter := inr {["id_field_name" := "gauge_id"]};
     get_data_paths :=
       inr (<["huek" := "/in/huek.gpkg"]> {["catchments" := "/in/catchments.gpkg"]});
     read_file path :=
       if String.eqb path "/in/huek.gpkg" then inr scenario_map
       else if String.eqb path "/in/catchments.gpkg" then inr c
       else inl (Foreign "DataSourceError");
     environ := match tool_run with
                | Some v => {["TOOL_RUN" := v]}
                | None => ∅
                end;
     now := "datetime.IsoCalendarDate(year=2024, week=7, weekday=3)" |}.

Lemma unset_tool_raises_and_never_logs_witness :
  run (scenario_world None scenario_gauges) = (inl (Raised ValueError), []) ∧
  (∀ out effs path content,
     run (scenario_world (Some "extract") scenario_gauges) = (out, effs) →
     WriteFile path content ∈ effs →
     ∃ v, environ (scenario_world (Some "extract") scenario_gauges) !! "TOOL_RUN"
          = Some v ∧ v ≠ EmptyString ∧ out = inr tt ∧
          effs = [WriteFile "/out/error.log"
                    (error_message (scenario_world (Some "extract") scenario_gauges))]).
Proof.
  destruct (unset_tool_raises_and_never_logs (G := list N)) as [Hunset Hlog]. split.
  - apply (Hunset _ ("gauge_id", scenario_map, scenario_gauges)).
    + vm_compute. reflexivity.
    + left. vm_compute. reflexivity.
  - apply Hlog.
Defined.

Lemma valid_tool_writes_the_table_witness :
  run (scenario_world (Some "Hydrogeology_Attributes_HUEK") scenario_gauges)
  = match table scenario_map scenario_gauges "gauge_id" with
    | inr t => (inr tt, [ToCsv "/out/hydrogeology_attributes.csv" t;
                         System "chmod -R 777 /out"])
    | inl e => (inl (Raised e), [])
    end.
Proof.
  apply (valid_tool_writes_the_table _ "gauge_id" scenario_map scenario_gauges
           "Hydrogeology_Attributes_HUEK").
  - vm_compute. reflexivity.
  - vm_compute. reflexivity.
  - vm_compute. reflexivity.
Defined.

Lemma invalid_tool_only_logs_witness :
  run (scenario_world (Some "Extract") nowhere_gauges)
  = (inr tt,
     [WriteFile "/out/error.log"
        ("[" ++ "datetime.IsoCalendarDate(year=2024, week=7, weekday=3)"
         ++ "] Either no TOOL_RUN environment variable available, or '"
         ++ lower "Extract" ++ "' is not valid." ++ newline)]).
Proof.
  apply (invalid_tool_only_logs (scenario_world (Some "Extract") nowhere_gauges)
           ("gauge_id", scenario_map, nowhere_gauges) "Extract").
  - vm_compute. reflexivity.
  - vm_compute. reflexivity.
  - reflexivity.
  - discriminate.
  - vm_compute. discriminate.
Defined.

(** The run of the end-to-end scenario: the table of one row is
    written, then the permissions are opened. *)
Example scenario_script :
  ∃ t, run (scenario_world (Some "hydrogeology_attributes_huek") scenario_gauges)
       = (inr tt, [ToCsv "/out/hydrogeology_attributes.csv" t;
                   System "chmod -R 777 /out"]) ∧
       index t = [Some "DE1"] ∧
       getitem t "kf_very_high_perc" = Some [Float.of_Z 60] ∧
       getitem t "waterbody_perc" = Some [Float.of_Z 40].
Proof.
  exists (match table scenario_map scenario_gauges "gauge_id" with
          | inr t => t
          | inl _ => empty_frame
          end).
  split; [vm_compute; reflexivity|]. split; [vm_compute; reflexivity|].
  split; vm_compute; reflexivity.
Qed.
